(** * apq: the Postfix mail-queue parser, its date logic, filters and
      legacy transform, embedded from [apq.py].

    Conventions of the embedding.
    - A Python [str] is a [string]; a character is a code point below 256
      (the Latin-1 range), so the predicates on characters below list the
      members of each Python character class inside that range.
    - A Python [dict] is an association list in insertion order
      ([dict V]); assigning to an existing key keeps the key's position.
    - An exception or a [sys.exit] is a value of [exn]; code that can raise
      returns [res A].
    - The float returned by [parse_mailq_date] is a whole number of seconds
      well below 2^53, so it is kept as a [Z]; the float that
      [total_seconds()] gives for an age is the rounded quotient, kept as a
      dyadic number ([float]). *)

From Stdlib Require Import ZArith List String Ascii Bool Lia.
Import ListNotations.

#[local] Open Scope string_scope.
#[local] Open Scope list_scope.
#[local] Open Scope Z_scope.

(** ** Exceptions and results *)

Inductive exn : Type :=
| IndexError
| KeyError (key : string)
| ValueError
| TypeError
| UnboundLocalError (name : string)
| ReError
| NameError (name : string)
| AttributeError
| OverflowError
| SystemExit (code : Z) (stderr : string).

Inductive res (A : Type) : Type :=
| Ok (a : A)
| Raise (e : exn).

Arguments Ok {A} a.
Arguments Raise {A} e.

Definition bind {A B : Type} (r : res A) (k : A -> res B) : res B :=
  match r with
  | Ok a => k a
  | Raise e => Raise e
  end.

Notation "x <- c ;; k" := (bind c (fun x => k))
  (at level 61, c at next level, right associativity).

Definition of_option {A : Type} (e : exn) (o : option A) : res A :=
  match o with
  | Some a => Ok a
  | None => Raise e
  end.

(** The exit status of the process: [sys.exit(code)] gives [code], any other
    exception that reaches the top level gives 1. *)
Definition exit_status {A : Type} (r : res A) : Z :=
  match r with
  | Ok _ => 0
  | Raise (SystemExit code _) => code
  | Raise _ => 1
  end.

(** ** Python string primitives *)

Module Py.

Definition code (c : ascii) : nat := nat_of_ascii c.

Definition between (lo hi : nat) (c : ascii) : bool :=
  (Nat.leb lo (code c) && Nat.leb (code c) hi)%bool.

(** [str.isspace] on one character. *)
Definition isspace (c : ascii) : bool :=
  (between 9 13 c || between 28 32 c
   || Nat.eqb (code c) 133 || Nat.eqb (code c) 160)%bool.

(** [str.isdigit] on one character: the decimal digits and the superscripts
    one, two and three. *)
Definition isdigit (c : ascii) : bool :=
  (between 48 57 c || Nat.eqb (code c) 178 || Nat.eqb (code c) 179
   || Nat.eqb (code c) 185)%bool.

(** Line boundaries of [str.splitlines], the pair CR LF apart. *)
Definition islinebreak (c : ascii) : bool :=
  (between 10 13 c || between 28 30 c || Nat.eqb (code c) 133)%bool.

Definition lower_char (c : ascii) : ascii :=
  if (between 65 90 c
      || (between 192 222 c && negb (Nat.eqb (code c) 215)))%bool
  then ascii_of_nat (code c + 32)
  else c.

Fixpoint lower (s : string) : string :=
  match s with
  | EmptyString => EmptyString
  | String c r => String (lower_char c) (lower r)
  end.

Definition is_empty (s : string) : bool :=
  match s with
  | EmptyString => true
  | String _ _ => false
  end.

(** [c in s] for a single character [c]. *)
Fixpoint contains (c : ascii) (s : string) : bool :=
  match s with
  | EmptyString => false
  | String d r => (Ascii.eqb c d || contains c r)%bool
  end.

(** [s[:n]] *)
Fixpoint take (n : nat) (s : string) : string :=
  match n, s with
  | S n', String c r => String c (take n' r)
  | _, _ => EmptyString
  end.

(** [s[0]] *)
Definition first (s : string) : option ascii :=
  match s with
  | EmptyString => None
  | String c _ => Some c
  end.

(** [s[-1]] *)
Fixpoint last (s : string) : option ascii :=
  match s with
  | EmptyString => None
  | String c EmptyString => Some c
  | String _ r => last r
  end.

(** [s[:-1]] *)
Fixpoint drop_last (s : string) : string :=
  match s with
  | EmptyString => EmptyString
  | String c r => if is_empty r then EmptyString else String c (drop_last r)
  end.

(** [s[1:-1]] *)
Definition inner (s : string) : string :=
  match s with
  | EmptyString => EmptyString
  | String _ r => drop_last r
  end.

Fixpoint lstrip_by (p : ascii -> bool) (s : string) : string :=
  match s with
  | EmptyString => EmptyString
  | String c r => if p c then lstrip_by p r else s
  end.

Fixpoint rstrip_by (p : ascii -> bool) (s : string) : string :=
  match s with
  | EmptyString => EmptyString
  | String c r =>
      let r' := rstrip_by p r in
      if (p c && is_empty r')%bool then EmptyString else String c r'
  end.

(** [s.strip()] *)
Definition strip (s : string) : string := rstrip_by isspace (lstrip_by isspace s).

(** [s.lstrip(' ')] *)
Definition lstrip_spaces (s : string) : string :=
  lstrip_by (Ascii.eqb " "%char) s.

Definition snoc (s : string) (c : ascii) : string :=
  (s ++ String c EmptyString)%string.

(** [s.split()]: the maximal runs of non-whitespace characters. *)
Fixpoint split_go (tok s : string) : list string :=
  match s with
  | EmptyString => if is_empty tok then [] else [tok]
  | String c r =>
      if isspace c
      then (if is_empty tok then split_go EmptyString r
            else tok :: split_go EmptyString r)
      else split_go (snoc tok c) r
  end.

Definition split (s : string) : list string := split_go EmptyString s.

(** [s.split(sep)] for a one-character separator. *)
Fixpoint split_on_go (sep : ascii) (tok s : string) : list string :=
  match s with
  | EmptyString => [tok]
  | String c r =>
      if Ascii.eqb c sep then tok :: split_on_go sep EmptyString r
      else split_on_go sep (snoc tok c) r
  end.

Definition split_on (sep : ascii) (s : string) : list string :=
  split_on_go sep EmptyString s.

(** [s.splitlines()] *)
Fixpoint splitlines_go (tok s : string) : list string :=
  match s with
  | EmptyString => if is_empty tok then [] else [tok]
  | String c r =>
      if Ascii.eqb c "013"%char then
        match r with
        | String "010"%char r' => tok :: splitlines_go EmptyString r'
        | _ => tok :: splitlines_go EmptyString r
        end
      else if islinebreak c then tok :: splitlines_go EmptyString r
      else splitlines_go (snoc tok c) r
  end.

Definition splitlines (s : string) : list string := splitlines_go EmptyString s.

(** [sep.join(l)] *)
Fixpoint join (sep : string) (l : list string) : string :=
  match l with
  | [] => EmptyString
  | [x] => x
  | x :: r => (x ++ sep ++ join sep r)%string
  end.

(** [s.replace(a, b)] for single characters. *)
Fixpoint replace_char (a b : ascii) (s : string) : string :=
  match s with
  | EmptyString => EmptyString
  | String c r => String (if Ascii.eqb c a then b else c) (replace_char a b r)
  end.

(** [l[i:j]] for non-negative [i <= j]. *)
Definition slice {A : Type} (i j : nat) (l : list A) : list A :=
  firstn (j - i) (skipn i l).

(** Truth value of a string. *)
Definition truthy (s : string) : bool := negb (is_empty s).

Definition digit_val (c : ascii) : option Z :=
  if between 48 57 c then Some (Z.of_nat (code c - 48)) else None.

Fixpoint int_digits (acc : Z) (after_digit : bool) (s : string) : option Z :=
  match s with
  | EmptyString => if after_digit then Some acc else None
  | String c r =>
      if Ascii.eqb c "_"%char
      then (if after_digit then int_digits acc false r else None)
      else match digit_val c with
           | Some d => int_digits (10 * acc + d) true r
           | None => None
           end
  end.

(** The whitespace that [int()] skips around a number.  A string of ASCII
    characters goes to the number parser as it is, and the parser skips the
    whitespace of C (9 to 13 and 32); in a string with a character beyond
    ASCII, the whitespace beyond ASCII (133 and 160) is turned into spaces
    first.  The separators 28 to 31, which [str.strip] and [str.split] take
    for whitespace, are not skipped. *)
Definition int_space (c : ascii) : bool :=
  (between 9 13 c || Nat.eqb (code c) 32
   || Nat.eqb (code c) 133 || Nat.eqb (code c) 160)%bool.

(** The interpreter's default limit on the number of digits of a decimal
    string ([sys.int_info.default_max_str_digits]). *)
Definition MAX_STR_DIGITS : nat := 4300.

Fixpoint count_digits (s : string) : nat :=
  match s with
  | EmptyString => 0
  | String c r =>
      match digit_val c with
      | Some _ => S (count_digits r)
      | None => count_digits r
      end
  end.

(** [int(s)]: surrounding whitespace, an optional sign, decimal digits that
    single underscores may separate, at most [MAX_STR_DIGITS] digits;
    [None] is [ValueError]. *)
Definition int (s : string) : option Z :=
  let t := rstrip_by int_space (lstrip_by int_space s) in
  if Nat.ltb MAX_STR_DIGITS (count_digits t) then None
  else
    match t with
    | String "+"%char r => int_digits 0 false r
    | String "-"%char r => option_map Z.opp (int_digits 0 false r)
    | _ => int_digits 0 false t
    end.

End Py.

(** ** Dictionaries

    [dict V] is a Python [dict] (or [OrderedDict]) with string keys: the
    items in insertion order.  [od_set] is [d[k] = v]: a key already present
    keeps its place and gets the new value, a new key goes to the end. *)

Definition dict (V : Type) : Type := list (string * V).

Fixpoint od_get {V : Type} (k : string) (d : dict V) : option V :=
  match d with
  | [] => None
  | (k', v) :: r => if String.eqb k k' then Some v else od_get k r
  end.

Fixpoint od_set {V : Type} (k : string) (v : V) (d : dict V) : dict V :=
  match d with
  | [] => [(k, v)]
  | (k', v') :: r =>
      if String.eqb k k' then (k', v) :: r else (k', v') :: od_set k v r
  end.

Definition od_mem {V : Type} (k : string) (d : dict V) : bool :=
  match od_get k d with
  | Some _ => true
  | None => false
  end.

Definition keys {V : Type} (d : dict V) : list string := map fst d.

(** [dict(pairs)]: the pairs assigned one after the other to an empty dict. *)
Definition dict_of_items {V : Type} (items : list (string * V)) : dict V :=
  fold_left (fun d kv => od_set (fst kv) (snd kv) d) items [].

(** [d.update(other)] *)
Definition od_update {V : Type} (d other : dict V) : dict V :=
  fold_left (fun d kv => od_set (fst kv) (snd kv) d) other d.

(** ** The record model

    A recipient group is the dict that [_append_recipients] builds: the key
    ["addresses"] always, the key ["reason"] only for a non-empty reason
    ([r_reason = None] is the absent key).  A message is a dict from field
    name to value. *)

Record recipient : Type := mk_recipient {
  r_addresses : list string;
  r_reason : option string
}.

Inductive pyval : Type :=
| VStr (s : string)
| VFloat (seconds : Z)
| VRecipients (l : list recipient).

Definition msg : Type := dict pyval.

Definition MAILQ_EMPTY : string := Py.lower "Mail queue is empty".
Definition ST_ACTIVE : string := "active".
Definition ST_HELD : string := "held".
Definition ST_DEFER : string := "deferred".

(** [_append_recipients(reason, addresses, recipients)]: the list that
    [recipients] names after the call. *)
Definition _append_recipients (reason : option string) (addresses : list string)
    (recipients : list recipient) : list recipient :=
  if Nat.ltb 0 (List.length addresses) then
    recipients ++
      [ {| r_addresses := addresses;
           r_reason := match reason with
                       | Some r => if Py.truthy r then Some r else None
                       | None => None
                       end |} ]
  else recipients.

(** ** The parser [parse_mq] *)

Inductive mq_state : Type :=
| MQ_STATE_HDR
| MQ_STATE_MSG_DATA
| MQ_STATE_RCPT
| MQ_STATE_REASON
| MQ_STATE_DONE.

Definition mq_state_eqb (a b : mq_state) : bool :=
  match a, b with
  | MQ_STATE_HDR, MQ_STATE_HDR
  | MQ_STATE_MSG_DATA, MQ_STATE_MSG_DATA
  | MQ_STATE_RCPT, MQ_STATE_RCPT
  | MQ_STATE_REASON, MQ_STATE_REASON
  | MQ_STATE_DONE, MQ_STATE_DONE => true
  | _, _ => false
  end.

Definition HEX_DIGITS : string := "0123456789ABCDEF".

(** The local variables of [parse_mq].

    - [msgs] is the [OrderedDict].
    - [msg] is a reference to a message dict: the key under which that dict
      was stored in [msgs] by the header branch ([None] is Python's [None]).
      Nothing else is stored in [msgs] between that assignment and the next
      header, so [msg[...] = v] is an update of the entry at that key.
    - [addresses] and [reason] start as [None].
    - [recipients] is unbound until the first header ([None]).  Once
      [msg["recipients"] = recipients] has run, the list in the message and
      the local name are one object: [linked] records that, and every later
      append to [recipients] is written through to the message. *)
Record locals : Type := mk_locals {
  msgs : dict msg;
  cur_msg : option string;
  addresses : option (list string);
  reason : option string;
  recipients : option (list recipient);
  linked : bool;
  state : mq_state
}.

Definition init_locals : locals :=
  {| msgs := []; cur_msg := None; addresses := None; reason := None;
     recipients := None; linked := false; state := MQ_STATE_HDR |}.

(** What one iteration of the loop does: go on with new locals, return from
    [parse_mq], or raise. *)
Inductive ctl : Type :=
| Continue (l : locals)
| Return (result : dict msg)
| Throw (e : exn).

Definition _quit (m : string) : ctl := Throw (SystemExit 1 m).

(** A text between two double quotes (character 34). *)
Definition quoted (s : string) : string :=
  (String "034"%char s ++ String "034"%char EmptyString)%string.

(** [msg[field] = v] through the reference [k]. *)
Definition store_field (k field : string) (v : pyval) (d : dict msg) : dict msg :=
  match od_get k d with
  | Some m => od_set k (od_set field v m) d
  | None => d
  end.

(** [_append_recipients(reason, addresses, recipients)] on the locals: the
    arguments are evaluated first, then [len(addresses)]. *)
Definition do_append (l : locals) : res locals :=
  match recipients l with
  | None => Raise (UnboundLocalError "recipients")
  | Some rs =>
      match addresses l with
      | None => Raise TypeError
      | Some a =>
          let rs' := _append_recipients (reason l) a rs in
          Ok {| msgs := match linked l, cur_msg l with
                        | true, Some k =>
                            store_field k "recipients" (VRecipients rs') (msgs l)
                        | _, _ => msgs l
                        end;
                cur_msg := cur_msg l; addresses := addresses l;
                reason := reason l; recipients := Some rs';
                linked := linked l; state := state l |}
      end
  end.

(** [msg["recipients"] = recipients] on the locals. *)
Definition do_link (l : locals) : res locals :=
  match recipients l with
  | None => Raise (UnboundLocalError "recipients")
  | Some rs =>
      match cur_msg l with
      | None => Raise TypeError
      | Some k =>
          Ok {| msgs := store_field k "recipients" (VRecipients rs) (msgs l);
                cur_msg := cur_msg l; addresses := addresses l;
                reason := reason l; recipients := recipients l;
                linked := true; state := state l |}
      end
  end.

Definition set_state (s : mq_state) (l : locals) : locals :=
  {| msgs := msgs l; cur_msg := cur_msg l; addresses := addresses l;
     reason := reason l; recipients := recipients l; linked := linked l;
     state := s |}.

(** The identifier and status of a header: [s[0]] with its last character
    looked at. *)
Definition classify_id (tok0 : string) : res (string * string) :=
  match Py.last tok0 with
  | None => Raise IndexError
  | Some c =>
      if Ascii.eqb c "*"%char then Ok (Py.drop_last tok0, ST_ACTIVE)
      else if Ascii.eqb c "|"%char then Ok (Py.drop_last tok0, ST_HELD)
      else Ok (tok0, ST_DEFER)
  end.

(** Lines 141-156: the tokens of a header line to the key and the message
    dict stored under it. *)
Definition header_fields (line : string) : res (string * msg) :=
  let s := Py.split line in
  tok0 <- of_option IndexError (nth_error s 0) ;;
  qs <- classify_id tok0 ;;
  size <- of_option IndexError (nth_error s 1) ;;
  sender <- of_option IndexError (nth_error (rev s) 0) ;;
  Ok (fst qs,
      [ ("size", VStr size);
        ("rawdate", VStr (Py.join " " (Py.slice 2 6 s)));
        ("sender", VStr sender);
        ("status", VStr (snd qs)) ]).

Definition lift (r : res locals) (k : locals -> ctl) : ctl :=
  match r with
  | Ok l => k l
  | Raise e => Throw e
  end.

Definition is_hex_line (line : string) : bool :=
  match Py.first line with
  | Some c => Py.contains c HEX_DIGITS
  | None => false
  end.

(** The local [status] of the header branch, read back from the message
    dict it was just put in. *)
Definition status_of (m : msg) : string :=
  match od_get "status" m with
  | Some (VStr st) => st
  | _ => EmptyString
  end.

(** The header branch, lines 138-161. *)
Definition step_header (l : locals) (line : string) : ctl :=
  lift (if mq_state_eqb (state l) MQ_STATE_RCPT then do_link l else Ok l)
    (fun l1 =>
       match header_fields line with
       | Raise e => Throw e
       | Ok (queue_id, m) =>
           Continue
             {| msgs := od_set queue_id m (msgs l1);
                cur_msg := Some queue_id;
                addresses := Some [];
                reason := reason l1;
                recipients := Some [];
                linked := false;
                state := if String.eqb (status_of m) ST_ACTIVE
                         then MQ_STATE_RCPT else MQ_STATE_REASON |}
       end).

(** The reason branch, lines 163-173. *)
Definition step_reason (l : locals) (line : string) : ctl :=
  if (negb (mq_state_eqb (state l) MQ_STATE_REASON)
      && negb (mq_state_eqb (state l) MQ_STATE_RCPT))%bool
  then _quit ("Unexpected state for input " ++ quoted (Py.strip line))%string
  else
    lift (if mq_state_eqb (state l) MQ_STATE_RCPT then do_append l else Ok l)
      (fun l1 =>
         Continue
           {| msgs := msgs l1; cur_msg := cur_msg l1;
              addresses := Some [];
              reason := Some (Py.replace_char "010"%char " "%char
                                (Py.inner (Py.strip line)));
              recipients := recipients l1; linked := linked l1;
              state := MQ_STATE_RCPT |}).

(** The address branch, lines 175-178. *)
Definition step_address (l : locals) (line : string) : ctl :=
  if negb (mq_state_eqb (state l) MQ_STATE_RCPT)
  then _quit ("Expected recipient address, got " ++ quoted (Py.strip line))%string
  else
    match addresses l with
    | None => Throw TypeError
    | Some a =>
        Continue
          {| msgs := msgs l; cur_msg := cur_msg l;
             addresses := Some (a ++ [Py.strip line]);
             reason := reason l; recipients := recipients l;
             linked := linked l; state := state l |}
    end.

(** The body of the loop of [parse_mq], lines 117-180. *)
Definition step (l : locals) (line : string) : ctl :=
  if mq_state_eqb (state l) MQ_STATE_DONE then
    _quit "Unexpected input: %s"
  else if (Py.is_empty line || String.eqb (Py.take 10 line) "-Queue ID-")%bool then
    if mq_state_eqb (state l) MQ_STATE_RCPT then
      lift (l1 <- do_append l ;; do_link l1)
        (fun l2 => Continue (set_state MQ_STATE_MSG_DATA l2))
    else Continue l
  else if String.eqb (Py.lower line) MAILQ_EMPTY then
    if negb (mq_state_eqb (state l) MQ_STATE_HDR) then
      _quit "Unexpected input: %s"
    else Return (msgs l)
  else if String.eqb (Py.take 2 line) "--" then
    if (negb (mq_state_eqb (state l) MQ_STATE_REASON)
        && negb (mq_state_eqb (state l) MQ_STATE_MSG_DATA))%bool
    then _quit ("Expected delay reason, got " ++ line)%string
    else Continue (set_state MQ_STATE_DONE l)
  else if is_hex_line line then step_header l line
  else
    match Py.first (Py.lstrip_spaces line) with
    | None => Throw IndexError
    | Some c =>
        if Ascii.eqb c "("%char then step_reason l line
        else if Py.contains "@"%char line then step_address l line
        else _quit ("Unknown input line: " ++ line)%string
    end.

(** The loop over the lines, and the [return msgs] after it. *)
Fixpoint run (l : locals) (lines : list string) : ctl :=
  match lines with
  | [] => Continue l
  | line :: rest =>
      match step l line with
      | Continue l' => run l' rest
      | other => other
      end
  end.

Definition parse_lines (lines : list string) : res (dict msg) :=
  match run init_locals lines with
  | Continue l => Ok (msgs l)
  | Return result => Ok result
  | Throw e => Raise e
  end.

(** [call_mailq] hands over the listing stripped; [parse_mq] splits it into
    lines.  [text] is what the queue command or the data file gave. *)
Definition call_mailq (text : string) : string := Py.strip text.

Definition parse_mq (text : string) : res (dict msg) :=
  parse_lines (Py.splitlines (call_mailq text)).

(** ** Dates: [datetime.datetime] and [parse_mailq_date] *)

Record datetime : Type := mk_dt {
  year : Z; month : Z; day : Z;
  hour : Z; minute : Z; second : Z; microsecond : Z
}.

Definition is_leap (y : Z) : bool :=
  ((y mod 4 =? 0) && (negb (y mod 100 =? 0) || (y mod 400 =? 0)))%bool.

Definition days_in_month (y m : Z) : Z :=
  if m =? 2 then (if is_leap y then 29 else 28)
  else if ((m =? 4) || (m =? 6) || (m =? 9) || (m =? 11))%bool then 30
  else 31.

Definition in_range (lo hi v : Z) : bool := ((lo <=? v) && (v <=? hi))%bool.

Definition fits_c_int (v : Z) : bool := in_range (- 2 ^ 31) (2 ^ 31 - 1) v.

(** [datetime.datetime(year=y, month=mo, day=d, hour=h, minute=mi,
    second=s)]: every argument has to fit a C int, then the date and the
    time are range-checked. *)
Definition new_datetime (y mo d h mi s : Z) : res datetime :=
  if negb (forallb fits_c_int [y; mo; d; h; mi; s]) then Raise OverflowError
  else if (in_range 1 9999 y && in_range 1 12 mo
           && in_range 1 (days_in_month y mo) d
           && in_range 0 23 h && in_range 0 59 mi && in_range 0 59 s)%bool
  then Ok {| year := y; month := mo; day := d;
             hour := h; minute := mi; second := s; microsecond := 0 |}
  else Raise ValueError.

Definition dt_fields (a : datetime) : list Z :=
  [year a; month a; day a; hour a; minute a; second a; microsecond a].

Fixpoint lex_gtb (a b : list Z) : bool :=
  match a, b with
  | x :: a', y :: b' => if x =? y then lex_gtb a' b' else y <? x
  | _, _ => false
  end.

(** [a > b] on naive datetimes. *)
Definition dt_gtb (a b : datetime) : bool := lex_gtb (dt_fields a) (dt_fields b).

Definition days_before_year (y : Z) : Z :=
  let p := y - 1 in p * 365 + p / 4 - p / 100 + p / 400.

Definition days_before_month (y m : Z) : Z :=
  fold_right Z.add 0
    (map (days_in_month y) (map Z.of_nat (seq 1 (Z.to_nat (m - 1))))).

(** [date.toordinal]: day 1 is 1 January of year 1. *)
Definition toordinal (a : datetime) : Z :=
  days_before_year (year a) + days_before_month (year a) (month a) + day a.

(** Whole seconds from 1 January of year 1, 00:00:00. *)
Definition naive_seconds (a : datetime) : Z :=
  (toordinal a - 1) * 86400 + hour a * 3600 + minute a * 60 + second a.

Definition UNIX_EPOCH : datetime :=
  {| year := 1970; month := 1; day := 1;
     hour := 0; minute := 0; second := 0; microsecond := 0 |}.

(** [(d - UNIX_EPOCH).total_seconds()] for a [d] without microseconds. *)
Definition epoch_seconds (d : datetime) : Z :=
  naive_seconds d - naive_seconds UNIX_EPOCH.

Definition MONTH_MAP : dict Z :=
  [ ("Jan", 1); ("Feb", 2); ("Mar", 3); ("Apr", 4); ("May", 5); ("Jun", 6);
    ("Jul", 7); ("Aug", 8); ("Sep", 9); ("Oct", 10); ("Nov", 11); ("Dec", 12) ].

(** The call [datetime.datetime(year=y, month=MONTH_MAP[mon_str],
    day=int(day), hour=int(hour), minute=int(minute), second=int(second))],
    its arguments evaluated from left to right. *)
Definition build_date (y : Z) (mon_str day_s hour_s minute_s second_s : string)
    : res datetime :=
  mo <- of_option (KeyError mon_str) (od_get mon_str MONTH_MAP) ;;
  d <- of_option ValueError (Py.int day_s) ;;
  h <- of_option ValueError (Py.int hour_s) ;;
  mi <- of_option ValueError (Py.int minute_s) ;;
  s <- of_option ValueError (Py.int second_s) ;;
  new_datetime y mo d h mi s.

(** Lines 235-240 of [parse_mailq_date]: the datetime [d] that is converted
    at the end. *)
Definition resolve_date (d : string) (now : datetime) : res datetime :=
  match Py.split d with
  | [_; mon_str; day_s; time_str] =>
      match Py.split_on ":"%char time_str with
      | [hour_s; minute_s; second_s] =>
          c <- build_date (year now) mon_str day_s hour_s minute_s second_s ;;
          if dt_gtb c now
          then build_date (year now - 1) mon_str day_s hour_s minute_s second_s
          else Ok c
      | _ => Raise ValueError
      end
  | _ => Raise ValueError
  end.

Definition parse_mailq_date (d : string) (now : datetime) : res Z :=
  c <- resolve_date d now ;; Ok (epoch_seconds c).

(** ** [timedelta.total_seconds()]

    A duration is a whole number of microseconds, and [total_seconds()] is
    its true division by [10**6]: the double nearest to the quotient, a tie
    going to the even significand.  A double is kept as the dyadic number
    [f_man * 2 ^ f_exp].  A duration between two datetimes is below 2^59
    microseconds, far from both ends of the range of the doubles, so the
    exponent is not bounded here.  Python compares a float with an int by
    their exact values. *)

Record float : Type := mk_float { f_man : Z; f_exp : Z }.

(** [num / den] to the nearest integer, a tie to the even one, for
    [0 <= num] and [0 < den]. *)
Definition round_half_even (num den : Z) : Z :=
  let q := num / den in
  let r := num mod den in
  if 2 * r <? den then q
  else if den <? 2 * r then q + 1
  else if Z.even q then q else q + 1.

(** [v * 2 ^ e] where [e] is positive, [v] otherwise: [a / (b * 2 ^ e)] is
    the fraction [shift_up a (- e) / shift_up b e]. *)
Definition shift_up (v e : Z) : Z := if 0 <? e then v * 2 ^ e else v.

(** [a / b] for two ints with [0 < b].  With [2 ^ k <= |a| / b < 2 ^ (k + 1)]
    the significand has its 53 bits at the exponent [k - 52]; [k] is the
    difference of the bit lengths or one less. *)
Definition true_divide (a b : Z) : float :=
  if a =? 0 then {| f_man := 0; f_exp := 0 |}
  else
    let n := Z.abs a in
    let k0 := Z.log2 n - Z.log2 b in
    let k := if shift_up n (- k0) <? shift_up b k0 then k0 - 1 else k0 in
    let e := k - 52 in
    {| f_man := Z.sgn a * round_half_even (shift_up n (- e)) (shift_up b e);
       f_exp := e |}.

Definition total_seconds (micros : Z) : float := true_divide micros 1000000.

(** [x <= n] and [x >= n] for a float [x] and an int [n]. *)
Definition float_le_int (x : float) (n : Z) : bool :=
  shift_up (f_man x) (f_exp x) <=? shift_up n (- f_exp x).

Definition float_ge_int (x : float) (n : Z) : bool :=
  shift_up n (- f_exp x) <=? shift_up (f_man x) (f_exp x).

(** ** The filters, the date pass and the legacy transform

    The regular-expression engine and the local time zone are outside the
    program; the section takes them as variables.
    - [re_compile p] is [re.compile(p, re.IGNORECASE)], [None] when the
      pattern is rejected ([re.error]).
    - [re_search pat s] tells whether [re.search(pat, s)] finds a match.
    - [fromtimestamp t] is [datetime.datetime.fromtimestamp(t)] as whole
      seconds of naive local time counted like [naive_seconds]. *)

Inductive age_condition : Type := minage | maxage.

Record p3_recipient : Type := mk_p3r {
  delay_reason : string;
  address : string
}.

Record p3m : Type := mk_p3m {
  queue_name : option pyval;
  queue_id : string;
  arrival_time : Z;
  message_size : option pyval;
  sender : option pyval;
  p3_recipients : list p3_recipient
}.

(** A value used as a string argument. *)
Definition as_str (e : exn) (v : pyval) : res string :=
  match v with
  | VStr s => Ok s
  | _ => Raise e
  end.

(** A value iterated over as a list of recipient groups: the empty string
    gives no iteration, anything else that is not such a list fails inside
    the loop or before it. *)
Definition as_recipients (v : pyval) : res (list recipient) :=
  match v with
  | VRecipients l => Ok l
  | VStr EmptyString => Ok []
  | _ => Raise TypeError
  end.

(** [v == s] for a string [s]. *)
Definition val_is (s : string) (v : pyval) : bool :=
  match v with
  | VStr t => String.eqb t s
  | _ => false
  end.

(** [data.get('status') == s] *)
Definition status_is (s : string) (data : msg) : bool :=
  match od_get "status" data with
  | Some v => val_is s v
  | None => false
  end.

(** The generator [((msgid, data) for (msgid, data) in msgs.items() if
    test(data))], consumed from left to right: the first test that raises
    ends it. *)
Fixpoint select_items (test : msg -> res bool) (items : list (string * msg))
    : res (list (string * msg)) :=
  match items with
  | [] => Ok []
  | (msgid, data) :: rest =>
      b <- test data ;;
      kept <- select_items test rest ;;
      Ok (if b then (msgid, data) :: kept else kept)
  end.

Section Filters.

Variable regex : Type.
Variable re_compile : string -> option regex.
Variable re_search : regex -> string -> bool.
Variable fromtimestamp : Z -> res Z.

(** The test [key in data and re.search(pat, data[key])]. *)
Definition key_matches (pat : regex) (key : string) (data : msg) : res bool :=
  match od_get key data with
  | None => Ok false
  | Some v => s <- as_str TypeError v ;; Ok (re_search pat s)
  end.

Definition filter_on_msg_key (msgs : dict msg) (pattern key : string)
    : res (dict msg) :=
  pat <- of_option ReError (re_compile pattern) ;;
  items <- select_items (key_matches pat key) msgs ;;
  Ok (dict_of_items items).

(** The inner loop of [filter_on_msg_reason] over the groups of one message. *)
Fixpoint reason_groups (pat : regex) (queue_id : string) (m : msg)
    (groups : list recipient) (filtered : dict msg) : res (dict msg) :=
  match groups with
  | [] => Ok filtered
  | recipient :: rest =>
      reason <- of_option (KeyError "reason") (r_reason recipient) ;;
      reason_groups pat queue_id m rest
        (if (Py.truthy reason && re_search pat reason)%bool
         then od_set queue_id m filtered else filtered)
  end.

Fixpoint reason_loop (pat : regex) (items : list (string * msg))
    (filtered : dict msg) : res (dict msg) :=
  match items with
  | [] => Ok filtered
  | (queue_id, m) :: rest =>
      st <- of_option (KeyError "status") (od_get "status" m) ;;
      if val_is ST_ACTIVE st then reason_loop pat rest filtered
      else
        v <- of_option (KeyError "recipients") (od_get "recipients" m) ;;
        groups <- as_recipients v ;;
        filtered' <- reason_groups pat queue_id m groups filtered ;;
        reason_loop pat rest filtered'
  end.

Definition filter_on_msg_reason (msgs : dict msg) (pattern : string)
    : res (dict msg) :=
  pat <- of_option ReError (re_compile pattern) ;;
  reason_loop pat msgs [].

Fixpoint recipient_addresses (pat : regex) (queue_id : string) (m : msg)
    (addrs : list string) (filtered : dict msg) : dict msg :=
  match addrs with
  | [] => filtered
  | a :: rest =>
      recipient_addresses pat queue_id m rest
        (if re_search pat a then od_set queue_id m filtered else filtered)
  end.

Fixpoint recipient_groups (pat : regex) (queue_id : string) (m : msg)
    (groups : list recipient) (filtered : dict msg) : dict msg :=
  match groups with
  | [] => filtered
  | recipient :: rest =>
      recipient_groups pat queue_id m rest
        (recipient_addresses pat queue_id m (r_addresses recipient) filtered)
  end.

Fixpoint recipient_loop (pat : regex) (items : list (string * msg))
    (filtered : dict msg) : res (dict msg) :=
  match items with
  | [] => Ok filtered
  | (queue_id, m) :: rest =>
      v <- of_option (KeyError "recipients") (od_get "recipients" m) ;;
      groups <- as_recipients v ;;
      recipient_loop pat rest (recipient_groups pat queue_id m groups filtered)
  end.

Definition filter_on_msg_recipient (msgs : dict msg) (pattern : string)
    : res (dict msg) :=
  pat <- of_option ReError (re_compile pattern) ;;
  recipient_loop pat msgs [].

(** Lines 298-305: the age in seconds; [Ok None] leaves [age_secs] unbound. *)
Definition age_seconds (age : string) : res (option Z) :=
  c <- of_option IndexError (Py.last age) ;;
  let number := of_option ValueError (Py.int (Py.drop_last age)) in
  if Ascii.eqb c "s"%char then n <- number ;; Ok (Some n)
  else if Ascii.eqb c "m"%char then n <- number ;; Ok (Some (n * 60))
  else if Ascii.eqb c "h"%char then n <- number ;; Ok (Some (n * 60 * 60))
  else if Ascii.eqb c "d"%char then n <- number ;; Ok (Some (n * 60 * 60 * 24))
  else Ok None.

(** [now] in microseconds, counted like [naive_seconds]. *)
Definition naive_micros (now : datetime) : Z :=
  naive_seconds now * 1000000 + microsecond now.

(** The lambda [f] applied to [data['date']]: the age of the message, the
    float that [total_seconds()] gives for [now - fromtimestamp(d)], against
    the int [age_secs]. *)
Definition age_test (condition : age_condition) (age_secs : option Z)
    (now : datetime) (data : msg) : res bool :=
  v <- of_option (KeyError "date") (od_get "date" data) ;;
  match v with
  | VFloat d =>
      local <- fromtimestamp d ;;
      let age := total_seconds (naive_micros now - local * 1000000) in
      secs <- of_option (NameError "age_secs") age_secs ;;
      Ok (match condition with
          | minage => float_ge_int age secs
          | maxage => float_le_int age secs
          end)
  | _ => Raise TypeError
  end.

(** [filter_on_msg_age], with the value of [datetime.datetime.now()] as
    the argument [now]. *)
Definition filter_on_msg_age (msgs : dict msg) (condition : age_condition)
    (age : string) (now : datetime) : res (dict msg) :=
  age_secs <- age_seconds age ;;
  items <- select_items (age_test condition age_secs now) msgs ;;
  Ok (dict_of_items items).

(** The two comprehensions of [main], lines 456 and 458. *)
Definition exclude_active (msgs : dict msg) : res (dict msg) :=
  items <- select_items (fun data => Ok (negb (status_is "active" data))) msgs ;;
  Ok (dict_of_items items).

Definition only_active (msgs : dict msg) : res (dict msg) :=
  items <- select_items (fun data => Ok (status_is "active" data)) msgs ;;
  Ok (dict_of_items items).

(** [parse_mailq_date] applied to a value taken from a message. *)
Definition date_of_value (v : option pyval) (now : datetime) : res Z :=
  match v with
  | Some (VStr d) => parse_mailq_date d now
  | _ => Raise AttributeError
  end.

Fixpoint parse_msg_dates_loop (now : datetime) (items : list (string * msg))
    (new_msgs : dict msg) : res (dict msg) :=
  match items with
  | [] => Ok new_msgs
  | (msgid, data) :: rest =>
      if od_mem "date" data then parse_msg_dates_loop now rest new_msgs
      else
        raw <- of_option (KeyError "rawdate") (od_get "rawdate" data) ;;
        t <- date_of_value (Some raw) now ;;
        parse_msg_dates_loop now rest
          (od_set msgid (od_set "date" (VFloat t) data) new_msgs)
  end.

Definition parse_msg_dates (msgs : dict msg) (now : datetime) : res (dict msg) :=
  parse_msg_dates_loop now msgs [].

(** The loops of [convert_to_postfix31], lines 415-422. *)
Fixpoint p3_groups (groups : list recipient) (acc : list p3_recipient)
    : res (list p3_recipient) :=
  match groups with
  | [] => Ok acc
  | recipient :: rest =>
      reason <- of_option (KeyError "reason") (r_reason recipient) ;;
      p3_groups rest
        (acc ++ map (fun a => {| delay_reason := reason; address := a |})
                    (r_addresses recipient))%list
  end.

(** [convert_to_postfix31], with the value of [datetime.datetime.now()] as
    the argument [now]. *)
Definition convert_to_postfix31 (queue_id : string) (m : msg) (now : datetime)
    : res p3m :=
  t <- date_of_value (od_get "rawdate" m) now ;;
  v <- of_option (KeyError "recipients") (od_get "recipients" m) ;;
  groups <- as_recipients v ;;
  rs <- p3_groups groups [] ;;
  Ok {| queue_name := od_get "status" m;
        queue_id := queue_id;
        arrival_time := t;
        message_size := od_get "size" m;
        sender := od_get "sender" m;
        p3_recipients := rs |}.

End Filters.

(** ** Command line and [main] *)

(** The namespace that [argparse] returns; [None] is an option not given. *)
Record args : Type := mk_args {
  a_json : bool;
  a_yaml : bool;
  a_count : bool;
  a_log : bool;
  a_mailq_data : option string;
  a_reason : option string;
  a_recipient : option string;
  a_sender : option string;
  a_parse_date : bool;
  a_maxage : option string;
  a_minage : option string;
  a_exclude_active : bool;
  a_only_active : bool;
  a_postfix3 : bool
}.

(** Truth value of an optional string argument. *)
Definition given (o : option string) : bool :=
  match o with
  | Some s => Py.truthy s
  | None => false
  end.

(** The statement [print >> sys.stderr, '...'] is an expression statement
    whose first component [print >> sys.stderr] is evaluated first, and [>>]
    between the built-in function and a text stream raises [TypeError]:
    nothing is printed and the [sys.exit(1)] that follows is not reached. *)
Definition print_chevron {A : Type} (message : string) : res A := Raise TypeError.

(** Lines 350-354 (and 355-359): an age that ends in a digit gets the unit
    [s]; one that ends in anything but a unit is refused. *)
Definition check_age (name : string) (age : option string) : res (option string) :=
  match age with
  | Some a =>
      if Py.truthy a then
        match Py.last a with
        | Some c =>
            if Py.isdigit c then Ok (Some (a ++ "s")%string)
            else if negb (Py.contains c "smhd")
            then print_chevron ("Error: --" ++ name ++
                                " format is incorrect. Examples: 1800s, 30m")%string
            else Ok age
        | None => Raise IndexError
        end
      else Ok age
  | None => Ok age
  end.

(** [parse_args], from the namespace on. *)
Definition parse_args (a : args) : res args :=
  mi <- check_age "minage" (a_minage a) ;;
  ma <- check_age "maxage" (a_maxage a) ;;
  _ <- (if (a_exclude_active a && a_only_active a)%bool
        then print_chevron
               "Error: --exclude-active and --only-active are mutually exclusive"
        else Ok tt) ;;
  Ok {| a_json := a_json a; a_yaml := a_yaml a; a_count := a_count a;
        a_log := a_log a; a_mailq_data := a_mailq_data a;
        a_reason := a_reason a; a_recipient := a_recipient a;
        a_sender := a_sender a; a_parse_date := a_parse_date a;
        a_maxage := ma; a_minage := mi;
        a_exclude_active := a_exclude_active a;
        a_only_active := a_only_active a; a_postfix3 := a_postfix3 a |}.

(** What the program is given from outside: the text of the queue listing
    (from the command or from the data file), the result of the log scan
    [parse_ml], the clock, and whether the YAML module can be imported. *)
Record world : Type := mk_world {
  w_listing : string;
  w_log : res (dict msg);
  w_now : datetime;
  w_yaml : bool
}.

(** What [output_msgs] prints. *)
Inductive printed : Type :=
| PCount (n : nat)
| PYaml (d : dict msg)
| PPostfix3 (m : p3m)
| PJson (d : dict msg).

Section Main.

Variable regex : Type.
Variable re_compile : string -> option regex.
Variable re_search : regex -> string -> bool.
Variable fromtimestamp : Z -> res Z.
Variable strftime_local : pyval -> res string.

(** [format_msgs_for_output] *)
Fixpoint format_msgs_for_output (items : list (string * msg)) : res (dict msg) :=
  match items with
  | [] => Ok []
  | (msgid, data) :: rest =>
      data' <- match od_get "date" data with
               | Some v => s <- strftime_local v ;; Ok (od_set "date" (VStr s) data)
               | None => Ok data
               end ;;
      rest' <- format_msgs_for_output rest ;;
      Ok ((msgid, data') :: rest')
  end.

(** The loop of the legacy output: each converted message is printed before
    the next is converted. *)
Fixpoint postfix3_loop (now : datetime) (items : list (string * msg))
    : list printed * res unit :=
  match items with
  | [] => ([], Ok tt)
  | (queue_id, m) :: rest =>
      match convert_to_postfix31 queue_id m now with
      | Ok p => let '(out, r) := postfix3_loop now rest in (PPostfix3 p :: out, r)
      | Raise e => ([], Raise e)
      end
  end.

(** [output_msgs]: what is printed, and how the call ends. *)
Definition output_msgs (a : args) (w : world) (msgs : dict msg)
    : list printed * res unit :=
  if a_count a then ([PCount (List.length msgs)], Ok tt)
  else
    match format_msgs_for_output msgs with
    | Raise e => ([], Raise e)
    | Ok msgs' =>
        if a_yaml a then
          if w_yaml w then ([PYaml msgs'], Ok tt)
          else ([], Raise (SystemExit 1
                  "Error: Can't import yaml. Try installing PyYAML."))
        else if a_postfix3 a then postfix3_loop (w_now w) msgs'
        else ([PJson msgs'], Ok tt)
    end.

Definition when (b : bool) (f : dict msg -> res (dict msg)) (msgs : dict msg)
    : res (dict msg) :=
  if b then f msgs else Ok msgs.

Definition arg_text (o : option string) : string :=
  match o with
  | Some s => s
  | None => EmptyString
  end.

(** Lines 434-458 of [main]: loading, the date pass and the filters. *)
Definition select (a : args) (w : world) : res (dict msg) :=
  logged <- (if a_log a then w_log w else Ok []) ;;
  parsed <- parse_mq (w_listing w) ;;
  let msgs := od_update (od_update [] logged) parsed in
  msgs <- when (a_parse_date a || given (a_minage a) || given (a_maxage a))
            (fun msgs => parse_msg_dates msgs (w_now w)) msgs ;;
  msgs <- when (given (a_reason a))
            (fun msgs => filter_on_msg_reason regex re_compile re_search msgs
                           (arg_text (a_reason a))) msgs ;;
  msgs <- when (given (a_sender a))
            (fun msgs => filter_on_msg_key regex re_compile re_search msgs
                           (arg_text (a_sender a)) "sender") msgs ;;
  msgs <- when (given (a_recipient a))
            (fun msgs => filter_on_msg_recipient regex re_compile re_search msgs
                           (arg_text (a_recipient a))) msgs ;;
  msgs <- when (given (a_minage a))
            (fun msgs => filter_on_msg_age fromtimestamp msgs minage
                           (arg_text (a_minage a)) (w_now w)) msgs ;;
  msgs <- when (given (a_maxage a))
            (fun msgs => filter_on_msg_age fromtimestamp msgs maxage
                           (arg_text (a_maxage a)) (w_now w)) msgs ;;
  if a_exclude_active a then exclude_active msgs
  else if a_only_active a then only_active msgs
  else Ok msgs.

(** [main]: what is printed on standard output, and how the program ends. *)
Definition main (raw : args) (w : world) : list printed * res unit :=
  match parse_args raw with
  | Raise e => ([], Raise e)
  | Ok a =>
      match select a w with
      | Raise e => ([], Raise e)
      | Ok msgs => output_msgs a w msgs
      end
  end.

End Main.

(** ** The pipeline as data

    The filters of [main] by name, so that statements can range over all of
    them, and the date pass with them as the stages of the pipeline. *)

Inductive filter_spec : Type :=
| FReason (pattern : string)
| FSender (pattern : string)
| FRecipient (pattern : string)
| FAge (condition : age_condition) (age : string) (now : datetime)
| FExcludeActive
| FOnlyActive.

Inductive stage : Type :=
| SDates (now : datetime)
| SFilter (f : filter_spec).

Section Pipeline.

Variable regex : Type.
Variable re_compile : string -> option regex.
Variable re_search : regex -> string -> bool.
Variable fromtimestamp : Z -> res Z.

Definition apply_filter (f : filter_spec) (msgs : dict msg) : res (dict msg) :=
  match f with
  | FReason p => filter_on_msg_reason regex re_compile re_search msgs p
  | FSender p => filter_on_msg_key regex re_compile re_search msgs p "sender"
  | FRecipient p => filter_on_msg_recipient regex re_compile re_search msgs p
  | FAge c age now => filter_on_msg_age fromtimestamp msgs c age now
  | FExcludeActive => exclude_active msgs
  | FOnlyActive => only_active msgs
  end.

Definition apply_stage (s : stage) (msgs : dict msg) : res (dict msg) :=
  match s with
  | SDates now => parse_msg_dates msgs now
  | SFilter f => apply_filter f msgs
  end.

Fixpoint apply_stages (ss : list stage) (msgs : dict msg) : res (dict msg) :=
  match ss with
  | [] => Ok msgs
  | s :: rest => msgs' <- apply_stage s msgs ;; apply_stages rest msgs'
  end.

End Pipeline.

(** ** Vocabulary of the statements *)

(** A stand-in engine for concrete runs: a pattern is a literal text, found
    anywhere in the subject without regard to case. *)
Fixpoint starts_with (p s : string) : bool :=
  match p, s with
  | EmptyString, _ => true
  | String a p', String b s' => (Ascii.eqb a b && starts_with p' s')%bool
  | String _ _, EmptyString => false
  end.

Fixpoint occurs_in (p s : string) : bool :=
  (starts_with p s
   || match s with
      | EmptyString => false
      | String _ s' => occurs_in p s'
      end)%bool.

Definition lit_compile (pattern : string) : option string := Some (Py.lower pattern).
Definition lit_search (pat s : string) : bool := occurs_in pat (Py.lower s).
Definition utc_local (t : Z) : res Z := Ok (t + naive_seconds UNIX_EPOCH).

(** What the header branch stores for a line, when the line is a header. *)
Definition header_entry (line : string) : option (string * msg) :=
  if is_hex_line line then
    match header_fields line with
    | Ok entry => Some entry
    | Raise _ => None
    end
  else None.

Definition header_ids (lines : list string) : list string :=
  flat_map (fun line => match header_entry line with
                        | Some entry => [fst entry]
                        | None => []
                        end) lines.

(** The lines in front of the first empty-queue sentinel. *)
Fixpoint before_sentinel (lines : list string) : list string :=
  match lines with
  | [] => []
  | line :: rest =>
      if String.eqb (Py.lower line) MAILQ_EMPTY then []
      else line :: before_sentinel rest
  end.

(** A list with only the first occurrence of each element kept. *)
Fixpoint first_occurrences (l : list string) : list string :=
  match l with
  | [] => []
  | x :: r => x :: filter (fun y => negb (String.eqb y x)) (first_occurrences r)
  end.

(** The marker that a status stands for on the raw identifier. *)
Definition marker_of (st : string) : string :=
  if String.eqb st ST_ACTIVE then "*"
  else if String.eqb st ST_HELD then "|"
  else EmptyString.

(** The keys of a collection with the status stored under each. *)
Definition summary (d : dict msg) : dict (option pyval) :=
  map (fun kv => (fst kv, od_get "status" (snd kv))) d.

Definition register (acc : dict (option pyval)) (line : string)
    : dict (option pyval) :=
  match header_entry line with
  | Some entry => od_set (fst entry) (od_get "status" (snd entry)) acc
  | None => acc
  end.

(** The parser's invariant on its locals: before the first header nothing is
    registered; after it the names the branches read are bound. *)
Definition bound (l : locals) : Prop :=
  exists k a rs, cur_msg l = Some k /\ addresses l = Some a /\ recipients l = Some rs.

Definition locals_ok (l : locals) : Prop :=
  (state l = MQ_STATE_HDR -> msgs l = [])
  /\ (state l <> MQ_STATE_HDR -> bound l).

(** The namespace with both status options set. *)
Definition with_both_flags (a : args) : args :=
  {| a_json := a_json a; a_yaml := a_yaml a; a_count := a_count a;
     a_log := a_log a; a_mailq_data := a_mailq_data a;
     a_reason := a_reason a; a_recipient := a_recipient a;
     a_sender := a_sender a; a_parse_date := a_parse_date a;
     a_maxage := a_maxage a; a_minage := a_minage a;
     a_exclude_active := true; a_only_active := true;
     a_postfix3 := a_postfix3 a |}.

(** Whether a message passes a test: the test returns, and returns true. *)
Definition passes (test : msg -> res bool) (kv : string * msg) : bool :=
  match test (snd kv) with
  | Ok true => true
  | _ => false
  end.

(** One list taken from another by dropping elements, the order kept. *)
Inductive subseq {A : Type} : list A -> list A -> Prop :=
| subseq_nil : subseq [] []
| subseq_skip (x : A) (l1 l2 : list A) : subseq l1 l2 -> subseq l1 (x :: l2)
| subseq_keep (x : A) (l1 l2 : list A) : subseq l1 l2 -> subseq (x :: l1) (x :: l2).

(** The loops of the reason and recipient filters as one test on a message:
    whether the loop over its groups raises, and otherwise whether it stores
    the message. *)
Section Tests.

Variable regex : Type.
Variable re_search : regex -> string -> bool.

Fixpoint any_reason (pat : regex) (groups : list recipient) : res bool :=
  match groups with
  | [] => Ok false
  | g :: rest =>
      reason <- of_option (KeyError "reason") (r_reason g) ;;
      b <- any_reason pat rest ;;
      Ok ((Py.truthy reason && re_search pat reason) || b)%bool
  end.

Definition reason_test (pat : regex) (m : msg) : res bool :=
  st <- of_option (KeyError "status") (od_get "status" m) ;;
  if val_is ST_ACTIVE st then Ok false
  else
    v <- of_option (KeyError "recipients") (od_get "recipients" m) ;;
    groups <- as_recipients v ;;
    any_reason pat groups.

Definition any_address (pat : regex) (groups : list recipient) : bool :=
  existsb (fun g => existsb (re_search pat) (r_addresses g)) groups.

Definition recipient_test (pat : regex) (m : msg) : res bool :=
  v <- of_option (KeyError "recipients") (od_get "recipients" m) ;;
  groups <- as_recipients v ;;
  Ok (any_address pat groups).

End Tests.

(** Each filter as the test it applies to every message, once its argument
    has been read (the pattern compiled, the age converted). *)
Section FilterTests.

Variable regex : Type.
Variable re_compile : string -> option regex.
Variable re_search : regex -> string -> bool.
Variable fromtimestamp : Z -> res Z.

Definition filter_test (f : filter_spec) : res (msg -> res bool) :=
  match f with
  | FReason p =>
      pat <- of_option ReError (re_compile p) ;; Ok (reason_test regex re_search pat)
  | FSender p =>
      pat <- of_option ReError (re_compile p) ;;
      Ok (key_matches regex re_search pat "sender")
  | FRecipient p =>
      pat <- of_option ReError (re_compile p) ;;
      Ok (recipient_test regex re_search pat)
  | FAge c age now =>
      age_secs <- age_seconds age ;; Ok (age_test fromtimestamp c age_secs now)
  | FExcludeActive => Ok (fun data => Ok (negb (status_is "active" data)))
  | FOnlyActive => Ok (fun data => Ok (status_is "active" data))
  end.

End FilterTests.

(** The fields of a datetime are in the ranges of the calendar. *)
Definition valid_dt (a : datetime) : Prop :=
  1 <= month a <= 12
  /\ 1 <= day a <= days_in_month (year a) (month a)
  /\ 0 <= hour a <= 23 /\ 0 <= minute a <= 59 /\ 0 <= second a <= 59
  /\ 0 <= microsecond a <= 999999.

Ltac month_cases m :=
  let H := fresh "Hm" in
  assert (H : m = 1 \/ m = 2 \/ m = 3 \/ m = 4 \/ m = 5 \/ m = 6 \/ m = 7
              \/ m = 8 \/ m = 9 \/ m = 10 \/ m = 11 \/ m = 12) by lia;
  repeat (destruct H as [H | H]; [subst m | ]); [.. | subst m].

(** The classes of lines, as the chain of tests in the loop tells them
    apart. *)
Definition skipped_line (line : string) : bool :=
  (Py.is_empty line || String.eqb (Py.take 10 line) "-Queue ID-")%bool.

Definition is_sentinel (line : string) : bool :=
  String.eqb (Py.lower line) MAILQ_EMPTY.

Definition is_footer (line : string) : bool := String.eqb (Py.take 2 line) "--".

Definition is_address_line (line : string) : bool :=
  (negb (skipped_line line) && negb (is_sentinel line) && negb (is_footer line)
   && negb (is_hex_line line)
   && match Py.first (Py.lstrip_spaces line) with
      | Some c => negb (Ascii.eqb c "("%char)
      | None => false
      end
   && Py.contains "@"%char line)%bool.

(** A group as [_append_recipients] builds them: at least one address, and
    a reason only when it is not empty. *)
Definition group_ok (g : recipient) : bool :=
  (match r_addresses g with
   | [] => false
   | _ :: _ => true
   end
   && match r_reason g with
      | Some r => Py.truthy r
      | None => true
      end)%bool.

(** The reason that [_append_recipients] stores for the local [reason]. *)
Definition stored_reason (reason : option string) : option string :=
  match reason with
  | Some r => if Py.truthy r then Some r else None
  | None => None
  end.

(** The four fields that the header branch stores. *)
Definition is_base (b : msg) : Prop :=
  exists size raw sender st,
    b = [ ("size", VStr size); ("rawdate", VStr raw);
          ("sender", VStr sender); ("status", VStr st) ].

(** A record as the parser leaves it: the fields of its header, and after
    them the recipients once they have been stored. *)
Definition record_of (b m : msg) : Prop :=
  is_base b
  /\ (m = b
      \/ exists gs,
           m = b ++ [("recipients", VRecipients gs)]
           /\ forallb group_ok gs = true).

(** The fields of the last header line that carries the identifier [q]. *)
Definition last_header (q : string) (lines : list string) : option msg :=
  fold_left
    (fun found line =>
       match header_entry line with
       | Some entry => if String.eqb (fst entry) q then Some (snd entry) else found
       | None => found
       end)
    lines None.

(** The parser's invariant on what it has stored: each record is the fields
    of the last header with its identifier, with or without recipients, and
    the groups closed so far are well formed. *)
Definition stored_ok (l : locals) (consumed : list string) : Prop :=
  (forall k m, od_get k (msgs l) = Some m ->
               exists b, last_header k consumed = Some b /\ record_of b m)
  /\ (forall rs, recipients l = Some rs -> forallb group_ok rs = true).

(** A token of [str.split()]: not empty, no whitespace in it. *)
Fixpoint no_space (s : string) : bool :=
  match s with
  | EmptyString => true
  | String c r => (negb (Py.isspace c) && no_space r)%bool
  end.

Definition is_token (t : string) : bool := (negb (Py.is_empty t) && no_space t)%bool.

(** The namespace of a run with no option but the output ones: the four
    output flags as they are given, the log scan, the date pass and every
    filter left out. *)
Definition plain_args (mailq_data : option string)
    (json yaml count postfix3 : bool) : args :=
  {| a_json := json; a_yaml := yaml; a_count := count; a_log := false;
     a_mailq_data := mailq_data; a_reason := None; a_recipient := None;
     a_sender := None; a_parse_date := false; a_maxage := None;
     a_minage := None; a_exclude_active := false; a_only_active := false;
     a_postfix3 := postfix3 |}.

(** Whether the sender of a record is a string that the pattern finds. *)
Definition sender_found {regex : Type} (re_search : regex -> string -> bool)
    (pat : regex) (kv : string * msg) : bool :=
  match od_get "sender" (snd kv) with
  | Some (VStr s) => re_search pat s
  | _ => false
  end.

(** What the date pass does to a record: a record with no date yet gets the
    resolved time of its raw timestamp under the key date. *)
Definition lacks_date (kv : string * msg) : bool := negb (od_mem "date" (snd kv)).

Definition dated (now : datetime) (kv kv' : string * msg) : Prop :=
  fst kv' = fst kv
  /\ exists raw t,
       od_get "rawdate" (snd kv) = Some (VStr raw)
       /\ parse_mailq_date raw now = Ok t
       /\ snd kv' = od_set "date" (VFloat t) (snd kv).

(** The entries that the legacy transform emits for a list of groups. *)
Definition flattened (groups : list recipient) : list p3_recipient :=
  flat_map
    (fun g => map (fun a => {| delay_reason := match r_reason g with
                                               | Some r => r
                                               | None => EmptyString
                                               end;
                               address := a |})
                  (r_addresses g))
    groups.


(** Whether a record has an address that the pattern finds, and whether a
    record that is not Active has a reason that the pattern finds. *)
Definition groups_of (m : msg) : list recipient :=
  match od_get "recipients" m with
  | Some (VRecipients gs) => gs
  | _ => []
  end.

Definition address_found {regex : Type} (re_search : regex -> string -> bool)
    (pat : regex) (kv : string * msg) : bool :=
  existsb (fun g => existsb (re_search pat) (r_addresses g)) (groups_of (snd kv)).

Definition reason_found {regex : Type} (re_search : regex -> string -> bool)
    (pat : regex) (kv : string * msg) : bool :=
  (negb (status_is ST_ACTIVE (snd kv))
   && existsb (fun g => match r_reason g with
                        | Some r => (Py.truthy r && re_search pat r)%bool
                        | None => false
                        end)
        (groups_of (snd kv)))%bool.

(** What the reason filter needs of a record to get through it. *)
Definition reasons_readable (kv : string * msg) : Prop :=
  exists st,
    od_get "status" (snd kv) = Some st
    /\ (val_is ST_ACTIVE st = false ->
        exists gs,
          od_get "recipients" (snd kv) = Some (VRecipients gs)
          /\ Forall (fun g => r_reason g <> None) gs).

(** ** Sample data *)

Definition jan1 (y : Z) : datetime :=
  {| year := y; month := 1; day := 1;
     hour := 0; minute := 0; second := 10; microsecond := 0 |}.

Definition listing_two : list string :=
  [ "-Queue ID- --Size-- ----Arrival Time---- -Sender/Recipient-------";
    "A1*    1024 Mon Jan  5 10:00:00  user@example.com";
    "                                         rcpt@example.com";
    "";
    "B2     2048 Mon Jan  5 10:00:01  s@example.com";
    "(connection timed out)";
    "                                         r1@example.com";
    "                                         r2@example.com";
    "";
    "-- 3 Kbytes in 2 Requests." ].

(** A listing cut off after the last address: no blank line, no footer. *)
Definition newline : string := String "010"%char EmptyString.

Definition truncated_listing : string :=
  ("B2 10 Mon Jan 5 10:00:01 s@x" ++ newline ++ "(timeout)" ++ newline
   ++ " b@x" ++ newline)%string.

(** The character [c] taken [n] times. *)
Fixpoint repeat_char (c : ascii) (n : nat) : string :=
  match n with
  | O => EmptyString
  | S n' => String c (repeat_char c n')
  end.

(** The text of [listing_two], and a listing with a header line after its
    footer. *)
Definition listing_text : string := Py.join newline listing_two.

Definition late_header_listing : list string :=
  [ "A1*    1024 Mon Jan  5 10:00:00  user@example.com";
    "                                         rcpt@example.com";
    "";
    "-- 1 Kbytes in 1 Request.";
    "B2 2048 Mon Jan 5 10:00:01" ].

Definition rec_active : msg :=
  [ ("size", VStr "1024"); ("rawdate", VStr "Mon Jan 5 10:00:00");
    ("sender", VStr "user@example.com"); ("status", VStr "active");
    ("recipients",
     VRecipients [ {| r_addresses := ["rcpt@example.com"]; r_reason := None |} ]) ].

Definition rec_deferred : msg :=
  [ ("size", VStr "2048"); ("rawdate", VStr "Mon Jan 5 10:00:01");
    ("sender", VStr "s@example.com"); ("status", VStr "deferred");
    ("recipients",
     VRecipients [ {| r_addresses := ["r1@example.com"; "r2@example.com"];
                      r_reason := Some "connection timed out" |} ]) ].

(** * Properties *)

Example split_header :
  Py.split "ABC123*    1024 Mon Jan  5 10:00:00  user@example.com"
  = ["ABC123*"; "1024"; "Mon"; "Jan"; "5"; "10:00:00"; "user@example.com"].
Proof. reflexivity. Qed.

Example splitlines_crlf :
  Py.splitlines ("a" ++ String "013" (String "010" "") ++ String "010" "b")%string
  = ["a"; ""; "b"].
Proof. reflexivity. Qed.

Example int_examples :
  Py.int "007" = Some 7 /\ Py.int "1_0" = Some 10 /\ Py.int "1__0" = None
  /\ Py.int "-5" = Some (-5) /\ Py.int "" = None /\ Py.int " 12 " = Some 12.
Proof. repeat split; reflexivity. Qed.

(** What [int()] skips and what it does not, and the limit on the digits. *)
Example int_whitespace :
  Py.int (String "028" "5") = None /\ Py.int (String "160" "5") = Some 5
  /\ Py.int (String "009" "5 ") = Some 5 /\ Py.int "+ 5" = None
  /\ Py.int (String "133" "-7") = Some (-7).
Proof. repeat split; reflexivity. Qed.

Example int_digit_limit :
  match Py.int (repeat_char "9" 4300) with Some _ => True | None => False end
  /\ Py.int (repeat_char "9" 4301) = None
  /\ Py.int ("-" ++ repeat_char "0" 4301) = None.
Proof. repeat split; vm_compute; auto. Qed.

Example age_seconds_examples :
  age_seconds "1h" = Ok (Some 3600) /\ age_seconds "90" = Ok None
  /\ age_seconds (String "028" "5s") = Raise ValueError
  /\ age_seconds " 5 s" = Ok (Some 5) /\ age_seconds "5x" = Ok None
  /\ age_seconds "" = Raise IndexError.
Proof. repeat split; reflexivity. Qed.

Example epoch_2000 :
  epoch_seconds {| year := 2000; month := 3; day := 1; hour := 0; minute := 0;
                   second := 0; microsecond := 0 |} = 951868800.
Proof. reflexivity. Qed.

Example parse_listing_two :
  parse_lines listing_two = Ok [("A1", rec_active); ("B2", rec_deferred)].
Proof. reflexivity. Qed.

(** ** Dictionaries *)

Section DictFacts.

Context {V : Type}.
Implicit Types (d : dict V) (k : string) (v : V).

Lemma od_get_set_same k v d : od_get k (od_set k v d) = Some v.
Proof.
  induction d as [|[k' v'] d IH]; simpl.
  - now rewrite String.eqb_refl.
  - destruct (String.eqb k k') eqn:E; simpl; rewrite E; auto.
Qed.

Lemma od_get_set_other k k' v d :
  String.eqb k k' = false -> od_get k (od_set k' v d) = od_get k d.
Proof.
  intros Hne. induction d as [|[k2 v2] d IH]; simpl.
  - now rewrite Hne.
  - destruct (String.eqb k' k2) eqn:E; simpl.
    + apply String.eqb_eq in E. subst k2. now rewrite Hne.
    + now rewrite IH.
Qed.

Lemma od_get_in k d : od_get k d <> None <-> In k (keys d).
Proof.
  induction d as [|[k' v'] d IH]; simpl.
  - tauto.
  - destruct (String.eqb k k') eqn:E.
    + apply String.eqb_eq in E. split; [auto | discriminate].
    + apply String.eqb_neq in E. rewrite IH. split; [auto | intros [H|H]; congruence].
Qed.

Lemma od_get_none k d : od_get k d = None <-> ~ In k (keys d).
Proof.
  rewrite <- od_get_in. destruct (od_get k d) as [v|].
  - split; [discriminate | intros H; exfalso; apply H; discriminate].
  - split; [intros _ H; now apply H | reflexivity].
Qed.

Lemma od_get_some_in k v d : od_get k d = Some v -> In (k, v) d.
Proof.
  induction d as [|[k' v'] d IH]; simpl; [discriminate|].
  destruct (String.eqb k k') eqn:E.
  - apply String.eqb_eq in E. intros [= ->]. subst. now left.
  - auto.
Qed.

Lemma od_get_nodup k v d : NoDup (keys d) -> In (k, v) d -> od_get k d = Some v.
Proof.
  induction d as [|[k' v'] d IH]; simpl; [tauto|].
  intros Hnd [Heq|Hin].
  - injection Heq as -> ->. now rewrite String.eqb_refl.
  - inversion Hnd as [|? ? Hni Hnd']; subst.
    destruct (String.eqb k k') eqn:E; [|auto].
    apply String.eqb_eq in E. subst k'. exfalso. apply Hni.
    change k with (fst (k, v)). now apply in_map.
Qed.

Lemma od_set_absent k v d : ~ In k (keys d) -> od_set k v d = d ++ [(k, v)].
Proof.
  induction d as [|[k' v'] d IH]; simpl; intros Hni; [reflexivity|].
  destruct (String.eqb k k') eqn:E.
  - apply String.eqb_eq in E. exfalso. apply Hni. now left.
  - rewrite IH; [reflexivity|]. intros H. apply Hni. now right.
Qed.

Lemma od_set_twice k v v' d : od_set k v (od_set k v' d) = od_set k v d.
Proof.
  induction d as [|[k2 v2] d IH]; simpl.
  - now rewrite String.eqb_refl.
  - destruct (String.eqb k k2) eqn:E; simpl; rewrite E; [reflexivity | now rewrite IH].
Qed.

Lemma keys_od_set_present k v d : In k (keys d) -> keys (od_set k v d) = keys d.
Proof.
  induction d as [|[k' v'] d IH]; simpl; [tauto|].
  intros Hin. destruct (String.eqb k k') eqn:E; simpl; [reflexivity|].
  apply String.eqb_neq in E. f_equal. apply IH. destruct Hin; congruence.
Qed.

Lemma keys_od_set k v d :
  keys (od_set k v d) = if od_mem k d then keys d else keys d ++ [k].
Proof.
  unfold od_mem. destruct (od_get k d) eqn:E.
  - apply keys_od_set_present, od_get_in. congruence.
  - apply od_get_none in E. rewrite od_set_absent by assumption.
    unfold keys. now rewrite map_app.
Qed.

Lemma fold_od_set_nodup (items acc : list (string * V)) :
  NoDup (keys (acc ++ items)) ->
  fold_left (fun d kv => od_set (fst kv) (snd kv) d) items acc = acc ++ items.
Proof.
  revert acc. induction items as [|[k v] items IH]; intros acc Hnd; simpl.
  - now rewrite app_nil_r.
  - rewrite od_set_absent.
    + rewrite IH; rewrite <- app_assoc; simpl; auto.
    + unfold keys in Hnd. rewrite map_app in Hnd. simpl in Hnd.
      apply NoDup_remove_2 in Hnd. intros Hin. apply Hnd.
      apply in_or_app. now left.
Qed.

Lemma dict_of_items_nodup (items : list (string * V)) :
  NoDup (keys items) -> dict_of_items items = items.
Proof. intros Hnd. unfold dict_of_items. now rewrite fold_od_set_nodup. Qed.

End DictFacts.

(** ** Strings and line classes *)

Lemma last_drop_last (s : string) (c : ascii) :
  Py.last s = Some c -> s = (Py.drop_last s ++ String c EmptyString)%string.
Proof.
  induction s as [|a s IH]; simpl; [discriminate|].
  destruct s as [|b s'].
  - intros [= ->]. reflexivity.
  - intros H. simpl Py.is_empty. cbv iota. simpl append. f_equal. now apply IH.
Qed.

Lemma last_nonempty (s : string) : Py.truthy s = true -> Py.last s <> None.
Proof.
  induction s as [|a s IH]; simpl; [discriminate|].
  intros _. destruct s as [|b s']; [discriminate|]. now apply IH.
Qed.

Lemma mailq_empty_unfold : MAILQ_EMPTY = String "m"%char "ail queue is empty".
Proof. reflexivity. Qed.

Lemma hex_char_facts (c : ascii) :
  Py.contains c HEX_DIGITS = true ->
  Ascii.eqb c "-"%char = false /\ Ascii.eqb (Py.lower_char c) "m"%char = false.
Proof.
  destruct c as [[] [] [] [] [] [] [] []]; vm_compute; intros H;
    first [discriminate H | split; reflexivity].
Qed.

Lemma sentinel_first_char (c : ascii) :
  Ascii.eqb (Py.lower_char c) "m"%char = true -> Ascii.eqb c "-"%char = false.
Proof.
  destruct c as [[] [] [] [] [] [] [] []]; vm_compute; intros H;
    first [discriminate H | reflexivity].
Qed.

Lemma is_hex_line_inv (line : string) :
  is_hex_line line = true ->
  exists c r, line = String c r /\ Py.contains c HEX_DIGITS = true.
Proof.
  destruct line as [|c r]; simpl; [discriminate|]. intros H. now exists c, r.
Qed.

Lemma sentinel_not_hex (line : string) :
  String.eqb (Py.lower line) MAILQ_EMPTY = true -> is_hex_line line = false.
Proof.
  rewrite mailq_empty_unfold. destruct line as [|c r]; [reflexivity|].
  simpl Py.lower. intros H. simpl in H. apply andb_prop in H as [Hc _].
  unfold is_hex_line. simpl Py.first.
  destruct (Py.contains c HEX_DIGITS) eqn:E; [|reflexivity].
  apply hex_char_facts in E as [_ E]. congruence.
Qed.

Lemma banner_not_sentinel (line : string) :
  (Py.is_empty line || String.eqb (Py.take 10 line) "-Queue ID-")%bool = true ->
  String.eqb (Py.lower line) MAILQ_EMPTY = false.
Proof.
  rewrite mailq_empty_unfold. destruct line as [|c r]; [reflexivity|].
  simpl Py.is_empty. simpl Py.take. simpl Py.lower. intros H.
  simpl in H. apply andb_prop in H as [Hc _].
  simpl String.eqb.
  destruct (Ascii.eqb (Py.lower_char c) "m"%char) eqn:E; [|reflexivity].
  apply sentinel_first_char in E. congruence.
Qed.

(** A line that begins with a hexadecimal digit reaches the header branch
    unless the footer has been seen. *)
Lemma hex_dispatch (l : locals) (line : string) :
  is_hex_line line = true ->
  state l <> MQ_STATE_DONE ->
  step l line = step_header l line.
Proof.
  intros Hhex Hst. destruct (is_hex_line_inv _ Hhex) as (c & r & -> & Hc).
  destruct (hex_char_facts c Hc) as [Hdash Hm].
  unfold step.
  replace (mq_state_eqb (state l) MQ_STATE_DONE) with false
    by (destruct (state l); try reflexivity; congruence).
  rewrite mailq_empty_unfold. rewrite Hhex.
  simpl Py.is_empty. simpl Py.take. simpl Py.lower.
  change (String.eqb (String c ?x) (String ?b ?y))
    with (Ascii.eqb c b && String.eqb x y)%bool.
  simpl String.eqb. rewrite Hdash, Hm. reflexivity.
Qed.


(** ** Header lines *)

Lemma append_empty (s : string) : (s ++ EmptyString)%string = s.
Proof. induction s as [|c s IH]; simpl; [reflexivity | now rewrite IH]. Qed.

Lemma classify_id_spec (tok0 q st : string) :
  classify_id tok0 = Ok (q, st) ->
  (st = ST_ACTIVE \/ st = ST_HELD \/ st = ST_DEFER)
  /\ (st = ST_ACTIVE <-> Py.last tok0 = Some "*"%char)
  /\ (st = ST_HELD <-> Py.last tok0 = Some "|"%char)
  /\ (st = ST_DEFER <->
      Py.last tok0 <> Some "*"%char /\ Py.last tok0 <> Some "|"%char)
  /\ tok0 = (q ++ marker_of st)%string.
Proof.
  unfold classify_id. destruct (Py.last tok0) as [c|] eqn:Hlast; [|discriminate].
  destruct (Ascii.eqb c "*"%char) eqn:Estar.
  - apply Ascii.eqb_eq in Estar. subst c. intros [= <- <-].
    repeat split; auto; try discriminate.
    + intros [H _]. congruence.
    + now apply last_drop_last.
  - destruct (Ascii.eqb c "|"%char) eqn:Ebar.
    + apply Ascii.eqb_eq in Ebar. subst c. intros [= <- <-].
      repeat split; auto; try discriminate.
      * intros [_ H]. congruence.
      * now apply last_drop_last.
    + apply Ascii.eqb_neq in Estar, Ebar. intros [= <- <-].
      repeat split; auto; try discriminate; try congruence.
      simpl. now rewrite append_empty.
Qed.

Lemma header_fields_inv (line q : string) (m : msg) :
  header_fields line = Ok (q, m) ->
  exists tok0 rest st size sender,
    Py.split line = tok0 :: rest
    /\ classify_id tok0 = Ok (q, st)
    /\ nth_error (Py.split line) 1 = Some size
    /\ nth_error (rev (Py.split line)) 0 = Some sender
    /\ m = [ ("size", VStr size);
             ("rawdate", VStr (Py.join " " (Py.slice 2 6 (Py.split line))));
             ("sender", VStr sender);
             ("status", VStr st) ].
Proof.
  unfold header_fields. cbv zeta.
  destruct (nth_error (Py.split line) 0) as [tok0|] eqn:E0; cbn [of_option bind];
    [|intros H; discriminate H].
  destruct (classify_id tok0) as [[q' st]|] eqn:Ec; cbn [bind];
    [|intros H; discriminate H].
  destruct (nth_error (Py.split line) 1) as [size|] eqn:E1; cbn [of_option bind];
    [|intros H; discriminate H].
  destruct (nth_error (rev (Py.split line)) 0) as [sender|] eqn:E2;
    cbn [of_option bind]; [|intros H; discriminate H].
  cbn [fst snd]. intros [= <- <-].
  destruct (Py.split line) as [|t rest] eqn:Es; [discriminate E0|].
  cbn [nth_error] in E0. injection E0 as ->.
  exists tok0, rest, st, size, sender. repeat split; auto.
Qed.

Lemma header_entry_inv (line : string) (entry : string * msg) :
  header_entry line = Some entry ->
  is_hex_line line = true /\ header_fields line = Ok entry.
Proof.
  unfold header_entry. destruct (is_hex_line line); [|discriminate].
  destruct (header_fields line); [|discriminate]. intros [= ->]. auto.
Qed.

(** ** One step of the parser *)

Lemma od_set_same_value {V : Type} (k : string) (v : V) (d : dict V) :
  od_get k d = Some v -> od_set k v d = d.
Proof.
  induction d as [|[k' v'] d IH]; simpl; [discriminate|].
  destruct (String.eqb k k') eqn:E.
  - intros [= ->]. reflexivity.
  - intros H. now rewrite IH.
Qed.

Lemma summary_od_set (k : string) (m : msg) (d : dict msg) :
  summary (od_set k m d) = od_set k (od_get "status" m) (summary d).
Proof.
  induction d as [|[k' m'] d IH]; simpl; [reflexivity|].
  destruct (String.eqb k k'); simpl; [reflexivity | now rewrite IH].
Qed.

Lemma summary_get (k : string) (d : dict msg) :
  od_get k (summary d) = option_map (od_get "status") (od_get k d).
Proof.
  induction d as [|[k' m'] d IH]; simpl; [reflexivity|].
  destruct (String.eqb k k'); simpl; auto.
Qed.

Lemma keys_summary (d : dict msg) : keys (summary d) = keys d.
Proof. unfold keys, summary. rewrite map_map. reflexivity. Qed.

Lemma summary_store_field (k : string) (v : pyval) (d : dict msg) :
  summary (store_field k "recipients" v d) = summary d.
Proof.
  unfold store_field. destruct (od_get k d) as [m|] eqn:E; [|reflexivity].
  rewrite summary_od_set. apply od_set_same_value.
  rewrite summary_get, E. simpl. f_equal.
  symmetry. now apply od_get_set_other.
Qed.

Lemma do_append_inv (l l1 : locals) :
  do_append l = Ok l1 ->
  summary (msgs l1) = summary (msgs l) /\ state l1 = state l
  /\ cur_msg l1 = cur_msg l /\ addresses l1 = addresses l
  /\ recipients l1 <> None.
Proof.
  unfold do_append. destruct (recipients l); [|discriminate].
  destruct (addresses l); [|discriminate].
  intros [= <-]. simpl. repeat split; try discriminate.
  destruct (linked l); [|reflexivity].
  destruct (cur_msg l); [|reflexivity]. apply summary_store_field.
Qed.

Lemma do_link_inv (l l1 : locals) :
  do_link l = Ok l1 ->
  summary (msgs l1) = summary (msgs l) /\ state l1 = state l
  /\ cur_msg l1 = cur_msg l /\ addresses l1 = addresses l
  /\ recipients l1 = recipients l.
Proof.
  unfold do_link. destruct (recipients l); [|discriminate].
  destruct (cur_msg l); [|discriminate].
  intros [= <-]. simpl. repeat split. apply summary_store_field.
Qed.

Lemma store_field_nil (k f : string) (v : pyval) : store_field k f v [] = [].
Proof. reflexivity. Qed.

Lemma step_header_inv (l l' : locals) (line : string) :
  step_header l line = Continue l' ->
  exists q m,
    header_fields line = Ok (q, m)
    /\ summary (msgs l') = od_set q (od_get "status" m) (summary (msgs l))
    /\ od_get q (msgs l') = Some m
    /\ cur_msg l' = Some q /\ addresses l' = Some [] /\ recipients l' = Some []
    /\ (state l' = MQ_STATE_RCPT \/ state l' = MQ_STATE_REASON).
Proof.
  unfold step_header, lift.
  destruct (if mq_state_eqb (state l) MQ_STATE_RCPT then do_link l else Ok l)
    as [l1|] eqn:E1; [|discriminate].
  assert (Hs : summary (msgs l1) = summary (msgs l)).
  { destruct (mq_state_eqb (state l) MQ_STATE_RCPT).
    - now apply do_link_inv in E1.
    - now injection E1 as ->. }
  destruct (header_fields line) as [[q m]|] eqn:Eh; [|discriminate].
  intros [= <-]. exists q, m. simpl.
  rewrite summary_od_set, Hs, od_get_set_same.
  repeat split; auto.
  destruct (String.eqb _ ST_ACTIVE); auto.
Qed.

(** Apart from a header, no line changes which records are registered or
    their status; a header registers its record; and only the sentinel makes
    the parser return. *)
Lemma step_spec (l : locals) (line : string) :
  match step l line with
  | Continue l' =>
      String.eqb (Py.lower line) MAILQ_EMPTY = false
      /\ summary (msgs l') = register (summary (msgs l)) line
  | Return r =>
      String.eqb (Py.lower line) MAILQ_EMPTY = true /\ r = msgs l
  | Throw _ => True
  end.
Proof.
  destruct (mq_state_eqb (state l) MQ_STATE_DONE) eqn:Edone.
  { unfold step. rewrite Edone. exact I. }
  destruct (is_hex_line line) eqn:Ehex.
  { rewrite hex_dispatch by (auto; intros H; rewrite H in Edone; discriminate).
    destruct (step_header l line) as [l'| |] eqn:Es; auto.
    - apply step_header_inv in Es as (q & m & Hf & Hs & _).
      split.
      + destruct (String.eqb (Py.lower line) MAILQ_EMPTY) eqn:E; [|reflexivity].
        apply sentinel_not_hex in E. congruence.
      + unfold register, header_entry. now rewrite Ehex, Hf.
    - unfold step_header, lift in Es.
      destruct (if mq_state_eqb (state l) MQ_STATE_RCPT then do_link l else Ok l);
        [|discriminate].
      destruct (header_fields line) as [[? ?]|]; discriminate. }
  assert (Hreg : forall acc, register acc line = acc).
  { intros acc. unfold register, header_entry. now rewrite Ehex. }
  unfold step. rewrite Edone, Ehex.
  destruct (Py.is_empty line || String.eqb (Py.take 10 line) "-Queue ID-")%bool
    eqn:Eblank.
  { apply banner_not_sentinel in Eblank.
    destruct (mq_state_eqb (state l) MQ_STATE_RCPT).
    - unfold lift. destruct (do_append l) as [l1|] eqn:Ea; simpl; [|exact I].
      destruct (do_link l1) as [l2|] eqn:El; [|exact I].
      apply do_append_inv in Ea as [Ha _]. apply do_link_inv in El as [Hl _].
      simpl. rewrite Hreg. split; [assumption | congruence].
    - rewrite Hreg. auto. }
  destruct (String.eqb (Py.lower line) MAILQ_EMPTY) eqn:Esent.
  { destruct (negb (mq_state_eqb (state l) MQ_STATE_HDR)); simpl; auto. }
  destruct (String.eqb (Py.take 2 line) "--").
  { destruct (negb (mq_state_eqb (state l) MQ_STATE_REASON)
              && negb (mq_state_eqb (state l) MQ_STATE_MSG_DATA))%bool;
      simpl; rewrite ?Hreg; auto. }
  destruct (Py.first (Py.lstrip_spaces line)) as [c|]; [|exact I].
  destruct (Ascii.eqb c "("%char).
  { unfold step_reason.
    destruct (negb (mq_state_eqb (state l) MQ_STATE_REASON)
              && negb (mq_state_eqb (state l) MQ_STATE_RCPT))%bool; [exact I|].
    unfold lift.
    destruct (mq_state_eqb (state l) MQ_STATE_RCPT).
    - destruct (do_append l) as [l1|] eqn:Ea; [|exact I].
      apply do_append_inv in Ea as [Ha _]. simpl. rewrite Hreg. auto.
    - simpl. rewrite Hreg. auto. }
  destruct (Py.contains "@"%char line); [|exact I].
  unfold step_address.
  destruct (negb (mq_state_eqb (state l) MQ_STATE_RCPT)); [exact I|].
  destruct (addresses l); [|exact I]. simpl. rewrite Hreg. auto.
Qed.

(** ** The whole loop *)

Lemma run_spec (lines : list string) :
  forall l,
    match run l lines with
    | Continue l' =>
        before_sentinel lines = lines
        /\ summary (msgs l') = fold_left register lines (summary (msgs l))
    | Return r =>
        summary r = fold_left register (before_sentinel lines) (summary (msgs l))
    | Throw _ => True
    end.
Proof.
  induction lines as [|line rest IH]; intros l; simpl; [auto|].
  pose proof (step_spec l line) as Hs.
  destruct (step l line) as [l1|r|e]; [| |exact I].
  - destruct Hs as [Hsent Hsum]. rewrite Hsent.
    specialize (IH l1). rewrite Hsum in IH.
    destruct (run l1 rest) as [l2|r|e]; simpl; auto.
    destruct IH as [Hb Hf]. split; [now rewrite Hb | assumption].
  - destruct Hs as [Hsent ->]. rewrite Hsent. reflexivity.
Qed.

Lemma parse_lines_summary (lines : list string) (result : dict msg) :
  parse_lines lines = Ok result ->
  summary result = fold_left register (before_sentinel lines) [].
Proof.
  unfold parse_lines. pose proof (run_spec lines init_locals) as H.
  destruct (run init_locals lines) as [l|r|e]; intros [= <-].
  - destruct H as [-> H]. exact H.
  - exact H.
Qed.

Lemma before_sentinel_incl (lines : list string) (line : string) :
  In line (before_sentinel lines) -> In line lines.
Proof.
  induction lines as [|x rest IH]; simpl; [auto|].
  destruct (String.eqb (Py.lower x) MAILQ_EMPTY); simpl; [tauto|].
  intros [H|H]; auto.
Qed.

(** ** Order of the registered keys *)

Lemma existsb_filter_ne (x a : string) (l : list string) :
  String.eqb x a = false ->
  existsb (String.eqb x) (filter (fun y => negb (String.eqb y a)) l)
  = existsb (String.eqb x) l.
Proof.
  intros Hne. induction l as [|y l IH]; simpl; [reflexivity|].
  destruct (String.eqb y a) eqn:E; simpl.
  - apply String.eqb_eq in E. subst y. now rewrite Hne.
  - now rewrite IH.
Qed.

Lemma existsb_first_occurrences (x : string) (l : list string) :
  existsb (String.eqb x) (first_occurrences l) = existsb (String.eqb x) l.
Proof.
  induction l as [|a l IH]; simpl; [reflexivity|].
  destruct (String.eqb x a) eqn:E; simpl; [reflexivity|].
  now rewrite existsb_filter_ne.
Qed.

Lemma filter_ne_absent (a : string) (l : list string) :
  existsb (String.eqb a) l = false ->
  filter (fun y => negb (String.eqb y a)) l = l.
Proof.
  induction l as [|y l IH]; simpl; [reflexivity|].
  rewrite (String.eqb_sym a y).
  destruct (String.eqb y a); simpl; [discriminate|]. intros H. now rewrite IH.
Qed.

Lemma first_occurrences_snoc (l : list string) (x : string) :
  first_occurrences (l ++ [x])
  = if existsb (String.eqb x) l then first_occurrences l
    else first_occurrences l ++ [x].
Proof.
  induction l as [|a l IH]; simpl; [reflexivity|].
  rewrite IH. destruct (String.eqb x a) eqn:E; simpl.
  - apply String.eqb_eq in E. subst a.
    destruct (existsb (String.eqb x) l); [reflexivity|].
    rewrite filter_app. simpl. rewrite String.eqb_refl. simpl.
    now rewrite app_nil_r.
  - destruct (existsb (String.eqb x) l); [reflexivity|].
    rewrite filter_app. simpl. rewrite E. reflexivity.
Qed.

Lemma od_mem_keys {V : Type} (k : string) (d : dict V) :
  od_mem k d = existsb (String.eqb k) (keys d).
Proof.
  unfold od_mem. induction d as [|[k' v] d IH]; simpl; [reflexivity|].
  destruct (String.eqb k k'); simpl; auto.
Qed.

Lemma header_ids_snoc (lines : list string) (line : string) :
  header_ids (lines ++ [line])
  = header_ids lines ++ match header_entry line with
                        | Some entry => [fst entry]
                        | None => []
                        end.
Proof. unfold header_ids. rewrite flat_map_app. simpl. now rewrite app_nil_r. Qed.

Lemma keys_fold_register (lines : list string) :
  keys (fold_left register lines []) = first_occurrences (header_ids lines).
Proof.
  induction lines as [|line lines IH] using rev_ind; [reflexivity|].
  rewrite fold_left_app, header_ids_snoc. simpl. unfold register at 1.
  destruct (header_entry line) as [[q m]|].
  - simpl fst. simpl snd. rewrite keys_od_set, od_mem_keys, IH.
    rewrite first_occurrences_snoc, existsb_first_occurrences. reflexivity.
  - now rewrite app_nil_r.
Qed.

Lemma in_od_set {V : Type} (k k' : string) (v v' : V) (d : dict V) :
  In (k, v) (od_set k' v' d) -> (k, v) = (k', v') \/ In (k, v) d.
Proof.
  induction d as [|[k2 v2] d IH]; simpl.
  - intros [H|[]]. left. now symmetry.
  - destruct (String.eqb k' k2) eqn:E; simpl.
    + apply String.eqb_eq in E. subst k2. intros [H|H]; [left; now symmetry | auto].
    + intros [H|H]; [auto|]. apply IH in H. tauto.
Qed.

Lemma in_fold_register (lines : list string) :
  forall acc q st,
    In (q, st) (fold_left register lines acc) ->
    In (q, st) acc
    \/ exists line m,
         In line lines /\ header_entry line = Some (q, m)
         /\ od_get "status" m = st.
Proof.
  induction lines as [|line lines IH]; intros acc q st; simpl; [auto|].
  intros H. apply IH in H as [H|(line' & m & Hin & He & Hst)].
  - unfold register in H. destruct (header_entry line) as [[q' m']|] eqn:E; auto.
    apply in_od_set in H as [H|H]; auto.
    simpl in H. injection H as -> ->. right. exists line, m'. auto.
  - right. exists line', m. auto.
Qed.

(** ** The invariant of the locals *)

Lemma mq_state_eqb_eq (a b : mq_state) : mq_state_eqb a b = true <-> a = b.
Proof. destruct a, b; simpl; split; intros H; congruence. Qed.

Lemma mq_state_eqb_neq (a b : mq_state) : mq_state_eqb a b = false <-> a <> b.
Proof. destruct a, b; simpl; split; intros H; congruence. Qed.

Lemma bound_ext (l l' : locals) :
  bound l -> cur_msg l' = cur_msg l -> addresses l' <> None ->
  recipients l' <> None -> bound l'.
Proof.
  intros (k & a & rs & Hk & Ha & Hr) Ek Ea Er.
  destruct (addresses l') as [a'|] eqn:Ea'; [|congruence].
  destruct (recipients l') as [rs'|] eqn:Er'; [|congruence].
  exists k, a', rs'. repeat split; congruence.
Qed.

Lemma locals_ok_init : locals_ok init_locals.
Proof. split; [reflexivity | intros H; now contradiction H]. Qed.

Lemma locals_ok_after_header (l : locals) :
  state l <> MQ_STATE_HDR -> bound l -> locals_ok l.
Proof. intros Hs Hb. split; [intros H; contradiction | auto]. Qed.

Lemma step_locals_ok (l l' : locals) (line : string) :
  locals_ok l -> step l line = Continue l' -> locals_ok l'.
Proof.
  intros [Hhdr Hbound].
  destruct (mq_state_eqb (state l) MQ_STATE_DONE) eqn:Edone.
  { unfold step. rewrite Edone. discriminate. }
  destruct (is_hex_line line) eqn:Ehex.
  { rewrite hex_dispatch by (auto; intros H; rewrite H in Edone; discriminate).
    intros Hs. apply step_header_inv in Hs as (q & m & _ & _ & _ & Hk & Ha & Hr & Hst).
    apply locals_ok_after_header.
    - destruct Hst as [-> | ->]; discriminate.
    - now exists q, [], []. }
  unfold step. rewrite Edone, Ehex.
  destruct (Py.is_empty line || String.eqb (Py.take 10 line) "-Queue ID-")%bool.
  { destruct (mq_state_eqb (state l) MQ_STATE_RCPT) eqn:Er.
    - apply mq_state_eqb_eq in Er. unfold lift.
      destruct (do_append l) as [l1|] eqn:Ea; simpl; [|discriminate].
      destruct (do_link l1) as [l2|] eqn:El; [|discriminate].
      intros [= <-].
      apply do_append_inv in Ea as (_ & _ & Hk1 & Ha1 & Hr1).
      apply do_link_inv in El as (_ & _ & Hk2 & Ha2 & Hr2).
      apply locals_ok_after_header; [discriminate|].
      assert (Hb : bound l) by (apply Hbound; rewrite Er; discriminate).
      apply (bound_ext l); simpl; try congruence.
      destruct Hb as (k & a & rs & _ & Ha & _). congruence.
    - intros [= <-]. now split. }
  destruct (String.eqb (Py.lower line) MAILQ_EMPTY).
  { destruct (negb (mq_state_eqb (state l) MQ_STATE_HDR)); discriminate. }
  destruct (String.eqb (Py.take 2 line) "--").
  { destruct (mq_state_eqb (state l) MQ_STATE_REASON) eqn:E1;
      destruct (mq_state_eqb (state l) MQ_STATE_MSG_DATA) eqn:E2;
      simpl; try discriminate; intros [= <-];
      (apply locals_ok_after_header; [discriminate|]);
      (assert (Hb : bound l)
         by (apply Hbound; first [apply mq_state_eqb_eq in E1; rewrite E1
                                 |apply mq_state_eqb_eq in E2; rewrite E2];
             discriminate));
      exact Hb. }
  destruct (Py.first (Py.lstrip_spaces line)) as [c|]; [|discriminate].
  destruct (Ascii.eqb c "("%char).
  { unfold step_reason.
    destruct (mq_state_eqb (state l) MQ_STATE_REASON) eqn:E1;
      destruct (mq_state_eqb (state l) MQ_STATE_RCPT) eqn:E2;
      simpl; try discriminate; unfold lift.
    - apply mq_state_eqb_eq in E1, E2. congruence.
    - apply mq_state_eqb_eq in E1. intros [= <-].
      apply locals_ok_after_header; [discriminate|].
      assert (Hb : bound l) by (apply Hbound; rewrite E1; discriminate).
      apply (bound_ext l); simpl; auto; try discriminate.
      destruct Hb as (k & a & rs & _ & _ & Hr). congruence.
    - apply mq_state_eqb_eq in E2.
      destruct (do_append l) as [l1|] eqn:Ea; [|discriminate].
      intros [= <-].
      apply do_append_inv in Ea as (_ & _ & Hk1 & Ha1 & Hr1).
      apply locals_ok_after_header; [discriminate|].
      assert (Hb : bound l) by (apply Hbound; rewrite E2; discriminate).
      apply (bound_ext l); simpl; auto; discriminate. }
  destruct (Py.contains "@"%char line); [|discriminate].
  unfold step_address.
  destruct (mq_state_eqb (state l) MQ_STATE_RCPT) eqn:E2; simpl; [|discriminate].
  apply mq_state_eqb_eq in E2.
  assert (Hb : bound l) by (apply Hbound; rewrite E2; discriminate).
  destruct (addresses l) as [a|] eqn:Ea; [|discriminate].
  intros [= <-].
  apply locals_ok_after_header; [simpl; rewrite E2; discriminate|].
  apply (bound_ext l); simpl; auto; try discriminate.
  destruct Hb as (k & a' & rs & _ & _ & Hr). congruence.
Qed.

Lemma run_locals_ok (lines : list string) :
  forall l l', locals_ok l -> run l lines = Continue l' -> locals_ok l'.
Proof.
  induction lines as [|line rest IH]; intros l l' Hok; simpl.
  - now intros [= <-].
  - destruct (step l line) as [l1|r|e] eqn:Es; try discriminate.
    apply IH. now apply (step_locals_ok l l1 line).
Qed.

(** ** The exceptions of the parser *)

Lemma do_append_bound (l : locals) : bound l -> exists l1, do_append l = Ok l1.
Proof.
  intros (k & a & rs & Hk & Ha & Hr). unfold do_append. rewrite Hr, Ha. eauto.
Qed.

Lemma do_link_bound (l : locals) : bound l -> exists l1, do_link l = Ok l1.
Proof.
  intros (k & a & rs & Hk & Ha & Hr). unfold do_link. rewrite Hr, Hk. eauto.
Qed.

Lemma do_append_keeps_bound (l l1 : locals) :
  bound l -> do_append l = Ok l1 -> bound l1.
Proof.
  intros Hb H. apply do_append_inv in H as (_ & _ & Hk & Ha & Hr).
  apply (bound_ext l); auto.
  destruct Hb as (k & a & rs & _ & Ha' & _). congruence.
Qed.

Lemma header_fields_raises (line : string) (e : exn) :
  header_fields line = Raise e -> e = IndexError.
Proof.
  unfold header_fields. cbv zeta.
  destruct (nth_error (Py.split line) 0) as [tok0|]; cbn [of_option bind];
    [|now intros [= <-]].
  unfold classify_id.
  destruct (Py.last tok0) as [c|]; [|now intros [= <-]].
  destruct (Ascii.eqb c "*"%char); [|destruct (Ascii.eqb c "|"%char)];
    cbn [bind];
    (destruct (nth_error (Py.split line) 1); cbn [of_option bind];
     [|now intros [= <-]]);
    (destruct (nth_error (rev (Py.split line)) 0); cbn [of_option bind];
     [discriminate | now intros [= <-]]).
Qed.

(** The names that would be unbound or [None] are never read: the only
    exceptions a line can cause are the parser's own [sys.exit(1)] and an
    [IndexError] (a header with a single token, a line of spaces only). *)
Lemma step_raises (l : locals) (line : string) (e : exn) :
  locals_ok l -> step l line = Throw e ->
  (exists m, e = SystemExit 1 m) \/ e = IndexError.
Proof.
  intros [_ Hbound].
  assert (Hquit : forall m, _quit m = Throw e ->
                            (exists m', e = SystemExit 1 m') \/ e = IndexError).
  { intros m [= <-]. left. now exists m. }
  destruct (mq_state_eqb (state l) MQ_STATE_DONE) eqn:Edone.
  { unfold step. rewrite Edone. apply Hquit. }
  destruct (is_hex_line line) eqn:Ehex.
  { rewrite hex_dispatch by (auto; intros H; rewrite H in Edone; discriminate).
    unfold step_header, lift.
    destruct (mq_state_eqb (state l) MQ_STATE_RCPT) eqn:Er.
    - apply mq_state_eqb_eq in Er.
      destruct (do_link_bound l) as [l1 ->]; [apply Hbound; rewrite Er; discriminate|].
      destruct (header_fields line) as [[q m]|e'] eqn:Ef; [discriminate|].
      intros [= <-]. right. now apply (header_fields_raises line).
    - destruct (header_fields line) as [[q m]|e'] eqn:Ef; [discriminate|].
      intros [= <-]. right. now apply (header_fields_raises line). }
  unfold step. rewrite Edone, Ehex.
  destruct (Py.is_empty line || String.eqb (Py.take 10 line) "-Queue ID-")%bool.
  { destruct (mq_state_eqb (state l) MQ_STATE_RCPT) eqn:Er; [|discriminate].
    apply mq_state_eqb_eq in Er.
    assert (Hb : bound l) by (apply Hbound; rewrite Er; discriminate).
    destruct (do_append_bound l Hb) as [l1 Ha]. rewrite Ha. cbn [bind].
    destruct (do_link_bound l1 (do_append_keeps_bound l l1 Hb Ha)) as [l2 ->].
    discriminate. }
  destruct (String.eqb (Py.lower line) MAILQ_EMPTY).
  { destruct (negb (mq_state_eqb (state l) MQ_STATE_HDR)); [apply Hquit | discriminate]. }
  destruct (String.eqb (Py.take 2 line) "--").
  { destruct (negb (mq_state_eqb (state l) MQ_STATE_REASON)
              && negb (mq_state_eqb (state l) MQ_STATE_MSG_DATA))%bool;
      [apply Hquit | discriminate]. }
  destruct (Py.first (Py.lstrip_spaces line)) as [c|]; [|intros [= <-]; now right].
  destruct (Ascii.eqb c "("%char).
  { unfold step_reason.
    destruct (negb (mq_state_eqb (state l) MQ_STATE_REASON)
              && negb (mq_state_eqb (state l) MQ_STATE_RCPT))%bool;
      [apply Hquit|].
    unfold lift.
    destruct (mq_state_eqb (state l) MQ_STATE_RCPT) eqn:Er; [|discriminate].
    apply mq_state_eqb_eq in Er.
    destruct (do_append_bound l) as [l1 ->];
      [apply Hbound; rewrite Er; discriminate | discriminate]. }
  destruct (Py.contains "@"%char line); [|apply Hquit].
  unfold step_address.
  destruct (negb (mq_state_eqb (state l) MQ_STATE_RCPT)) eqn:Er; [apply Hquit|].
  apply negb_false_iff, mq_state_eqb_eq in Er.
  destruct (Hbound) as (k & a & rs & _ & -> & _); [rewrite Er; discriminate|].
  discriminate.
Qed.

Lemma run_raises (lines : list string) :
  forall l e,
    locals_ok l -> run l lines = Throw e ->
    (exists m, e = SystemExit 1 m) \/ e = IndexError.
Proof.
  induction lines as [|line rest IH]; intros l e Hok; simpl; [discriminate|].
  destruct (step l line) as [l1|r|e'] eqn:Es.
  - apply IH. now apply (step_locals_ok l l1 line).
  - discriminate.
  - intros [= <-]. now apply (step_raises l line).
Qed.

Lemma parse_lines_raises (lines : list string) (e : exn) :
  parse_lines lines = Raise e ->
  (exists m, e = SystemExit 1 m) \/ e = IndexError.
Proof.
  unfold parse_lines.
  destruct (run init_locals lines) as [l|r|e'] eqn:Er; try discriminate.
  intros [= <-]. now apply (run_raises lines init_locals e' locals_ok_init).
Qed.

(** ** Tokens *)

Lemma split_go_nonempty (s : string) :
  forall tok, Forall (fun t => Py.is_empty t = false) (Py.split_go tok s).
Proof.
  induction s as [|c s IH]; intros tok; simpl.
  - destruct (Py.is_empty tok) eqn:E; auto.
  - destruct (Py.isspace c).
    + destruct (Py.is_empty tok) eqn:E; auto.
    + apply IH.
Qed.

Lemma last_of_nonempty (t : string) : Py.is_empty t = false -> Py.last t <> None.
Proof. intros H. apply last_nonempty. unfold Py.truthy. now rewrite H. Qed.

Lemma rev_head_last {A : Type} (l : list A) (d : A) :
  l <> [] -> nth_error (rev l) 0 = Some (List.last l d).
Proof.
  induction l as [|a l IH]; [congruence|]. intros _.
  destruct l as [|b l']; [reflexivity|].
  change (rev (a :: b :: l')) with (rev (b :: l') ++ [a]).
  assert (Hne : b :: l' <> []) by discriminate.
  specialize (IH Hne).
  destruct (rev (b :: l')) as [|x xs] eqn:E; [discriminate IH|].
  exact IH.
Qed.

Lemma header_fields_total (line t0 t1 : string) (rest : list string) :
  Py.split line = t0 :: t1 :: rest ->
  exists q st,
    classify_id t0 = Ok (q, st)
    /\ header_fields line
       = Ok (q, [ ("size", VStr t1);
                  ("rawdate", VStr (Py.join " " (Py.slice 2 6 (t0 :: t1 :: rest))));
                  ("sender", VStr (List.last (t0 :: t1 :: rest) EmptyString));
                  ("status", VStr st) ]).
Proof.
  intros Hs.
  assert (Hne : Py.last t0 <> None).
  { apply last_of_nonempty.
    pose proof (split_go_nonempty line EmptyString) as H.
    fold (Py.split line) in H. rewrite Hs in H. now inversion H. }
  assert (Hc : exists q st, classify_id t0 = Ok (q, st)).
  { unfold classify_id. destruct (Py.last t0) as [c|]; [|congruence].
    destruct (Ascii.eqb c "*"%char); [eauto|].
    destruct (Ascii.eqb c "|"%char); eauto. }
  destruct Hc as (q & st & Hc). exists q, st. split; [assumption|].
  unfold header_fields. cbv zeta.
  rewrite (rev_head_last (Py.split line) EmptyString) by (rewrite Hs; discriminate).
  rewrite Hs. cbn [nth_error of_option bind]. rewrite Hc.
  reflexivity.
Qed.

(** ** The claims on the parser *)

(** C1 (the code departs from the claim).  A header line read in state
    CollectingRecipients stores the list of groups closed so far on the
    previous record, but does not close the pending group first: the
    addresses collected since the last reason or header are dropped.  With a
    blank line between the two records the same address is kept. *)
Theorem C1_header_drops_pending_group :
  parse_lines [ "A1* 10 Mon Jan 5 10:00:00 s@x"; "  r@y";
                "B2* 10 Mon Jan 5 10:00:01 s@x"; EmptyString;
                "-- 0 Kbytes in 2 Requests." ]
  = Ok [ ("A1", [ ("size", VStr "10"); ("rawdate", VStr "Mon Jan 5 10:00:00");
                  ("sender", VStr "s@x"); ("status", VStr "active");
                  ("recipients", VRecipients []) ]);
         ("B2", [ ("size", VStr "10"); ("rawdate", VStr "Mon Jan 5 10:00:01");
                  ("sender", VStr "s@x"); ("status", VStr "active");
                  ("recipients", VRecipients []) ]) ]
  /\ parse_lines [ "A1* 10 Mon Jan 5 10:00:00 s@x"; "  r@y"; EmptyString;
                   "B2* 10 Mon Jan 5 10:00:01 s@x"; EmptyString;
                   "-- 0 Kbytes in 2 Requests." ]
     = Ok [ ("A1", [ ("size", VStr "10"); ("rawdate", VStr "Mon Jan 5 10:00:00");
                     ("sender", VStr "s@x"); ("status", VStr "active");
                     ("recipients",
                      VRecipients [ {| r_addresses := ["r@y"];
                                       r_reason := None |} ]) ]);
            ("B2", [ ("size", VStr "10"); ("rawdate", VStr "Mon Jan 5 10:00:01");
                     ("sender", VStr "s@x"); ("status", VStr "active");
                     ("recipients", VRecipients []) ]) ].
Proof. split; reflexivity. Qed.

(** The same for every state the parser can be in: whatever addresses are
    pending, the previous record gets exactly the groups closed so far. *)
Lemma header_in_rcpt_stores_closed_groups (l l' : locals) (line k : string)
    (rs : list recipient) (m : msg) :
  state l = MQ_STATE_RCPT -> cur_msg l = Some k -> recipients l = Some rs ->
  od_get k (msgs l) = Some m ->
  step_header l line = Continue l' ->
  od_get k (msgs l') = Some (od_set "recipients" (VRecipients rs) m)
  \/ exists m', header_fields line = Ok (k, m').
Proof.
  intros Hst Hk Hr Hm. unfold step_header, lift, do_link.
  rewrite Hst, Hr, Hk. simpl mq_state_eqb. cbv iota.
  destruct (header_fields line) as [[q m']|]; [|discriminate].
  intros [= <-]. simpl msgs.
  destruct (String.eqb k q) eqn:E.
  - apply String.eqb_eq in E. subst q. right. now exists m'.
  - left. rewrite od_get_set_other by assumption.
    unfold store_field. rewrite Hm. apply od_get_set_same.
Qed.

(** C2, as the claim states it, fails on the code: the empty input ends in
    state Header and is a success with no record; end of input in
    CollectingRecipients leaves the open group off its record; and the
    record of a lone Active header has no recipients entry. *)
Lemma C2_counterexample :
  parse_lines [] = Ok []
  /\ parse_mq "-Queue ID- --Size-- ----Arrival Time---- -Sender/Recipient-------"
     = Ok []
  /\ parse_lines [ "B2 10 Mon Jan 5 10:00:01 s@x"; "(timeout)"; " r@y" ]
     = Ok [ ("B2", [ ("size", VStr "10"); ("rawdate", VStr "Mon Jan 5 10:00:01");
                     ("sender", VStr "s@x"); ("status", VStr "deferred") ]) ]
  /\ parse_lines [ "ABC123* 1024 Jan 5 10:00:00 user@example.com" ]
     = Ok [ ("ABC123", [ ("size", VStr "1024");
                         ("rawdate", VStr "Jan 5 10:00:00 user@example.com");
                         ("sender", VStr "user@example.com");
                         ("status", VStr "active") ]) ].
Proof. repeat split; reflexivity. Qed.

(** C2, amended.  When the parser has read every line without a fatal error
    and without returning at the sentinel, end of input is a success in
    every state, Header included, and the result is the collection of the
    records registered so far (none in Header).  An input that is a single
    Active header line yields exactly one record, Active, whose sender is
    the last token of the line. *)
Theorem C2_end_of_input_is_success (lines : list string) (l : locals) :
  run init_locals lines = Continue l ->
  parse_lines lines = Ok (msgs l)
  /\ (state l = MQ_STATE_HDR -> parse_lines lines = Ok [])
  /\ (forall line tok0 rest,
        lines = [line] -> is_hex_line line = true ->
        Py.split line = tok0 :: rest -> Py.last tok0 = Some "*"%char ->
        exists m,
          parse_lines lines = Ok [(Py.drop_last tok0, m)]
          /\ od_get "status" m = Some (VStr ST_ACTIVE)
          /\ od_get "sender" m
             = Some (VStr (List.last (tok0 :: rest) EmptyString))).
Proof.
  intros Hrun.
  assert (Hparse : parse_lines lines = Ok (msgs l))
    by (unfold parse_lines; now rewrite Hrun).
  split; [assumption|]. split.
  - intros Hst. rewrite Hparse. f_equal.
    now apply (run_locals_ok lines init_locals l locals_ok_init Hrun).
  - intros line tok0 rest -> Hhex Hsplit Hlast.
    rewrite Hparse. simpl in Hrun.
    rewrite hex_dispatch in Hrun by (auto; discriminate).
    unfold step_header, lift in Hrun. simpl in Hrun.
    destruct (header_fields line) as [[q m]|] eqn:Hf; [|discriminate].
    injection Hrun as <-. simpl msgs.
    apply header_fields_inv in Hf
      as (t0 & r0 & st & size & sender & Hs' & Hc & _ & Hl & ->).
    rewrite Hsplit in Hs'. injection Hs' as <- <-.
    unfold classify_id in Hc. rewrite Hlast in Hc. simpl in Hc.
    injection Hc as <- <-.
    rewrite (rev_head_last (Py.split line) EmptyString) in Hl
      by (rewrite Hsplit; discriminate).
    rewrite Hsplit in Hl. injection Hl as <-.
    eexists. split; [reflexivity|]. split; reflexivity.
Qed.

Lemma C2_end_of_input_witness :
  parse_lines [ "ABC123* 1024 Jan 5 10:00:00 user@example.com" ]
  = Ok (msgs {| msgs := [ ("ABC123", [ ("size", VStr "1024");
                            ("rawdate", VStr "Jan 5 10:00:00 user@example.com");
                            ("sender", VStr "user@example.com");
                            ("status", VStr "active") ]) ];
                cur_msg := Some "ABC123"; addresses := Some [];
                reason := None; recipients := Some []; linked := false;
                state := MQ_STATE_RCPT |}).
Proof.
  exact (proj1 (C2_end_of_input_is_success
                  [ "ABC123* 1024 Jan 5 10:00:00 user@example.com" ] _ eq_refl)).
Defined.

(** C3.  Every record of a successful parse was registered by a header line
    of the input; its status is one of the three, it is Active exactly when
    the identifier token of that line ended with [*], Held exactly when it
    ended with [|], Deferred otherwise, and the key it is stored under is the
    identifier token without that marker. *)
Theorem C3_status_from_marker (lines : list string) (result : dict msg)
    (queue_id : string) (m : msg) :
  parse_lines lines = Ok result ->
  In (queue_id, m) result ->
  exists line tok0 rest st,
    In line lines /\ is_hex_line line = true
    /\ Py.split line = tok0 :: rest
    /\ od_get "status" m = Some (VStr st)
    /\ (st = ST_ACTIVE \/ st = ST_HELD \/ st = ST_DEFER)
    /\ (st = ST_ACTIVE <-> Py.last tok0 = Some "*"%char)
    /\ (st = ST_HELD <-> Py.last tok0 = Some "|"%char)
    /\ (st = ST_DEFER <->
        Py.last tok0 <> Some "*"%char /\ Py.last tok0 <> Some "|"%char)
    /\ tok0 = (queue_id ++ marker_of st)%string.
Proof.
  intros Hparse Hin.
  apply parse_lines_summary in Hparse.
  assert (Hs : In (queue_id, od_get "status" m) (summary result)).
  { unfold summary.
    change (queue_id, od_get "status" m)
      with ((fun kv : string * msg => (fst kv, od_get "status" (snd kv)))
              (queue_id, m)).
    now apply in_map. }
  rewrite Hparse in Hs.
  apply in_fold_register in Hs as [[]|(line & m0 & Hline & He & Hst)].
  apply before_sentinel_incl in Hline.
  apply header_entry_inv in He as [Hhex Hf].
  apply header_fields_inv in Hf
    as (tok0 & rest & st & size & sender & Hsplit & Hc & _ & _ & ->).
  simpl in Hst.
  apply classify_id_spec in Hc as (H1 & H2 & H3 & H4 & H5).
  exists line, tok0, rest, st. repeat split; auto; try tauto.
  all: try (apply H2); try (apply H3); try (apply H4); auto.
Qed.

Lemma C3_status_from_marker_witness :
  exists line tok0 rest st,
    In line listing_two /\ is_hex_line line = true
    /\ Py.split line = tok0 :: rest
    /\ od_get "status" rec_active = Some (VStr st)
    /\ (st = ST_ACTIVE \/ st = ST_HELD \/ st = ST_DEFER)
    /\ (st = ST_ACTIVE <-> Py.last tok0 = Some "*"%char)
    /\ (st = ST_HELD <-> Py.last tok0 = Some "|"%char)
    /\ (st = ST_DEFER <->
        Py.last tok0 <> Some "*"%char /\ Py.last tok0 <> Some "|"%char)
    /\ tok0 = ("A1" ++ marker_of st)%string.
Proof.
  apply (C3_status_from_marker listing_two
           [("A1", rec_active); ("B2", rec_deferred)] "A1" rec_active).
  - reflexivity.
  - simpl. left. reflexivity.
Defined.

(** ** The date normalizer *)

Lemma new_datetime_inv (y mo d h mi s : Z) (c : datetime) :
  new_datetime y mo d h mi s = Ok c ->
  c = {| year := y; month := mo; day := d;
         hour := h; minute := mi; second := s; microsecond := 0 |}.
Proof.
  unfold new_datetime.
  destruct (negb (forallb fits_c_int [y; mo; d; h; mi; s])); [discriminate|].
  destruct (in_range 1 9999 y && in_range 1 12 mo
            && in_range 1 (days_in_month y mo) d
            && in_range 0 23 h && in_range 0 59 mi && in_range 0 59 s)%bool;
    [|discriminate].
  now intros [= <-].
Qed.

Lemma build_date_inv (y : Z) (mon_str day_s hour_s minute_s second_s : string)
    (c : datetime) :
  build_date y mon_str day_s hour_s minute_s second_s = Ok c ->
  exists mo d h mi s,
    od_get mon_str MONTH_MAP = Some mo
    /\ Py.int day_s = Some d /\ Py.int hour_s = Some h
    /\ Py.int minute_s = Some mi /\ Py.int second_s = Some s
    /\ c = {| year := y; month := mo; day := d;
              hour := h; minute := mi; second := s; microsecond := 0 |}.
Proof.
  unfold build_date.
  destruct (od_get mon_str MONTH_MAP) as [mo|]; [|discriminate].
  destruct (Py.int day_s) as [d|]; [|discriminate].
  destruct (Py.int hour_s) as [h|]; [|discriminate].
  destruct (Py.int minute_s) as [mi|]; [|discriminate].
  destruct (Py.int second_s) as [s|]; [|discriminate].
  cbn [of_option bind]. intros H. apply new_datetime_inv in H.
  exists mo, d, h, mi, s. repeat split; auto.
Qed.

(** ** Order of datetimes *)

Lemma days_before_year_mono (y y' : Z) :
  y <= y' -> days_before_year y + 365 * (y' - y) <= days_before_year y'.
Proof.
  intros H. unfold days_before_year. cbv zeta.
  Z.div_mod_to_equations. lia.
Qed.

Lemma days_before_year_next (y : Z) :
  days_before_year (y + 1)
  = days_before_year y + 365 + (if is_leap y then 1 else 0).
Proof.
  unfold days_before_year, is_leap. cbv zeta.
  replace (y + 1 - 1) with y by lia.
  destruct (y mod 4 =? 0) eqn:E4; destruct (y mod 100 =? 0) eqn:E100;
    destruct (y mod 400 =? 0) eqn:E400; simpl;
    rewrite ?Z.eqb_eq, ?Z.eqb_neq in *;
    Z.div_mod_to_equations; lia.
Qed.

Lemma days_in_month_bounds (y m : Z) : 28 <= days_in_month y m <= 31.
Proof.
  unfold days_in_month.
  destruct (m =? 2); [destruct (is_leap y); lia|].
  destruct ((m =? 4) || (m =? 6) || (m =? 9) || (m =? 11))%bool; lia.
Qed.

Lemma days_before_month_mono (y m m' : Z) :
  1 <= m -> m < m' -> m' <= 12 ->
  days_before_month y m + days_in_month y m <= days_before_month y m'.
Proof.
  intros H1 H2 H3.
  month_cases m; month_cases m'; try lia;
    unfold days_before_month, days_in_month;
    destruct (is_leap y); vm_compute; intros Hc; discriminate Hc.
Qed.

Lemma days_in_year (y m : Z) :
  1 <= m <= 12 ->
  days_before_month y m + days_in_month y m
  <= 365 + (if is_leap y then 1 else 0).
Proof.
  intros H. month_cases m;
    unfold days_before_month, days_in_month;
    destruct (is_leap y); vm_compute; intros Hc; discriminate Hc.
Qed.

Lemma days_before_month_nonneg (y m : Z) : 1 <= m <= 12 -> 0 <= days_before_month y m.
Proof.
  intros H. month_cases m;
    unfold days_before_month, days_in_month;
    destruct (is_leap y); vm_compute; intros Hc; discriminate Hc.
Qed.

Lemma toordinal_lt (a b : datetime) :
  valid_dt a -> valid_dt b ->
  year a < year b
  \/ (year a = year b
      /\ (month a < month b \/ (month a = month b /\ day a < day b))) ->
  toordinal a < toordinal b.
Proof.
  intros (Hma & Hda & _) (Hmb & Hdb & _) H. unfold toordinal.
  destruct H as [Hy|[Hy [Hm|[Hm Hd]]]].
  - pose proof (days_before_year_mono (year a + 1) (year b) ltac:(lia)).
    pose proof (days_before_year_next (year a)).
    pose proof (days_in_year (year a) (month a) Hma).
    pose proof (days_before_month_nonneg (year b) (month b) Hmb).
    lia.
  - rewrite Hy in *.
    pose proof (days_before_month_mono (year b) (month a) (month b)
                  ltac:(lia) Hm ltac:(lia)).
    lia.
  - rewrite Hy, Hm in *. lia.
Qed.

Lemma naive_micros_lt (a b : datetime) :
  valid_dt a -> valid_dt b ->
  dt_gtb b a = true -> naive_micros a < naive_micros b.
Proof.
  intros Ha Hb. unfold dt_gtb, dt_fields, lex_gtb.
  pose proof (toordinal_lt a b Ha Hb) as Hord.
  assert (Heq : year a = year b -> month a = month b -> day a = day b ->
                toordinal a = toordinal b)
    by (unfold toordinal; intros -> -> ->; reflexivity).
  destruct Ha as (_ & _ & Hha & Hmia & Hsa & Husa).
  destruct Hb as (_ & _ & Hhb & Hmib & Hsb & Husb).
  unfold naive_micros, naive_seconds.
  repeat match goal with
         | |- context [?x =? ?y] => destruct (Z.eqb_spec x y)
         | |- context [?x <? ?y] => destruct (Z.ltb_spec x y)
         end; intros Hgt; try discriminate Hgt;
    try (specialize (Hord ltac:(lia)));
    try (specialize (Heq ltac:(lia) ltac:(lia) ltac:(lia)));
    lia.
Qed.

Lemma dt_gtb_total (a b : datetime) :
  dt_gtb a b = true \/ dt_gtb b a = true \/ dt_fields a = dt_fields b.
Proof.
  unfold dt_gtb, dt_fields, lex_gtb.
  repeat match goal with
         | |- context [?x =? ?y] => destruct (Z.eqb_spec x y)
         | |- context [?x <? ?y] => destruct (Z.ltb_spec x y)
         end; auto; try lia.
  right. right. congruence.
Qed.

(** The comparison of two datetimes is the order of the instants they name. *)
Lemma dt_gtb_chronological (a b : datetime) :
  valid_dt a -> valid_dt b ->
  (dt_gtb a b = true <-> naive_micros b < naive_micros a).
Proof.
  intros Ha Hb. split; [now apply naive_micros_lt|].
  intros Hlt. destruct (dt_gtb_total a b) as [H|[H|H]]; [assumption| |].
  - apply naive_micros_lt in H; auto. lia.
  - unfold dt_fields in H. injection H as Hy Hm Hd Hh Hmi Hs Hus.
    unfold naive_micros, naive_seconds, toordinal in Hlt.
    rewrite Hy, Hm, Hd, Hh, Hmi, Hs, Hus in Hlt. lia.
Qed.

Lemma new_datetime_valid (y mo d h mi s : Z) (c : datetime) :
  new_datetime y mo d h mi s = Ok c -> valid_dt c.
Proof.
  unfold new_datetime.
  destruct (negb (forallb fits_c_int [y; mo; d; h; mi; s])); [discriminate|].
  destruct (in_range 1 9999 y && in_range 1 12 mo
            && in_range 1 (days_in_month y mo) d
            && in_range 0 23 h && in_range 0 59 mi && in_range 0 59 s)%bool
    eqn:E; [|discriminate].
  intros [= <-]. unfold in_range in E.
  repeat (apply andb_prop in E as [E ?]).
  unfold valid_dt. simpl.
  repeat match goal with
         | H : (_ <=? _) = true |- _ => apply Z.leb_le in H
         end.
  lia.
Qed.

Lemma build_date_valid (y : Z) (mon_str day_s hour_s minute_s second_s : string)
    (c : datetime) :
  build_date y mon_str day_s hour_s minute_s second_s = Ok c -> valid_dt c.
Proof.
  unfold build_date.
  destruct (od_get mon_str MONTH_MAP) as [mo|]; [|discriminate].
  destruct (Py.int day_s) as [d|]; [|discriminate].
  destruct (Py.int hour_s) as [h|]; [|discriminate].
  destruct (Py.int minute_s) as [mi|]; [|discriminate].
  destruct (Py.int second_s) as [s|]; [|discriminate].
  cbn [of_option bind]. apply new_datetime_valid.
Qed.

(** C4, as the claim states it, fails on the code: a raw timestamp of three
    tokens (month, day, time) is refused, since the normalizer unpacks
    exactly four. *)
Lemma C4_counterexample :
  parse_mailq_date "Dec 31 23:59:59" (jan1 2026) = Raise ValueError.
Proof. reflexivity. Qed.

(** C4, amended.  For a raw timestamp of four tokens, the first of which is
    ignored (the day of the week) and the others are a month abbreviation, a
    day and hh:mm:ss, the candidate is built with the year of [now]; the
    test that it is after [now] is the order of the two instants; when the
    candidate is not after [now] it is the result; when it is strictly after
    [now] the result is the same call with the year before, and nothing
    else is tried. *)
Theorem C4_single_step_rollback
    (d wd mon_str day_s time_str hour_s minute_s second_s : string)
    (now c : datetime) :
  Py.split d = [wd; mon_str; day_s; time_str] ->
  Py.split_on ":"%char time_str = [hour_s; minute_s; second_s] ->
  build_date (year now) mon_str day_s hour_s minute_s second_s = Ok c ->
  year c = year now
  /\ (valid_dt now ->
      (dt_gtb c now = true <-> naive_micros now < naive_micros c))
  /\ (dt_gtb c now = false ->
      resolve_date d now = Ok c
      /\ parse_mailq_date d now = Ok (epoch_seconds c))
  /\ (dt_gtb c now = true ->
      resolve_date d now
      = build_date (year now - 1) mon_str day_s hour_s minute_s second_s
      /\ forall c',
           resolve_date d now = Ok c' ->
           c' = {| year := year now - 1; month := month c; day := day c;
                   hour := hour c; minute := minute c; second := second c;
                   microsecond := 0 |}
           /\ parse_mailq_date d now = Ok (epoch_seconds c')).
Proof.
  intros Hsplit Htime Hbuild.
  assert (Hres : resolve_date d now
                 = if dt_gtb c now
                   then build_date (year now - 1) mon_str day_s hour_s
                          minute_s second_s
                   else Ok c).
  { unfold resolve_date. rewrite Hsplit, Htime, Hbuild. reflexivity. }
  pose proof (build_date_inv _ _ _ _ _ _ _ Hbuild)
    as (mo & dd & h & mi & s & Hmo & Hd & Hh & Hmi & Hs & Hc).
  split; [subst c; reflexivity|]. split; [|split].
  - intros Hnow. apply dt_gtb_chronological; [|assumption].
    now apply (build_date_valid _ _ _ _ _ _ _ Hbuild).
  - intros Hgt. rewrite Hgt in Hres. split; [assumption|].
    unfold parse_mailq_date. now rewrite Hres.
  - intros Hgt. rewrite Hgt in Hres. split; [assumption|].
    intros c' Hc'. split.
    + rewrite Hres in Hc'. apply build_date_inv in Hc'
        as (mo' & dd' & h' & mi' & s' & Hmo' & Hd' & Hh' & Hmi' & Hs' & ->).
      subst c. simpl. congruence.
    + unfold parse_mailq_date. now rewrite Hc'.
Qed.

Lemma C4_single_step_rollback_witness :
  resolve_date "Wed Dec 31 23:59:59" (jan1 2026)
  = Ok {| year := 2025; month := 12; day := 31;
          hour := 23; minute := 59; second := 59; microsecond := 0 |}
  /\ parse_mailq_date "Wed Dec 31 23:59:59" (jan1 2026) = Ok 1767225599.
Proof.
  destruct (C4_single_step_rollback "Wed Dec 31 23:59:59"
              "Wed" "Dec" "31" "23:59:59" "23" "59" "59" (jan1 2026)
              {| year := 2026; month := 12; day := 31;
                 hour := 23; minute := 59; second := 59; microsecond := 0 |}
              eq_refl eq_refl eq_refl) as (_ & _ & _ & H).
  destruct (H eq_refl) as [Hr Hc]. split.
  - rewrite Hr. reflexivity.
  - apply (Hc {| year := 2025; month := 12; day := 31;
                 hour := 23; minute := 59; second := 59; microsecond := 0 |}).
    rewrite Hr. reflexivity.
Defined.

(** ** Comprehensions and order *)

Lemma select_items_filter (test : msg -> res bool) (d out : dict msg) :
  select_items test d = Ok out -> out = filter (passes test) d.
Proof.
  revert out. induction d as [|[k m] d IH]; intros out; simpl.
  - now intros [= <-].
  - unfold passes at 1. simpl snd.
    destruct (test m) as [b|]; [|discriminate]. cbn [bind].
    destruct (select_items test d) as [kept|]; [|discriminate]. cbn [bind].
    intros [= <-]. rewrite <- (IH kept eq_refl). now destruct b.
Qed.

Lemma select_items_again (test : msg -> res bool) (d out : dict msg) :
  select_items test d = Ok out -> select_items test out = Ok out.
Proof.
  revert out. induction d as [|[k m] d IH]; intros out; simpl.
  - now intros [= <-].
  - destruct (test m) as [b|] eqn:Et; [|discriminate]. cbn [bind].
    destruct (select_items test d) as [kept|]; [|discriminate]. cbn [bind].
    intros [= <-]. specialize (IH kept eq_refl).
    destruct b; [|assumption]. simpl. now rewrite Et, IH.
Qed.

Lemma subseq_refl {A : Type} (l : list A) : subseq l l.
Proof. induction l; [apply subseq_nil | now apply subseq_keep]. Qed.

Lemma subseq_trans {A : Type} (a b c : list A) :
  subseq a b -> subseq b c -> subseq a c.
Proof.
  intros Hab Hbc. revert a Hab.
  induction Hbc as [|x l1 l2 H IH|x l1 l2 H IH]; intros a Hab.
  - assumption.
  - apply subseq_skip. now apply IH.
  - inversion Hab; subst.
    + apply subseq_skip. now apply IH.
    + apply subseq_keep. now apply IH.
Qed.

Lemma subseq_filter {A : Type} (p : A -> bool) (l : list A) :
  subseq (filter p l) l.
Proof.
  induction l as [|x l IH]; simpl; [apply subseq_nil|].
  destruct (p x); [now apply subseq_keep | now apply subseq_skip].
Qed.

Lemma subseq_map {A B : Type} (f : A -> B) (a b : list A) :
  subseq a b -> subseq (map f a) (map f b).
Proof.
  induction 1; simpl;
    [apply subseq_nil | now apply subseq_skip | now apply subseq_keep].
Qed.

Lemma subseq_app_r {A : Type} (a b : list A) : subseq a (a ++ b).
Proof.
  induction a as [|x a IH]; simpl.
  - induction b; [apply subseq_nil | now apply subseq_skip].
  - now apply subseq_keep.
Qed.

Lemma subseq_in {A : Type} (a b : list A) (x : A) :
  subseq a b -> In x a -> In x b.
Proof.
  induction 1 as [|y l1 l2 H IH|y l1 l2 H IH]; simpl; auto.
  intros [Hx|Hx]; auto.
Qed.

Lemma subseq_nodup {A : Type} (a b : list A) :
  subseq a b -> NoDup b -> NoDup a.
Proof.
  induction 1 as [|y l1 l2 H IH|y l1 l2 H IH]; intros Hnd.
  - constructor.
  - inversion Hnd; auto.
  - inversion Hnd as [|? ? Hni Hnd']; subst. constructor; auto.
    intros Hin. apply Hni. now apply (subseq_in l1 l2).
Qed.

Lemma existsb_eqb_in (x : string) (l : list string) :
  existsb (String.eqb x) l = true <-> In x l.
Proof.
  rewrite existsb_exists. split.
  - intros (y & Hy & E). apply String.eqb_eq in E. now subst.
  - intros H. exists x. split; [assumption | apply String.eqb_refl].
Qed.

(** With no key twice, a subsequence is the original restricted to the keys
    that are kept. *)
Lemma subseq_restrict (a b : list string) :
  subseq a b -> NoDup b ->
  a = filter (fun k => existsb (String.eqb k) a) b.
Proof.
  induction 1 as [|y l1 l2 H IH|y l1 l2 H IH]; intros Hnd; simpl.
  - reflexivity.
  - inversion Hnd as [|? ? Hni Hnd']; subst.
    destruct (existsb (String.eqb y) l1) eqn:E.
    + apply existsb_eqb_in in E. exfalso. apply Hni.
      now apply (subseq_in l1 l2).
    + now apply IH.
  - inversion Hnd as [|? ? Hni Hnd']; subst.
    rewrite String.eqb_refl. simpl. f_equal.
    rewrite (IH Hnd') at 1. apply filter_ext_in.
    intros k Hk. destruct (String.eqb k y) eqn:E; [|reflexivity].
    apply String.eqb_eq in E. subst k. contradiction.
Qed.

Lemma first_occurrences_nodup (l : list string) : NoDup (first_occurrences l).
Proof.
  induction l as [|x l IH]; simpl; constructor.
  - rewrite filter_In. intros [_ H]. now rewrite String.eqb_refl in H.
  - now apply NoDup_filter.
Qed.

Lemma keys_filter_nodup (p : string * msg -> bool) (d : dict msg) :
  NoDup (keys d) -> NoDup (keys (filter p d)).
Proof.
  intros H. apply (subseq_nodup _ (keys d)); [|assumption].
  apply subseq_map, subseq_filter.
Qed.

Lemma nodup_app_l {A : Type} (a b : list A) : NoDup (a ++ b) -> NoDup a.
Proof. intros H. apply (subseq_nodup a (a ++ b)); auto using subseq_app_r. Qed.

(** ** The filters as comprehensions *)

Lemma keys_app {V : Type} (a b : dict V) : keys (a ++ b) = keys a ++ keys b.
Proof. unfold keys. apply map_app. Qed.

Lemma nodup_keys_cons_inv {V : Type} (acc items : dict V) (k : string) (v : V) :
  NoDup (keys acc ++ keys ((k, v) :: items)) ->
  ~ In k (keys acc) /\ NoDup (keys acc ++ keys items)
  /\ forall v', NoDup (keys (acc ++ [(k, v')]) ++ keys items).
Proof.
  simpl. intros H. pose proof (NoDup_remove _ _ _ H) as [H1 H2].
  split; [|split].
  - intros Hin. apply H2. apply in_or_app. now left.
  - assumption.
  - intros v'. rewrite keys_app. simpl. now rewrite <- app_assoc.
Qed.

Section FilterFacts.

Variable regex : Type.
Variable re_compile : string -> option regex.
Variable re_search : regex -> string -> bool.
Variable fromtimestamp : Z -> res Z.

Lemma reason_groups_spec (pat : regex) (k : string) (m : msg)
    (gs : list recipient) :
  forall acc,
    reason_groups regex re_search pat k m gs acc
    = (b <- any_reason regex re_search pat gs ;;
       Ok (if b then od_set k m acc else acc)).
Proof.
  induction gs as [|g gs IH]; intros acc; simpl; [reflexivity|].
  destruct (r_reason g) as [reason|]; [|reflexivity]. cbn [of_option bind].
  rewrite IH. destruct (any_reason regex re_search pat gs) as [b|]; [|reflexivity].
  cbn [bind].
  destruct (Py.truthy reason && re_search pat reason)%bool; simpl; [|reflexivity].
  destruct b; now rewrite ?od_set_twice.
Qed.

Lemma reason_loop_spec (pat : regex) (items : list (string * msg)) :
  forall acc,
    NoDup (keys acc ++ keys items) ->
    reason_loop regex re_search pat items acc
    = (kept <- select_items (reason_test regex re_search pat) items ;;
       Ok (acc ++ kept)).
Proof.
  induction items as [|[k m] items IH]; intros acc Hnd.
  - simpl. now rewrite app_nil_r.
  - apply nodup_keys_cons_inv in Hnd as (Hk & Hrest & Hsnoc).
    simpl. unfold reason_test at 1.
    destruct (od_get "status" m) as [st|]; [|reflexivity]. cbn [of_option bind].
    destruct (val_is ST_ACTIVE st).
    + cbn [bind]. rewrite IH by assumption.
      now destruct (select_items (reason_test regex re_search pat) items).
    + destruct (od_get "recipients" m) as [v|]; [|reflexivity].
      cbn [of_option bind].
      destruct (as_recipients v) as [gs|]; [|reflexivity]. cbn [bind].
      rewrite reason_groups_spec.
      destruct (any_reason regex re_search pat gs) as [b|]; [|reflexivity].
      cbn [bind]. destruct b.
      * rewrite od_set_absent by assumption. rewrite IH by apply Hsnoc.
        destruct (select_items (reason_test regex re_search pat) items);
          cbn [bind]; [|reflexivity].
        now rewrite <- app_assoc.
      * rewrite IH by assumption.
        now destruct (select_items (reason_test regex re_search pat) items).
Qed.

Lemma recipient_addresses_spec (pat : regex) (k : string) (m : msg)
    (addrs : list string) :
  forall acc,
    recipient_addresses regex re_search pat k m addrs acc
    = if existsb (re_search pat) addrs then od_set k m acc else acc.
Proof.
  induction addrs as [|a addrs IH]; intros acc; simpl; [reflexivity|].
  rewrite IH. destruct (re_search pat a); simpl; [|reflexivity].
  destruct (existsb (re_search pat) addrs); now rewrite ?od_set_twice.
Qed.

Lemma recipient_groups_spec (pat : regex) (k : string) (m : msg)
    (gs : list recipient) :
  forall acc,
    recipient_groups regex re_search pat k m gs acc
    = if any_address regex re_search pat gs then od_set k m acc else acc.
Proof.
  induction gs as [|g gs IH]; intros acc; simpl; [reflexivity|].
  rewrite IH, recipient_addresses_spec.
  destruct (existsb (re_search pat) (r_addresses g)); simpl; [|reflexivity].
  destruct (any_address regex re_search pat gs); now rewrite ?od_set_twice.
Qed.

Lemma recipient_loop_spec (pat : regex) (items : list (string * msg)) :
  forall acc,
    NoDup (keys acc ++ keys items) ->
    recipient_loop regex re_search pat items acc
    = (kept <- select_items (recipient_test regex re_search pat) items ;;
       Ok (acc ++ kept)).
Proof.
  induction items as [|[k m] items IH]; intros acc Hnd.
  - simpl. now rewrite app_nil_r.
  - apply nodup_keys_cons_inv in Hnd as (Hk & Hrest & Hsnoc).
    simpl. unfold recipient_test at 1.
    destruct (od_get "recipients" m) as [v|]; [|reflexivity].
    cbn [of_option bind].
    destruct (as_recipients v) as [gs|]; [|reflexivity]. cbn [bind].
    rewrite recipient_groups_spec.
    destruct (any_address regex re_search pat gs).
    + rewrite od_set_absent by assumption. rewrite IH by apply Hsnoc.
      destruct (select_items (recipient_test regex re_search pat) items);
        cbn [bind]; [|reflexivity].
      now rewrite <- app_assoc.
    + rewrite IH by assumption.
      now destruct (select_items (recipient_test regex re_search pat) items).
Qed.

Lemma select_then_dict (test : msg -> res bool) (d : dict msg) :
  NoDup (keys d) ->
  (items <- select_items test d ;; Ok (dict_of_items items))
  = select_items test d.
Proof.
  intros Hnd. destruct (select_items test d) as [items|] eqn:E; [|reflexivity].
  cbn [bind]. f_equal. apply dict_of_items_nodup.
  rewrite (select_items_filter _ _ _ E). now apply keys_filter_nodup.
Qed.

(** Every filter is the comprehension of its test over the collection. *)
Lemma apply_filter_spec (f : filter_spec) (d : dict msg) :
  NoDup (keys d) ->
  apply_filter regex re_compile re_search fromtimestamp f d
  = (test <- filter_test regex re_compile re_search fromtimestamp f ;;
     select_items test d).
Proof.
  intros Hnd. destruct f as [p|p|p|c age now| |]; simpl.
  - unfold filter_on_msg_reason.
    destruct (re_compile p) as [pat|]; [|reflexivity]. cbn [of_option bind].
    rewrite reason_loop_spec by assumption.
    now destruct (select_items (reason_test regex re_search pat) d).
  - unfold filter_on_msg_key.
    destruct (re_compile p) as [pat|]; [|reflexivity]. cbn [of_option bind].
    now apply select_then_dict.
  - unfold filter_on_msg_recipient.
    destruct (re_compile p) as [pat|]; [|reflexivity]. cbn [of_option bind].
    rewrite recipient_loop_spec by assumption.
    now destruct (select_items (recipient_test regex re_search pat) d).
  - unfold filter_on_msg_age.
    destruct (age_seconds age) as [secs|]; [|reflexivity]. cbn [bind].
    now apply select_then_dict.
  - unfold exclude_active. now apply select_then_dict.
  - unfold only_active. now apply select_then_dict.
Qed.

Lemma apply_filter_kept (f : filter_spec) (d out : dict msg) :
  NoDup (keys d) ->
  apply_filter regex re_compile re_search fromtimestamp f d = Ok out ->
  exists test,
    filter_test regex re_compile re_search fromtimestamp f = Ok test
    /\ select_items test d = Ok out
    /\ out = filter (passes test) d.
Proof.
  intros Hnd. rewrite apply_filter_spec by assumption.
  destruct (filter_test regex re_compile re_search fromtimestamp f) as [test|];
    [|discriminate].
  cbn [bind]. intros H. exists test. repeat split; auto.
  now apply select_items_filter.
Qed.

Lemma parse_msg_dates_loop_keys (now : datetime) (items : list (string * msg)) :
  forall acc out,
    NoDup (keys acc ++ keys items) ->
    parse_msg_dates_loop now items acc = Ok out ->
    exists kept, subseq kept (keys items) /\ keys out = keys acc ++ kept.
Proof.
  induction items as [|[k m] items IH]; intros acc out Hnd.
  - simpl. intros [= <-]. exists []. split; [apply subseq_nil|].
    now rewrite app_nil_r.
  - apply nodup_keys_cons_inv in Hnd as (Hk & Hrest & Hsnoc).
    cbn [parse_msg_dates_loop].
    destruct (od_mem "date" m).
    + intros H. apply IH in H as (kept & Hs & Hkeys); [|assumption].
      exists kept. split; [now apply subseq_skip | assumption].
    + destruct (od_get "rawdate" m) as [raw|]; [|discriminate].
      cbn [of_option bind].
      destruct (date_of_value (Some raw) now) as [t|]; [|intros H; discriminate H].
      cbn [bind]. rewrite od_set_absent by assumption.
      intros H. apply IH in H as (kept & Hs & Hkeys); [|apply Hsnoc].
      exists (k :: kept). split; [now apply subseq_keep|].
      rewrite Hkeys, keys_app. simpl. now rewrite <- app_assoc.
Qed.

Lemma apply_stage_keys (s : stage) (d out : dict msg) :
  NoDup (keys d) ->
  apply_stage regex re_compile re_search fromtimestamp s d = Ok out ->
  subseq (keys out) (keys d).
Proof.
  intros Hnd. destruct s as [now|f]; simpl.
  - unfold parse_msg_dates. intros H.
    apply parse_msg_dates_loop_keys in H as (kept & Hs & Hk); [|assumption].
    now rewrite Hk.
  - intros H. apply apply_filter_kept in H as (test & _ & _ & ->); [|assumption].
    apply subseq_map, subseq_filter.
Qed.

Lemma apply_stages_keys (ss : list stage) :
  forall d out,
    NoDup (keys d) ->
    apply_stages regex re_compile re_search fromtimestamp ss d = Ok out ->
    subseq (keys out) (keys d).
Proof.
  induction ss as [|s ss IH]; intros d out Hnd; simpl.
  - intros [= <-]. apply subseq_refl.
  - destruct (apply_stage regex re_compile re_search fromtimestamp s d)
      as [d1|] eqn:E; [|discriminate].
    cbn [bind]. intros H.
    pose proof (apply_stage_keys s d d1 Hnd E) as Hs.
    apply (subseq_trans _ (keys d1)); [|assumption].
    apply IH; [|assumption]. now apply (subseq_nodup _ (keys d)).
Qed.

Lemma apply_filters_records (fs : list filter_spec) :
  forall d out,
    NoDup (keys d) ->
    apply_stages regex re_compile re_search fromtimestamp (map SFilter fs) d
    = Ok out ->
    subseq out d.
Proof.
  induction fs as [|f fs IH]; intros d out Hnd; simpl.
  - intros [= <-]. apply subseq_refl.
  - destruct (apply_filter regex re_compile re_search fromtimestamp f d)
      as [d1|] eqn:E; [|discriminate].
    cbn [bind]. intros H.
    apply apply_filter_kept in E as (test & _ & _ & ->); [|assumption].
    apply (subseq_trans _ (filter (passes test) d)); [|apply subseq_filter].
    apply IH; [|assumption]. now apply keys_filter_nodup.
Qed.

End FilterFacts.

(** ** The claims on the filters and the transform *)

Lemma p3_groups_spec (groups : list recipient) :
  forall acc rs,
    p3_groups groups acc = Ok rs ->
    rs = acc ++ flat_map
                  (fun g => map (fun a => {| delay_reason :=
                                               match r_reason g with
                                               | Some r => r
                                               | None => EmptyString
                                               end;
                                             address := a |})
                                (r_addresses g)) groups
    /\ Forall (fun g => r_reason g <> None) groups.
Proof.
  induction groups as [|g groups IH]; intros acc rs; simpl.
  - intros [= <-]. split; [now rewrite app_nil_r | constructor].
  - destruct (r_reason g) as [reason|] eqn:Er; cbn [of_option bind];
      [|discriminate].
    intros H. apply IH in H as [-> HF]. split.
    + now rewrite <- app_assoc.
    + constructor; [rewrite Er; discriminate | assumption].
Qed.

(** A group with a reason and N addresses contributes N entries that share
    the reason. *)
Lemma p3_groups_one_group (reason : string) (addrs : list string) :
  p3_groups [ {| r_addresses := addrs; r_reason := Some reason |} ] []
  = Ok (map (fun a => {| delay_reason := reason; address := a |}) addrs).
Proof. reflexivity. Qed.

(** C5 (the code departs from the claim).  The records are those that
    [parse_lines] returns for a listing with one Active and one Deferred
    message.  For the Deferred one the transform emits the flattened object
    with two recipient entries that share the reason; for the Active one,
    whose group carries no reason, the transform raises [KeyError] instead of
    emitting an object. *)
Theorem C5_transform_needs_reason :
  parse_lines listing_two = Ok [("A1", rec_active); ("B2", rec_deferred)]
  /\ convert_to_postfix31 "B2" rec_deferred (jan1 2026)
     = Ok {| queue_name := Some (VStr "deferred");
             queue_id := "B2";
             arrival_time := 1736071201;
             message_size := Some (VStr "2048");
             sender := Some (VStr "s@example.com");
             p3_recipients :=
               [ {| delay_reason := "connection timed out";
                    address := "r1@example.com" |};
                 {| delay_reason := "connection timed out";
                    address := "r2@example.com" |} ] |}
  /\ convert_to_postfix31 "A1" rec_active (jan1 2026)
     = Raise (KeyError "reason").
Proof. repeat split; reflexivity. Qed.

Section FilterClaims.

Variable regex : Type.
Variable re_compile : string -> option regex.
Variable re_search : regex -> string -> bool.
Variable fromtimestamp : Z -> res Z.

(** When the reason filter returns, it has kept exactly the records that are
    not Active and have a group whose reason is non-empty and is matched by
    the search, unchanged and in their order. *)
Lemma filter_on_msg_reason_kept (d out : dict msg) (pattern : string) :
  NoDup (keys d) ->
  filter_on_msg_reason regex re_compile re_search d pattern = Ok out ->
  exists pat,
    re_compile pattern = Some pat
    /\ out = filter (passes (reason_test regex re_search pat)) d.
Proof.
  intros Hnd H.
  pose proof (apply_filter_kept regex re_compile re_search fromtimestamp
                (FReason pattern) d out Hnd H) as (test & Ht & _ & ->).
  simpl in Ht. destruct (re_compile pattern) as [pat|]; [|discriminate].
  injection Ht as <-. now exists pat.
Qed.

(** C6 (the code departs from the claim).  On the collection parsed from a
    listing whose Deferred message has an empty parenthetical before its
    first address and a reason before its second, the claim keeps the record
    for a pattern that the second reason matches; the filter raises
    [KeyError] at the group without a reason.  On a listing cut off after
    the last address, the record has no recipients entry and the filter
    raises [KeyError] as well. *)
Theorem C6_reason_filter_needs_reason :
  parse_lines [ "B2 10 Mon Jan 5 10:00:01 s@x"; "()"; " a@x";
                "(timeout)"; " b@x"; EmptyString ]
  = Ok [ ("B2", [ ("size", VStr "10"); ("rawdate", VStr "Mon Jan 5 10:00:01");
                  ("sender", VStr "s@x"); ("status", VStr "deferred");
                  ("recipients",
                   VRecipients
                     [ {| r_addresses := ["a@x"]; r_reason := None |};
                       {| r_addresses := ["b@x"];
                          r_reason := Some "timeout" |} ]) ]) ]
  /\ filter_on_msg_reason regex re_compile re_search
       [ ("B2", [ ("size", VStr "10"); ("rawdate", VStr "Mon Jan 5 10:00:01");
                  ("sender", VStr "s@x"); ("status", VStr "deferred");
                  ("recipients",
                   VRecipients
                     [ {| r_addresses := ["a@x"]; r_reason := None |};
                       {| r_addresses := ["b@x"];
                          r_reason := Some "timeout" |} ]) ]) ]
       "timeout"
     = match re_compile "timeout" with
       | Some _ => Raise (KeyError "reason")
       | None => Raise ReError
       end
  /\ parse_mq truncated_listing
     = Ok [ ("B2", [ ("size", VStr "10"); ("rawdate", VStr "Mon Jan 5 10:00:01");
                     ("sender", VStr "s@x"); ("status", VStr "deferred") ]) ]
  /\ filter_on_msg_reason regex re_compile re_search
       [ ("B2", [ ("size", VStr "10"); ("rawdate", VStr "Mon Jan 5 10:00:01");
                  ("sender", VStr "s@x"); ("status", VStr "deferred") ]) ]
       "timeout"
     = match re_compile "timeout" with
       | Some _ => Raise (KeyError "recipients")
       | None => Raise ReError
       end.
Proof.
  repeat split; try reflexivity;
    unfold filter_on_msg_reason; destruct (re_compile "timeout"); reflexivity.
Qed.

(** C7.  The keys of a parsed collection are the identifiers of the header
    lines (those in front of the sentinel, if there is one) in the order of
    their first appearance; the date pass and every filter keep the relative
    order of the keys they keep, so after any sequence of them the keys are
    the first-appearance order restricted to the kept keys; and a sequence
    of filters alone returns the kept records themselves, in that order. *)
Theorem C7_order_preserved (lines : list string) (result out : dict msg)
    (stages : list stage) :
  parse_lines lines = Ok result ->
  apply_stages regex re_compile re_search fromtimestamp stages result = Ok out ->
  keys result = first_occurrences (header_ids (before_sentinel lines))
  /\ subseq (keys out) (keys result)
  /\ keys out
     = filter (fun k => existsb (String.eqb k) (keys out))
         (first_occurrences (header_ids (before_sentinel lines)))
  /\ (forall fs, stages = map SFilter fs -> subseq out result).
Proof.
  intros Hparse Hstages.
  assert (Hkeys : keys result
                  = first_occurrences (header_ids (before_sentinel lines))).
  { rewrite <- keys_summary, (parse_lines_summary _ _ Hparse).
    apply keys_fold_register. }
  assert (Hnd : NoDup (keys result))
    by (rewrite Hkeys; apply first_occurrences_nodup).
  pose proof (apply_stages_keys regex re_compile re_search fromtimestamp
                stages result out Hnd Hstages) as Hsub.
  repeat split; auto.
  - rewrite <- Hkeys. now apply subseq_restrict.
  - intros fs ->.
    now apply (apply_filters_records regex re_compile re_search fromtimestamp fs).
Qed.

(** C8.  For each filter of the pipeline and fixed arguments, filtering the
    result of the filter again gives the result of the filter (an exception
    of the first pass included). *)
Theorem C8_filters_idempotent (f : filter_spec) (d : dict msg) :
  NoDup (keys d) ->
  (out <- apply_filter regex re_compile re_search fromtimestamp f d ;;
   apply_filter regex re_compile re_search fromtimestamp f out)
  = apply_filter regex re_compile re_search fromtimestamp f d.
Proof.
  intros Hnd.
  destruct (apply_filter regex re_compile re_search fromtimestamp f d)
    as [out|] eqn:E; [|reflexivity].
  cbn [bind].
  apply apply_filter_kept in E as (test & Ht & Hsel & Hout); [|assumption].
  rewrite apply_filter_spec by (rewrite Hout; now apply keys_filter_nodup).
  rewrite Ht. cbn [bind]. now apply (select_items_again test d).
Qed.

Variable strftime_local : pyval -> res string.

Lemma check_age_cases (name : string) (age : option string) :
  (exists r, check_age name age = Ok r) \/ check_age name age = Raise TypeError.
Proof.
  unfold check_age. destruct age as [a|]; [|eauto].
  destruct (Py.truthy a) eqn:Et; [|eauto].
  pose proof (last_nonempty a Et) as Hl.
  destruct (Py.last a) as [c|]; [|congruence].
  destruct (Py.isdigit c); [eauto|].
  destruct (negb (Py.contains c "smhd")); [now right | eauto].
Qed.

(** C9 (the code departs from the claim).  With both status options set,
    whatever the other options and whatever the listing, the log and the
    clock are, [parse_args] ends in [TypeError] at the statement that was to
    print the configuration error: nothing is printed on standard output,
    nothing is parsed, and the exit status is 1, but the error message is
    not reported and the exit is not the [sys.exit(1)] of the source. *)
Theorem C9_both_flags_type_error (a : args) (w : world) :
  parse_args (with_both_flags a) = Raise TypeError
  /\ main regex re_compile re_search fromtimestamp strftime_local
       (with_both_flags a) w
     = ([], Raise TypeError)
  /\ exit_status
       (snd (main regex re_compile re_search fromtimestamp strftime_local
               (with_both_flags a) w)) = 1.
Proof.
  assert (H : parse_args (with_both_flags a) = Raise TypeError).
  { unfold parse_args. simpl.
    destruct (check_age_cases "minage" (a_minage a)) as [[r1 ->]| ->];
      [|reflexivity].
    cbn [bind].
    destruct (check_age_cases "maxage" (a_maxage a)) as [[r2 ->]| ->];
      reflexivity. }
  split; [assumption|]. unfold main. rewrite H. split; reflexivity.
Qed.

End FilterClaims.

Lemma sample_keys_nodup : NoDup (keys [("A1", rec_active); ("B2", rec_deferred)]).
Proof.
  apply NoDup_cons.
  - simpl. intros [H|[]]. discriminate H.
  - apply NoDup_cons; [simpl; intros [] | apply NoDup_nil].
Defined.

Lemma C7_order_preserved_witness :
  keys [("A1", rec_active); ("B2", rec_deferred)]
  = first_occurrences (header_ids (before_sentinel listing_two))
  /\ subseq (keys [("B2", rec_deferred)])
       (keys [("A1", rec_active); ("B2", rec_deferred)])
  /\ keys [("B2", rec_deferred)]
     = filter (fun k => existsb (String.eqb k) (keys [("B2", rec_deferred)]))
         (first_occurrences (header_ids (before_sentinel listing_two)))
  /\ (forall fs,
        [SFilter (FReason "TIMED"); SFilter FExcludeActive] = map SFilter fs ->
        subseq [("B2", rec_deferred)] [("A1", rec_active); ("B2", rec_deferred)]).
Proof.
  apply (C7_order_preserved string lit_compile lit_search utc_local listing_two
           [("A1", rec_active); ("B2", rec_deferred)] [("B2", rec_deferred)]
           [SFilter (FReason "TIMED"); SFilter FExcludeActive]);
    reflexivity.
Defined.

Lemma C8_filters_idempotent_witness :
  (out <- apply_filter string lit_compile lit_search utc_local (FReason "TIMED")
            [("A1", rec_active); ("B2", rec_deferred)] ;;
   apply_filter string lit_compile lit_search utc_local (FReason "TIMED") out)
  = apply_filter string lit_compile lit_search utc_local (FReason "TIMED")
      [("A1", rec_active); ("B2", rec_deferred)].
Proof.
  apply (C8_filters_idempotent string lit_compile lit_search utc_local).
  exact sample_keys_nodup.
Defined.

Example reason_filter_sample :
  apply_filter string lit_compile lit_search utc_local (FReason "TIMED")
    [("A1", rec_active); ("B2", rec_deferred)]
  = Ok [("B2", rec_deferred)].
Proof. reflexivity. Qed.

(** * Further properties of the code *)

(** ** The branches of one step *)

Lemma run_app (a b : list string) :
  forall l,
    run l (a ++ b)
    = match run l a with
      | Continue l' => run l' b
      | other => other
      end.
Proof.
  induction a as [|x a IH]; intros l; simpl; [reflexivity|].
  destruct (step l x); auto.
Qed.

(** Every way in which a line lets the loop go on. *)
Lemma step_cases (l l' : locals) (line : string) :
  step l line = Continue l' ->
  state l <> MQ_STATE_DONE
  /\ ((is_hex_line line = false /\ skipped_line line = true
       /\ state l <> MQ_STATE_RCPT /\ l' = l)
      \/ (is_hex_line line = false /\ skipped_line line = true
          /\ state l = MQ_STATE_RCPT
          /\ exists l1 l2,
               do_append l = Ok l1 /\ do_link l1 = Ok l2
               /\ l' = set_state MQ_STATE_MSG_DATA l2)
      \/ (is_hex_line line = false /\ is_footer line = true
          /\ l' = set_state MQ_STATE_DONE l)
      \/ (is_hex_line line = true /\ step_header l line = Continue l')
      \/ (is_hex_line line = false /\ step_reason l line = Continue l')
      \/ (is_hex_line line = false /\ is_address_line line = true
          /\ step_address l line = Continue l')).
Proof.
  destruct (mq_state_eqb (state l) MQ_STATE_DONE) eqn:Edone.
  { unfold step. rewrite Edone. discriminate. }
  assert (Hnd : state l <> MQ_STATE_DONE)
    by (intros H; rewrite H in Edone; discriminate).
  intros Hstep. split; [assumption|].
  destruct (is_hex_line line) eqn:Ehex.
  { rewrite hex_dispatch in Hstep by assumption. tauto. }
  unfold step in Hstep. rewrite Edone, Ehex in Hstep.
  unfold is_address_line, skipped_line, is_sentinel, is_footer. rewrite Ehex.
  destruct (Py.is_empty line || String.eqb (Py.take 10 line) "-Queue ID-")%bool.
  { destruct (mq_state_eqb (state l) MQ_STATE_RCPT) eqn:Er.
    - apply mq_state_eqb_eq in Er. unfold lift in Hstep.
      destruct (do_append l) as [l1|] eqn:Ea; simpl in Hstep; [|discriminate].
      destruct (do_link l1) as [l2|] eqn:El; [|discriminate].
      injection Hstep as <-. right. left. repeat split; auto. now exists l1, l2.
    - apply mq_state_eqb_neq in Er. injection Hstep as <-. left. auto. }
  destruct (String.eqb (Py.lower line) MAILQ_EMPTY).
  { destruct (negb (mq_state_eqb (state l) MQ_STATE_HDR)); discriminate. }
  destruct (String.eqb (Py.take 2 line) "--").
  { destruct (negb (mq_state_eqb (state l) MQ_STATE_REASON)
              && negb (mq_state_eqb (state l) MQ_STATE_MSG_DATA))%bool;
      [discriminate|].
    injection Hstep as <-. right. right. left. auto. }
  destruct (Py.first (Py.lstrip_spaces line)) as [c|]; [|discriminate].
  destruct (Ascii.eqb c "("%char).
  { right. right. right. right. left. auto. }
  destruct (Py.contains "@"%char line); [|discriminate].
  right. right. right. right. right. auto.
Qed.


(** ** Exceptions, sentinel and footer *)

(** X1.  Whatever the lines are, the only exceptions the parser ends in are
    its own [sys.exit(1)] and an [IndexError] (a header of one token, a line
    of spaces only): the names that are [None] or unbound before the first
    header are never read. *)
Theorem X1_parser_exceptions (lines : list string) (e : exn) :
  parse_lines lines = Raise e ->
  (exists m, e = SystemExit 1 m) \/ e = IndexError.
Proof.
  unfold parse_lines.
  destruct (run init_locals lines) as [l|r|e'] eqn:Er; try discriminate.
  intros [= <-]. now apply (run_raises lines init_locals e' locals_ok_init).
Qed.

Lemma X1_parser_exceptions_witness :
  (exists m, IndexError = SystemExit 1 m) \/ IndexError = IndexError.
Proof. apply (X1_parser_exceptions ["A1*"] IndexError). reflexivity. Defined.

Lemma run_skipped (pre : list string) :
  Forall (fun line => skipped_line line = true) pre ->
  run init_locals pre = Continue init_locals.
Proof.
  induction 1 as [|line pre Hs _ IH]; simpl; [reflexivity|].
  pose proof (banner_not_sentinel line Hs) as Hn.
  unfold skipped_line in Hs.
  assert (Hhex : is_hex_line line = false).
  { destruct (is_hex_line line) eqn:E; [|reflexivity].
    destruct (is_hex_line_inv _ E) as (c & r & -> & Hc).
    destruct (hex_char_facts c Hc) as [Hdash _].
    simpl in Hs. rewrite Hdash in Hs. discriminate. }
  unfold step. simpl mq_state_eqb. cbv iota. rewrite Hs. exact IH.
Qed.

(** X2.  When nothing but empty lines and column banners comes before it,
    the empty-queue sentinel (in any letter case) ends the parse with the
    empty collection, whatever follows it. *)
Theorem X2_sentinel_first (pre rest : list string) (line : string) :
  Forall (fun l => skipped_line l = true) pre ->
  is_sentinel line = true ->
  parse_lines (pre ++ line :: rest) = Ok [].
Proof.
  intros Hpre Hsent. unfold parse_lines.
  rewrite run_app, (run_skipped pre Hpre). simpl.
  assert (Hskip : skipped_line line = false).
  { destruct (skipped_line line) eqn:E; [|reflexivity].
    apply banner_not_sentinel in E. unfold is_sentinel in Hsent. congruence. }
  unfold step. simpl mq_state_eqb. cbv iota.
  unfold skipped_line in Hskip. unfold is_sentinel in Hsent.
  rewrite Hskip, Hsent. reflexivity.
Qed.

Lemma X2_sentinel_first_witness :
  parse_lines ([ EmptyString ] ++ "MAIL QUEUE IS EMPTY" :: [ "no: header" ])
  = Ok [].
Proof.
  apply X2_sentinel_first.
  - constructor; [reflexivity | constructor].
  - reflexivity.
Defined.

(** X3.  Once the footer has been read, any further line, an empty one
    included, ends the parse with [sys.exit(1)]; the message is the format
    text itself, without the line. *)
Theorem X3_nothing_after_footer (pre rest : list string) (line : string)
    (l : locals) :
  run init_locals pre = Continue l ->
  state l = MQ_STATE_DONE ->
  parse_lines (pre ++ line :: rest)
  = Raise (SystemExit 1 "Unexpected input: %s").
Proof.
  intros Hrun Hst. unfold parse_lines. rewrite run_app, Hrun. simpl.
  unfold step. rewrite Hst. reflexivity.
Qed.

Lemma X3_nothing_after_footer_witness :
  parse_lines ([ "B2 10 Mon Jan 5 10:00:01 s@x"; "-- 0 Kbytes in 1 Request." ]
               ++ EmptyString :: [])
  = Raise (SystemExit 1 "Unexpected input: %s").
Proof.
  apply (X3_nothing_after_footer
           [ "B2 10 Mon Jan 5 10:00:01 s@x"; "-- 0 Kbytes in 1 Request." ]
           [] EmptyString
           {| msgs := [ ("B2", [ ("size", VStr "10");
                                 ("rawdate", VStr "Mon Jan 5 10:00:01");
                                 ("sender", VStr "s@x");
                                 ("status", VStr "deferred") ]) ];
              cur_msg := Some "B2"; addresses := Some [];
              reason := None; recipients := Some []; linked := false;
              state := MQ_STATE_DONE |}).
  - vm_compute. reflexivity.
  - reflexivity.
Defined.

(** ** The shape of the records *)

Lemma last_header_snoc (q : string) (lines : list string) (line : string) :
  last_header q (lines ++ [line])
  = match header_entry line with
    | Some entry =>
        if String.eqb (fst entry) q then Some (snd entry)
        else last_header q lines
    | None => last_header q lines
    end.
Proof. unfold last_header. rewrite fold_left_app. reflexivity. Qed.

Lemma header_entry_not_hex (line : string) :
  is_hex_line line = false -> header_entry line = None.
Proof. unfold header_entry. now intros ->. Qed.

Lemma header_fields_base (line q : string) (b : msg) :
  header_fields line = Ok (q, b) -> is_base b.
Proof.
  intros H. apply header_fields_inv in H
    as (tok0 & rest & st & size & sender & _ & _ & _ & _ & ->).
  now exists size, (Py.join " " (Py.slice 2 6 (Py.split line))), sender, st.
Qed.

Lemma store_field_get (k k' f : string) (v : pyval) (d : dict msg) :
  od_get k' (store_field k f v d)
  = if String.eqb k' k then option_map (od_set f v) (od_get k d)
    else od_get k' d.
Proof.
  unfold store_field. destruct (String.eqb k' k) eqn:E.
  - apply String.eqb_eq in E. subst k'.
    destruct (od_get k d) as [m|] eqn:Eg; simpl.
    + apply od_get_set_same.
    + assumption.
  - destruct (od_get k d) as [m|]; [|reflexivity].
    now apply od_get_set_other.
Qed.

Lemma record_of_store (b m : msg) (rs : list recipient) :
  record_of b m -> forallb group_ok rs = true ->
  record_of b (od_set "recipients" (VRecipients rs) m).
Proof.
  intros [Hb Hm] Hrs. split; [assumption|]. right. exists rs.
  split; [|assumption].
  destruct Hb as (size & raw & sender & st & ->).
  destruct Hm as [-> | (gs & -> & _)]; reflexivity.
Qed.

Lemma append_groups_ok (r : option string) (a : list string)
    (rs : list recipient) :
  forallb group_ok rs = true ->
  forallb group_ok (_append_recipients r a rs) = true.
Proof.
  intros H. unfold _append_recipients.
  destruct a as [|x a]; simpl; [assumption|].
  rewrite forallb_app, H. simpl. unfold group_ok. simpl.
  destruct r as [s|]; [|reflexivity].
  destruct (Py.truthy s) eqn:E; [now rewrite E | reflexivity].
Qed.

Lemma stored_ok_init : stored_ok init_locals [].
Proof. split; intros; discriminate. Qed.

Lemma stored_ok_same_msgs (l l' : locals) (consumed : list string)
    (line : string) :
  stored_ok l consumed -> is_hex_line line = false ->
  msgs l' = msgs l ->
  (forall rs, recipients l' = Some rs -> forallb group_ok rs = true) ->
  stored_ok l' (consumed ++ [line]).
Proof.
  intros [H1 H2] Hhex Hm Hr. split; [|assumption].
  intros k m Hget. rewrite Hm in Hget.
  rewrite last_header_snoc, (header_entry_not_hex line Hhex). now apply H1.
Qed.

Lemma do_append_stored (l l1 : locals) (consumed : list string) :
  stored_ok l consumed -> do_append l = Ok l1 -> stored_ok l1 consumed.
Proof.
  intros [H1 H2]. unfold do_append.
  destruct (recipients l) as [rs|] eqn:Er; [|discriminate].
  destruct (addresses l) as [a|]; [|discriminate].
  assert (Hok : forallb group_ok (_append_recipients (reason l) a rs) = true)
    by (apply append_groups_ok; now apply H2).
  intros [= <-]. split; cbn [msgs recipients]; [|now intros rs' [= <-]].
  intros k m.
  destruct (linked l); [|apply H1].
  destruct (cur_msg l) as [k0|]; [|apply H1].
  rewrite store_field_get. destruct (String.eqb k k0) eqn:E; [|apply H1].
  apply String.eqb_eq in E. subst k0.
  destruct (od_get k (msgs l)) as [m0|] eqn:Eg; simpl; [|discriminate].
  intros [= <-]. destruct (H1 k m0 Eg) as (b & Hb & Hrec).
  exists b. split; [assumption|]. now apply record_of_store.
Qed.

Lemma do_link_stored (l l1 : locals) (consumed : list string) :
  stored_ok l consumed -> do_link l = Ok l1 -> stored_ok l1 consumed.
Proof.
  intros [H1 H2]. unfold do_link.
  destruct (recipients l) as [rs|] eqn:Er; [|discriminate].
  destruct (cur_msg l) as [k0|]; [|discriminate].
  intros [= <-]. split; cbn [msgs recipients].
  - intros k m. rewrite store_field_get.
    destruct (String.eqb k k0) eqn:E; [|apply H1].
    apply String.eqb_eq in E. subst k0.
    destruct (od_get k (msgs l)) as [m0|] eqn:Eg; simpl; [|discriminate].
    intros [= <-]. destruct (H1 k m0 Eg) as (b & Hb & Hrec).
    exists b. split; [assumption|]. apply record_of_store; auto.
  - intros rs' [= <-]. now apply H2.
Qed.

Lemma step_stored (l l' : locals) (consumed : list string) (line : string) :
  stored_ok l consumed -> step l line = Continue l' ->
  stored_ok l' (consumed ++ [line]).
Proof.
  intros Hok Hstep.
  destruct (step_cases l l' line Hstep)
    as (_ & [(Hhex & _ & _ & ->)
            |[(Hhex & _ & _ & l1 & l2 & Ha & Hl & ->)
             |[(Hhex & _ & ->)
              |[(Hhex & Hh)|[(Hhex & Hr)|(Hhex & _ & Had)]]]]]).
  - apply (stored_ok_same_msgs l); auto. apply Hok.
  - pose proof (do_link_stored l1 l2 consumed
                  (do_append_stored l l1 consumed Hok Ha) Hl) as Hok2.
    apply (stored_ok_same_msgs l2); auto. apply Hok2.
  - apply (stored_ok_same_msgs l); auto. apply Hok.
  - unfold step_header, lift in Hh.
    destruct (if mq_state_eqb (state l) MQ_STATE_RCPT then do_link l else Ok l)
      as [l1|] eqn:E1; [|discriminate].
    assert (Hok1 : stored_ok l1 consumed).
    { destruct (mq_state_eqb (state l) MQ_STATE_RCPT).
      - now apply (do_link_stored l).
      - now injection E1 as <-. }
    destruct (header_fields line) as [[q b]|] eqn:Ef; [|discriminate].
    injection Hh as <-. simpl. split; [|now intros rs [= <-]].
    intros k m. simpl msgs. rewrite last_header_snoc.
    unfold header_entry. rewrite Hhex, Ef. simpl fst. simpl snd.
    destruct (String.eqb q k) eqn:E.
    + apply String.eqb_eq in E. subst k. rewrite od_get_set_same.
      intros [= <-]. exists b. split; [reflexivity|].
      split; [now apply (header_fields_base line q) | now left].
    + rewrite od_get_set_other by (rewrite String.eqb_sym; exact E).
      apply Hok1.
  - unfold step_reason in Hr.
    destruct (negb (mq_state_eqb (state l) MQ_STATE_REASON)
              && negb (mq_state_eqb (state l) MQ_STATE_RCPT))%bool;
      [discriminate|].
    unfold lift in Hr.
    destruct (if mq_state_eqb (state l) MQ_STATE_RCPT then do_append l else Ok l)
      as [l1|] eqn:E1; [|discriminate].
    assert (Hok1 : stored_ok l1 consumed).
    { destruct (mq_state_eqb (state l) MQ_STATE_RCPT).
      - now apply (do_append_stored l).
      - now injection E1 as <-. }
    injection Hr as <-.
    apply (stored_ok_same_msgs l1); auto. simpl. apply Hok1.
  - unfold step_address in Had.
    destruct (negb (mq_state_eqb (state l) MQ_STATE_RCPT)); [discriminate|].
    destruct (addresses l); [|discriminate].
    injection Had as <-.
    apply (stored_ok_same_msgs l); auto. simpl. apply Hok.
Qed.

Lemma run_stored (lines : list string) :
  forall l consumed,
    stored_ok l consumed ->
    match run l lines with
    | Continue l' => stored_ok l' (consumed ++ before_sentinel lines)
    | Return r =>
        exists l', r = msgs l'
                   /\ stored_ok l' (consumed ++ before_sentinel lines)
    | Throw _ => True
    end.
Proof.
  induction lines as [|line rest IH]; intros l consumed Hok; simpl.
  - now rewrite app_nil_r.
  - pose proof (step_spec l line) as Hs.
    destruct (step l line) as [l1|r|e] eqn:Es; [| |exact I].
    + destruct Hs as [-> _].
      specialize (IH l1 (consumed ++ [line]) (step_stored l l1 consumed line Hok Es)).
      rewrite <- app_assoc in IH. exact IH.
    + destruct Hs as [-> ->]. exists l. split; [reflexivity|].
      now rewrite app_nil_r.
Qed.

Lemma parse_lines_stored (lines : list string) (result : dict msg) :
  parse_lines lines = Ok result ->
  forall k m, od_get k result = Some m ->
              exists b, last_header k (before_sentinel lines) = Some b
                        /\ record_of b m.
Proof.
  unfold parse_lines. pose proof (run_stored lines init_locals [] stored_ok_init) as H.
  destruct (run init_locals lines) as [l|r|e]; intros [= <-].
  - apply H.
  - destruct H as (l' & -> & H). apply H.
Qed.

Lemma parse_lines_nodup (lines : list string) (result : dict msg) :
  parse_lines lines = Ok result -> NoDup (keys result).
Proof.
  intros H. rewrite <- keys_summary, (parse_lines_summary _ _ H).
  rewrite keys_fold_register. apply first_occurrences_nodup.
Qed.

(** X4.  Every record of a successful parse consists of the four fields
    size, rawdate, sender and status taken from the last header line that
    carries its identifier, followed or not by a recipients entry; every
    group of that entry has at least one address, and a reason only if the
    reason is not empty. *)
Theorem X4_record_shape (lines : list string) (result : dict msg)
    (k : string) (m : msg) :
  parse_lines lines = Ok result ->
  In (k, m) result ->
  exists b, last_header k (before_sentinel lines) = Some b /\ record_of b m.
Proof.
  intros Hparse Hin.
  apply (parse_lines_stored lines result Hparse).
  apply od_get_nodup; [|assumption]. now apply (parse_lines_nodup lines).
Qed.

Lemma X4_record_shape_witness :
  exists b,
    last_header "B2" (before_sentinel listing_two) = Some b
    /\ record_of b rec_deferred.
Proof.
  apply (X4_record_shape listing_two
           [("A1", rec_active); ("B2", rec_deferred)] "B2" rec_deferred).
  - vm_compute. reflexivity.
  - right. left. reflexivity.
Defined.

(** ** Header lines and the records of the result *)

Lemma before_sentinel_app (a b : list string) :
  before_sentinel a = a -> before_sentinel (a ++ b) = a ++ before_sentinel b.
Proof.
  induction a as [|x a IH]; simpl; [reflexivity|].
  destruct (String.eqb (Py.lower x) MAILQ_EMPTY); intros H; [discriminate|].
  injection H as H. now rewrite IH.
Qed.

Lemma header_ids_before_sentinel (q : string) (lines : list string) :
  In q (header_ids (before_sentinel lines)) -> In q (header_ids lines).
Proof.
  unfold header_ids. rewrite !in_flat_map.
  intros (line & Hin & Hq). exists line.
  split; [now apply before_sentinel_incl | assumption].
Qed.

Lemma last_header_app_absent (q : string) (a b : list string) :
  ~ In q (header_ids b) -> last_header q (a ++ b) = last_header q a.
Proof.
  unfold last_header. rewrite fold_left_app.
  generalize (fold_left
                (fun found line =>
                   match header_entry line with
                   | Some entry =>
                       if String.eqb (fst entry) q then Some (snd entry) else found
                   | None => found
                   end) a None) as acc.
  induction b as [|line b IH]; intros acc Hq; simpl; [reflexivity|].
  unfold header_ids in Hq. simpl in Hq.
  destruct (header_entry line) as [entry|].
  - simpl in Hq. destruct (String.eqb_spec (fst entry) q) as [E|_].
    + exfalso. apply Hq. now left.
    + apply IH. intros H. apply Hq. now right.
  - apply IH. exact Hq.
Qed.

(** C10, amended.  A line that begins with a hexadecimal digit, splits into
    at least six tokens and is read before the footer has its fields
    extracted without an exception, and the parser stores under the
    identifier a record with token 1 as its size, tokens 2 to 5 joined by
    single spaces as its raw timestamp and the last token as its sender.
    If the listing ends with the line, [parse_mq] returns the collection
    with that record; and whenever [parse_mq] returns for the whole listing
    and no later header carries the identifier, the result has that record
    under the identifier, followed or not by its recipients. *)
Theorem C10_header_extraction_total (text : string) (pre rest : list string)
    (l : locals) (line : string) :
  Py.splitlines (call_mailq text) = pre ++ line :: rest ->
  run init_locals pre = Continue l ->
  state l <> MQ_STATE_DONE ->
  is_hex_line line = true ->
  (6 <= List.length (Py.split line))%nat ->
  exists q st size t2 t3 t4 t5 l',
    nth_error (Py.split line) 1 = Some size
    /\ nth_error (Py.split line) 2 = Some t2
    /\ nth_error (Py.split line) 3 = Some t3
    /\ nth_error (Py.split line) 4 = Some t4
    /\ nth_error (Py.split line) 5 = Some t5
    /\ header_fields line
       = Ok (q, [ ("size", VStr size);
                  ("rawdate",
                   VStr (t2 ++ " " ++ t3 ++ " " ++ t4 ++ " " ++ t5)%string);
                  ("sender", VStr (List.last (Py.split line) EmptyString));
                  ("status", VStr st) ])
    /\ run init_locals (pre ++ [line]) = Continue l'
    /\ od_get q (msgs l')
       = Some [ ("size", VStr size);
                ("rawdate",
                 VStr (t2 ++ " " ++ t3 ++ " " ++ t4 ++ " " ++ t5)%string);
                ("sender", VStr (List.last (Py.split line) EmptyString));
                ("status", VStr st) ]
    /\ (rest = [] -> parse_mq text = Ok (msgs l'))
    /\ (forall result,
          parse_mq text = Ok result ->
          ~ In q (header_ids rest) ->
          od_get q result
          = Some [ ("size", VStr size);
                   ("rawdate",
                    VStr (t2 ++ " " ++ t3 ++ " " ++ t4 ++ " " ++ t5)%string);
                   ("sender", VStr (List.last (Py.split line) EmptyString));
                   ("status", VStr st) ]
          \/ exists gs,
               od_get q result
               = Some [ ("size", VStr size);
                        ("rawdate",
                         VStr (t2 ++ " " ++ t3 ++ " " ++ t4 ++ " " ++ t5)%string);
                        ("sender",
                         VStr (List.last (Py.split line) EmptyString));
                        ("status", VStr st);
                        ("recipients", VRecipients gs) ]).
Proof.
  intros Hlines Hrun Hst Hhex Hlen.
  pose proof (run_locals_ok pre init_locals l locals_ok_init Hrun) as [_ Hb].
  destruct (Py.split line) as [|t0 [|t1 [|t2 [|t3 [|t4 [|t5 toks]]]]]] eqn:Hs;
    simpl in Hlen; try lia.
  destruct (header_fields_total line t0 t1 (t2 :: t3 :: t4 :: t5 :: toks) Hs)
    as (q & st & _ & Hf).
  set (b := [ ("size", VStr t1);
              ("rawdate",
               VStr (Py.join " " (Py.slice 2 6
                                    (t0 :: t1 :: t2 :: t3 :: t4 :: t5 :: toks))));
              ("sender",
               VStr (List.last (t0 :: t1 :: t2 :: t3 :: t4 :: t5 :: toks)
                       EmptyString));
              ("status", VStr st) ]) in *.
  assert (Hlink : exists l1,
             (if mq_state_eqb (state l) MQ_STATE_RCPT then do_link l else Ok l)
             = Ok l1).
  { destruct (mq_state_eqb (state l) MQ_STATE_RCPT) eqn:E; [|eauto].
    apply mq_state_eqb_eq in E.
    destruct Hb as (k & a & rs & Hk & _ & Hr); [rewrite E; discriminate|].
    unfold do_link. rewrite Hr, Hk. eauto. }
  destruct Hlink as [l1 Hlink].
  assert (Hstep : exists l', step l line = Continue l'
                             /\ od_get q (msgs l') = Some b).
  { rewrite hex_dispatch by assumption.
    unfold step_header, lift. rewrite Hlink, Hf.
    eexists. split; [reflexivity|]. simpl msgs. now rewrite od_get_set_same. }
  destruct Hstep as (l' & Hstep & Hget).
  assert (Hrun' : run init_locals (pre ++ [line]) = Continue l')
    by (rewrite run_app, Hrun; simpl; now rewrite Hstep).
  exists q, st, t1, t2, t3, t4, t5, l'.
  do 5 (split; [reflexivity|]). split; [exact Hf|].
  split; [exact Hrun'|]. split; [exact Hget|]. split.
  - intros ->. unfold parse_mq. rewrite Hlines. unfold parse_lines.
    now rewrite Hrun'.
  - intros result Hparse Hlater. unfold parse_mq in Hparse.
    rewrite Hlines in Hparse.
    assert (Hpre : before_sentinel pre = pre).
    { pose proof (run_spec pre init_locals) as Hsp. rewrite Hrun in Hsp.
      apply Hsp. }
    assert (Hns : String.eqb (Py.lower line) MAILQ_EMPTY = false).
    { destruct (String.eqb (Py.lower line) MAILQ_EMPTY) eqn:E; [|reflexivity].
      apply sentinel_not_hex in E. congruence. }
    assert (Hbs : before_sentinel (pre ++ line :: rest)
                  = (pre ++ [line]) ++ before_sentinel rest).
    { rewrite before_sentinel_app by assumption. simpl. rewrite Hns.
      now rewrite <- app_assoc. }
    assert (Hentry : header_entry line = Some (q, b))
      by (unfold header_entry; now rewrite Hhex, Hf).
    assert (Hkey : In q (keys result)).
    { rewrite <- keys_summary, (parse_lines_summary _ _ Hparse).
      rewrite keys_fold_register. apply existsb_eqb_in.
      rewrite existsb_first_occurrences. apply existsb_eqb_in.
      rewrite Hbs. unfold header_ids. apply in_flat_map.
      exists line. split; [apply in_or_app; left; apply in_or_app; right; now left|].
      rewrite Hentry. now left. }
    destruct (od_get q result) as [m|] eqn:Hm;
      [|now apply od_get_none in Hm].
    destruct (parse_lines_stored _ _ Hparse q m Hm) as (b' & Hlast & Hrec).
    rewrite Hbs in Hlast.
    rewrite last_header_app_absent in Hlast
      by (intros H; apply Hlater; now apply header_ids_before_sentinel).
    rewrite last_header_snoc, Hentry in Hlast. cbn [fst snd] in Hlast.
    rewrite String.eqb_refl in Hlast. injection Hlast as <-.
    destruct Hrec as [_ [-> | (gs & -> & _)]]; [now left|].
    right. exists gs. reflexivity.
Qed.

Lemma C10_header_extraction_witness :
  exists q st size t2 t3 t4 t5 l',
    nth_error (Py.split (nth 4 listing_two EmptyString)) 1 = Some size
    /\ nth_error (Py.split (nth 4 listing_two EmptyString)) 2 = Some t2
    /\ nth_error (Py.split (nth 4 listing_two EmptyString)) 3 = Some t3
    /\ nth_error (Py.split (nth 4 listing_two EmptyString)) 4 = Some t4
    /\ nth_error (Py.split (nth 4 listing_two EmptyString)) 5 = Some t5
    /\ header_fields (nth 4 listing_two EmptyString)
       = Ok (q, [ ("size", VStr size);
                  ("rawdate",
                   VStr (t2 ++ " " ++ t3 ++ " " ++ t4 ++ " " ++ t5)%string);
                  ("sender",
                   VStr (List.last (Py.split (nth 4 listing_two EmptyString))
                           EmptyString));
                  ("status", VStr st) ])
    /\ run init_locals (firstn 4 listing_two ++ [nth 4 listing_two EmptyString])
       = Continue l'
    /\ od_get q (msgs l')
       = Some [ ("size", VStr size);
                ("rawdate",
                 VStr (t2 ++ " " ++ t3 ++ " " ++ t4 ++ " " ++ t5)%string);
                ("sender",
                 VStr (List.last (Py.split (nth 4 listing_two EmptyString))
                         EmptyString));
                ("status", VStr st) ]
    /\ (skipn 5 listing_two = [] -> parse_mq listing_text = Ok (msgs l'))
    /\ (forall result,
          parse_mq listing_text = Ok result ->
          ~ In q (header_ids (skipn 5 listing_two)) ->
          od_get q result
          = Some [ ("size", VStr size);
                   ("rawdate",
                    VStr (t2 ++ " " ++ t3 ++ " " ++ t4 ++ " " ++ t5)%string);
                   ("sender",
                    VStr (List.last (Py.split (nth 4 listing_two EmptyString))
                            EmptyString));
                   ("status", VStr st) ]
          \/ exists gs,
               od_get q result
               = Some [ ("size", VStr size);
                        ("rawdate",
                         VStr (t2 ++ " " ++ t3 ++ " " ++ t4 ++ " " ++ t5)%string);
                        ("sender",
                         VStr (List.last
                                 (Py.split (nth 4 listing_two EmptyString))
                                 EmptyString));
                        ("status", VStr st);
                        ("recipients", VRecipients gs) ]).
Proof.
  apply (C10_header_extraction_total listing_text
           (firstn 4 listing_two) (skipn 5 listing_two)
           {| msgs := [("A1", rec_active)];
              cur_msg := Some "A1"; addresses := Some ["rcpt@example.com"];
              reason := None;
              recipients := Some [ {| r_addresses := ["rcpt@example.com"];
                                      r_reason := None |} ];
              linked := true; state := MQ_STATE_MSG_DATA |}
           (nth 4 listing_two EmptyString)).
  - vm_compute. reflexivity.
  - vm_compute. reflexivity.
  - discriminate.
  - reflexivity.
  - vm_compute. lia.
Defined.

(** C10 as it was written fails after the footer: the last line below begins
    with a hexadecimal digit and has six tokens, yet nothing is stored for
    it; the parse that returns one record without the line ends in
    [sys.exit(1)] with it. *)
Lemma C10_counterexample :
  is_hex_line (nth 4 late_header_listing EmptyString) = true
  /\ List.length (Py.split (nth 4 late_header_listing EmptyString)) = 6%nat
  /\ parse_lines (firstn 4 late_header_listing) = Ok [("A1", rec_active)]
  /\ parse_lines late_header_listing
     = Raise (SystemExit 1 "Unexpected input: %s")
  /\ parse_mq (Py.join newline late_header_listing)
     = Raise (SystemExit 1 "Unexpected input: %s").
Proof. repeat split; vm_compute; reflexivity. Qed.

(** ** Counting the records *)

Lemma first_occurrences_length (l : list string) :
  (List.length (first_occurrences l) <= List.length l)%nat.
Proof.
  induction l as [|x l IH]; simpl; [lia|].
  pose proof (filter_length_le (fun y => negb (String.eqb y x))
                (first_occurrences l)).
  lia.
Qed.

Lemma first_occurrences_nodup_id (l : list string) :
  NoDup l -> first_occurrences l = l.
Proof.
  induction 1 as [|x l Hni Hnd IH]; simpl; [reflexivity|].
  rewrite IH. f_equal. apply filter_ne_absent.
  destruct (existsb (String.eqb x) l) eqn:E; [|reflexivity].
  apply existsb_eqb_in in E. contradiction.
Qed.

(** X5.  The number of records of a successful parse is at most the number
    of header lines read; a header whose identifier was seen before adds no
    record; and when all identifiers differ the keys are the identifiers of
    the header lines, one record each. *)
Theorem X5_record_count (lines : list string) (result : dict msg) :
  parse_lines lines = Ok result ->
  (List.length result <= List.length (header_ids (before_sentinel lines)))%nat
  /\ (NoDup (header_ids (before_sentinel lines)) ->
      keys result = header_ids (before_sentinel lines)
      /\ List.length result
         = List.length (header_ids (before_sentinel lines))).
Proof.
  intros Hparse.
  assert (Hkeys : keys result
                  = first_occurrences (header_ids (before_sentinel lines))).
  { rewrite <- keys_summary, (parse_lines_summary _ _ Hparse).
    apply keys_fold_register. }
  assert (Hlen : List.length result = List.length (keys result))
    by (unfold keys; now rewrite length_map).
  split.
  - rewrite Hlen, Hkeys. apply first_occurrences_length.
  - intros Hnd. rewrite Hlen, Hkeys, (first_occurrences_nodup_id _ Hnd). auto.
Qed.

Lemma X5_record_count_witness :
  (List.length [("A1", rec_active); ("B2", rec_deferred)]
   <= List.length (header_ids (before_sentinel listing_two)))%nat
  /\ (NoDup (header_ids (before_sentinel listing_two)) ->
      keys [("A1", rec_active); ("B2", rec_deferred)]
      = header_ids (before_sentinel listing_two)
      /\ List.length [("A1", rec_active); ("B2", rec_deferred)]
         = List.length (header_ids (before_sentinel listing_two))).
Proof.
  apply (X5_record_count listing_two [("A1", rec_active); ("B2", rec_deferred)]).
  vm_compute. reflexivity.
Defined.

(** ** Tokens and the raw timestamp *)

Lemma append_assoc (a b c : string) :
  ((a ++ b) ++ c)%string = (a ++ (b ++ c))%string.
Proof. induction a as [|x a IH]; simpl; [reflexivity | now rewrite IH]. Qed.

Lemma no_space_snoc (t : string) (c : ascii) :
  no_space t = true -> Py.isspace c = false -> no_space (Py.snoc t c) = true.
Proof.
  unfold Py.snoc. induction t as [|x t IH]; simpl; intros Ht Hc.
  - now rewrite Hc.
  - apply andb_prop in Ht as [Hx Ht]. now rewrite Hx, IH.
Qed.

Lemma snoc_nonempty (t : string) (c : ascii) : Py.is_empty (Py.snoc t c) = false.
Proof. destruct t; reflexivity. Qed.

Lemma split_go_tokens (s : string) :
  forall tok,
    no_space tok = true ->
    Forall (fun t => is_token t = true) (Py.split_go tok s).
Proof.
  induction s as [|c s IH]; intros tok Htok; simpl.
  - destruct (Py.is_empty tok) eqn:E; constructor; [|constructor].
    unfold is_token. now rewrite E, Htok.
  - destruct (Py.isspace c) eqn:Ec.
    + destruct (Py.is_empty tok) eqn:E; [now apply IH|].
      constructor; [unfold is_token; now rewrite E, Htok | now apply IH].
    + apply IH. now apply no_space_snoc.
Qed.

Lemma split_tokens (s : string) :
  Forall (fun t => is_token t = true) (Py.split s).
Proof. now apply split_go_tokens. Qed.

Lemma split_go_run (t : string) :
  forall acc s,
    no_space t = true ->
    Py.split_go acc (t ++ s)%string = Py.split_go (acc ++ t)%string s.
Proof.
  induction t as [|c t IH]; intros acc s Ht; simpl.
  - now rewrite append_empty.
  - simpl in Ht. apply andb_prop in Ht as [Hc Ht].
    apply negb_true_iff in Hc. rewrite Hc, IH by assumption.
    unfold Py.snoc. now rewrite append_assoc.
Qed.

(** Splitting the tokens joined by single spaces gives the tokens back. *)
Lemma split_join (toks : list string) :
  Forall (fun t => is_token t = true) toks ->
  Py.split (Py.join " " toks) = toks.
Proof.
  unfold Py.split. induction 1 as [|x toks Hx Hall IH]; [reflexivity|].
  unfold is_token in Hx. apply andb_prop in Hx as [Hne Hns].
  apply negb_true_iff in Hne.
  destruct toks as [|y toks].
  - simpl. rewrite <- (append_empty x) at 1.
    rewrite split_go_run by assumption. simpl. now rewrite Hne.
  - change (Py.join " " (x :: y :: toks))
      with (x ++ String " "%char (Py.join " " (y :: toks)))%string.
    rewrite split_go_run by assumption. simpl append.
    cbn [Py.split_go]. change (Py.isspace " "%char) with true. cbv iota.
    rewrite Hne. now rewrite IH.
Qed.

Lemma Forall_firstn_keep {A : Type} (P : A -> Prop) (n : nat) (l : list A) :
  Forall P l -> Forall P (firstn n l).
Proof.
  intros H. revert n. induction H as [|x l Hx H IH]; intros [|n]; simpl;
    constructor; auto.
Qed.

Lemma Forall_skipn_keep {A : Type} (P : A -> Prop) (n : nat) (l : list A) :
  Forall P l -> Forall P (skipn n l).
Proof.
  intros H. revert n. induction H as [|x l Hx H IH]; intros [|n]; simpl;
    auto.
Qed.

Lemma Forall_slice {A : Type} (P : A -> Prop) (i j : nat) (l : list A) :
  Forall P l -> Forall P (Py.slice i j l).
Proof.
  intros H. unfold Py.slice. now apply Forall_firstn_keep, Forall_skipn_keep.
Qed.

Lemma slice_length_short {A : Type} (l : list A) :
  (List.length l < 6)%nat -> (List.length (Py.slice 2 6 l) < 4)%nat.
Proof.
  intros H. unfold Py.slice. rewrite length_firstn, length_skipn. lia.
Qed.

(** X6.  The raw timestamp stored for a header line splits back into the
    tokens 2 to 5 of the line, so these are the four tokens the date
    normalizer unpacks; for a header of fewer than six tokens the stored raw
    timestamp has fewer than four and the normalizer refuses it with
    [ValueError], whatever the reference time is. *)
Theorem X6_rawdate_tokens (line q : string) (m : msg) :
  header_entry line = Some (q, m) ->
  exists raw,
    od_get "rawdate" m = Some (VStr raw)
    /\ Py.split raw = Py.slice 2 6 (Py.split line)
    /\ ((List.length (Py.split line) < 6)%nat ->
        forall now, parse_mailq_date raw now = Raise ValueError).
Proof.
  intros He. apply header_entry_inv in He as [_ Hf].
  apply header_fields_inv in Hf
    as (tok0 & rest & st & size & sender & _ & _ & _ & _ & ->).
  exists (Py.join " " (Py.slice 2 6 (Py.split line))).
  assert (Hsplit : Py.split (Py.join " " (Py.slice 2 6 (Py.split line)))
                   = Py.slice 2 6 (Py.split line))
    by (apply split_join, Forall_slice, split_tokens).
  split; [reflexivity|]. split; [assumption|].
  intros Hlen now. apply slice_length_short in Hlen.
  unfold parse_mailq_date, resolve_date. rewrite Hsplit.
  destruct (Py.slice 2 6 (Py.split line)) as [|a [|b [|c [|d [|e r]]]]];
    simpl in Hlen; try reflexivity; lia.
Qed.

Lemma X6_rawdate_tokens_witness :
  exists raw,
    od_get "rawdate"
      [ ("size", VStr "1024"); ("rawdate", VStr "Jan 5 10:00:00");
        ("sender", VStr "10:00:00"); ("status", VStr "active") ]
    = Some (VStr raw)
    /\ Py.split raw = Py.slice 2 6 (Py.split "ABC123* 1024 Jan 5 10:00:00")
    /\ ((List.length (Py.split "ABC123* 1024 Jan 5 10:00:00") < 6)%nat ->
        forall now, parse_mailq_date raw now = Raise ValueError).
Proof.
  apply (X6_rawdate_tokens "ABC123* 1024 Jan 5 10:00:00" "ABC123").
  vm_compute. reflexivity.
Defined.

(** ** The resolved time *)

Lemma dt_gtb_year_before (c now : datetime) :
  year c = year now - 1 -> dt_gtb c now = false.
Proof.
  intros H. unfold dt_gtb, dt_fields, lex_gtb. rewrite H.
  destruct (Z.eqb_spec (year now - 1) (year now)); [lia|].
  apply Z.ltb_ge. lia.
Qed.

(** X7.  A timestamp that the normalizer resolves is never after the
    reference time, it is in the year of the reference time or the year
    before, and it is a date of the calendar. *)
Theorem X7_resolved_not_after_now (d : string) (now c : datetime) :
  resolve_date d now = Ok c ->
  dt_gtb c now = false
  /\ (year c = year now \/ year c = year now - 1)
  /\ valid_dt c
  /\ (valid_dt now -> naive_micros c <= naive_micros now).
Proof.
  intros Hres.
  assert (H : dt_gtb c now = false
              /\ (year c = year now \/ year c = year now - 1) /\ valid_dt c).
  { unfold resolve_date in Hres.
    destruct (Py.split d) as [|wd [|mon [|dd [|tm [|x r]]]]]; try discriminate.
    destruct (Py.split_on ":"%char tm) as [|h [|mi [|s [|y r]]]];
      try discriminate.
    destruct (build_date (year now) mon dd h mi s) as [c0|] eqn:Eb;
      [|discriminate].
    cbn [bind] in Hres. destruct (dt_gtb c0 now) eqn:Egt.
    - pose proof (build_date_valid _ _ _ _ _ _ _ Hres) as Hv.
      apply build_date_inv in Hres as (? & ? & ? & ? & ? & _ & _ & _ & _ & _ & ->).
      split; [now apply dt_gtb_year_before|]. split; [now right | assumption].
    - injection Hres as <-.
      pose proof (build_date_valid _ _ _ _ _ _ _ Eb) as Hv.
      apply build_date_inv in Eb as (? & ? & ? & ? & ? & _ & _ & _ & _ & _ & ->).
      split; [assumption|]. split; [now left | assumption]. }
  destruct H as (Hgt & Hy & Hv).
  split; [assumption|]. split; [assumption|]. split; [assumption|].
  intros Hnow. destruct (Z.le_gt_cases (naive_micros c) (naive_micros now))
    as [Hle|Hlt]; [assumption|].
  apply (dt_gtb_chronological c now Hv Hnow) in Hlt. congruence.
Qed.

Lemma X7_resolved_not_after_now_witness :
  dt_gtb {| year := 2025; month := 12; day := 31;
            hour := 23; minute := 59; second := 59; microsecond := 0 |}
    (jan1 2026) = false
  /\ (2025 = year (jan1 2026) \/ 2025 = year (jan1 2026) - 1)
  /\ valid_dt {| year := 2025; month := 12; day := 31;
                 hour := 23; minute := 59; second := 59; microsecond := 0 |}
  /\ (valid_dt (jan1 2026) ->
      naive_micros {| year := 2025; month := 12; day := 31;
                      hour := 23; minute := 59; second := 59;
                      microsecond := 0 |}
      <= naive_micros (jan1 2026)).
Proof.
  apply (X7_resolved_not_after_now "Wed Dec 31 23:59:59" (jan1 2026)).
  vm_compute. reflexivity.
Defined.

(** X8.  With a reference time in a year that is not a leap year, a raw
    timestamp of 29 February is never resolved: the candidate of the
    reference year is refused and the year before is not tried. *)
Theorem X8_feb_29_refused (d wd time_str : string) (now : datetime) :
  is_leap (year now) = false ->
  Py.split d = [wd; "Feb"; "29"; time_str] ->
  exists e, parse_mailq_date d now = Raise e.
Proof.
  intros Hleap Hsplit. unfold parse_mailq_date, resolve_date. rewrite Hsplit.
  destruct (Py.split_on ":"%char time_str) as [|h [|mi [|s [|y r]]]];
    try (eexists; reflexivity).
  assert (Hb : exists e, build_date (year now) "Feb" "29" h mi s = Raise e).
  { unfold build_date.
    change (od_get "Feb" MONTH_MAP) with (Some 2).
    change (Py.int "29") with (Some 29). cbn [of_option bind].
    destruct (Py.int h) as [hh|]; cbn [of_option bind]; [|eauto].
    destruct (Py.int mi) as [mm|]; cbn [of_option bind]; [|eauto].
    destruct (Py.int s) as [ss|]; cbn [of_option bind]; [|eauto].
    unfold new_datetime.
    destruct (negb (forallb fits_c_int [year now; 2; 29; hh; mm; ss])); [eauto|].
    replace (in_range 1 (days_in_month (year now) 2) 29) with false
      by (unfold days_in_month; rewrite Hleap; reflexivity).
    rewrite andb_false_r. simpl. eauto. }
  destruct Hb as [e ->]. exists e. reflexivity.
Qed.

Lemma X8_feb_29_refused_witness :
  exists e, parse_mailq_date "Thu Feb 29 12:00:00" (jan1 2025) = Raise e.
Proof.
  apply (X8_feb_29_refused "Thu Feb 29 12:00:00" "Thu" "12:00:00" (jan1 2025));
    reflexivity.
Defined.

(** ** The date pass *)

Lemma date_of_value_inv (v : pyval) (now : datetime) (t : Z) :
  date_of_value (Some v) now = Ok t ->
  exists raw, v = VStr raw /\ parse_mailq_date raw now = Ok t.
Proof.
  destruct v as [raw| |]; simpl; try discriminate. intros H. now exists raw.
Qed.

Lemma parse_msg_dates_loop_spec (now : datetime) (items : list (string * msg)) :
  forall acc out,
    NoDup (keys acc ++ keys items) ->
    parse_msg_dates_loop now items acc = Ok out ->
    exists new, out = acc ++ new
                /\ Forall2 (dated now) (filter lacks_date items) new.
Proof.
  induction items as [|[k m] items IH]; intros acc out Hnd.
  - simpl. intros [= <-]. exists []. split; [now rewrite app_nil_r | constructor].
  - apply nodup_keys_cons_inv in Hnd as (Hk & Hrest & Hsnoc).
    cbn [parse_msg_dates_loop filter]. unfold lacks_date at 1. cbn [snd].
    destruct (od_mem "date" m); cbn [negb].
    + now apply IH.
    + destruct (od_get "rawdate" m) as [raw|] eqn:Eraw; [|discriminate].
      cbn [of_option bind].
      destruct (date_of_value (Some raw) now) as [t|] eqn:Et;
        [|intros H; discriminate H].
      cbn [bind]. rewrite od_set_absent by assumption.
      intros H. apply IH in H as (new & -> & HF); [|apply Hsnoc].
      exists ((k, od_set "date" (VFloat t) m) :: new). split.
      * now rewrite <- app_assoc.
      * constructor; [|assumption].
        apply date_of_value_inv in Et as (r & -> & Hp).
        split; [reflexivity|]. now exists r, t.
Qed.

(** X9.  The date pass returns, in their order, the records that had no
    date, each with the resolved time of its raw timestamp stored under the
    key date and nothing else changed; a record that already has a date is
    left out of the result. *)
Theorem X9_date_pass (d out : dict msg) (now : datetime) :
  NoDup (keys d) ->
  parse_msg_dates d now = Ok out ->
  Forall2 (dated now) (filter lacks_date d) out.
Proof.
  intros Hnd H. unfold parse_msg_dates in H.
  apply parse_msg_dates_loop_spec in H as (new & -> & HF); assumption.
Qed.

Lemma X9_date_pass_witness :
  Forall2 (dated (jan1 2026))
    (filter lacks_date [("A1", rec_active); ("B2", rec_deferred)])
    [ ("A1", od_set "date" (VFloat 1736071200) rec_active);
      ("B2", od_set "date" (VFloat 1736071201) rec_deferred) ].
Proof.
  apply (X9_date_pass [("A1", rec_active); ("B2", rec_deferred)]).
  - exact sample_keys_nodup.
  - vm_compute. reflexivity.
Defined.

Lemma od_mem_set_same {V : Type} (k : string) (v : V) (d : dict V) :
  od_mem k (od_set k v d) = true.
Proof. unfold od_mem. now rewrite od_get_set_same. Qed.

Lemma parse_msg_dates_loop_all_dated (now : datetime)
    (items : list (string * msg)) :
  forall acc out,
    Forall (fun kv => od_mem "date" (snd kv) = true) acc ->
    parse_msg_dates_loop now items acc = Ok out ->
    Forall (fun kv => od_mem "date" (snd kv) = true) out.
Proof.
  induction items as [|[k m] items IH]; intros acc out Hacc.
  - simpl. now intros [= <-].
  - cbn [parse_msg_dates_loop]. destruct (od_mem "date" m); [now apply IH|].
    destruct (od_get "rawdate" m) as [raw|]; [|discriminate].
    cbn [of_option bind].
    destruct (date_of_value (Some raw) now) as [t|]; [|intros H; discriminate H].
    cbn [bind]. apply IH. apply Forall_forall. intros [k' m'] Hin.
    apply in_od_set in Hin as [Heq|Hin].
    + injection Heq as -> ->. apply od_mem_set_same.
    + revert Hin. apply (proj1 (Forall_forall _ _) Hacc).
Qed.

Lemma parse_msg_dates_loop_skip (now : datetime) (items : list (string * msg)) :
  forall acc,
    Forall (fun kv => od_mem "date" (snd kv) = true) items ->
    parse_msg_dates_loop now items acc = Ok acc.
Proof.
  induction items as [|[k m] items IH]; intros acc H; [reflexivity|].
  inversion H as [|? ? Hm Hrest]; subst. cbn [parse_msg_dates_loop].
  simpl in Hm. rewrite Hm. now apply IH.
Qed.

(** X10.  The date pass is not to be run twice: on its own result, whatever
    the reference time, it returns the empty collection, since every record
    has a date by then. *)
Theorem X10_date_pass_twice (d out : dict msg) (now now' : datetime) :
  parse_msg_dates d now = Ok out ->
  Forall (fun kv => od_mem "date" (snd kv) = true) out
  /\ parse_msg_dates out now' = Ok [].
Proof.
  intros H. unfold parse_msg_dates in *.
  apply parse_msg_dates_loop_all_dated in H; [|constructor].
  split; [assumption|]. now apply parse_msg_dates_loop_skip.
Qed.

Lemma X10_date_pass_twice_witness :
  Forall (fun kv => od_mem "date" (snd kv) = true)
    [ ("A1", od_set "date" (VFloat 1736071200) rec_active);
      ("B2", od_set "date" (VFloat 1736071201) rec_deferred) ]
  /\ parse_msg_dates
       [ ("A1", od_set "date" (VFloat 1736071200) rec_active);
         ("B2", od_set "date" (VFloat 1736071201) rec_deferred) ]
       (jan1 2027)
     = Ok [].
Proof.
  apply (X10_date_pass_twice [("A1", rec_active); ("B2", rec_deferred)] _
           (jan1 2026) (jan1 2027)).
  vm_compute. reflexivity.
Defined.

(** ** The legacy transform *)

Lemma flattened_length (groups : list recipient) :
  List.length (flattened groups)
  = list_sum (map (fun g => List.length (r_addresses g)) groups).
Proof.
  unfold flattened. induction groups as [|g groups IH]; simpl; [reflexivity|].
  now rewrite length_app, length_map, IH.
Qed.

(** X11.  When the legacy transform returns an object, every group of the
    record carries a reason, the recipients of the object are the addresses
    of the groups in order, each with the reason of its group, as many as
    there are addresses; the arrival time is the resolved raw timestamp and
    the other fields are those of the record. *)
Theorem X11_transform_result (queue : string) (m : msg) (now : datetime)
    (p : p3m) :
  convert_to_postfix31 queue m now = Ok p ->
  exists raw v groups,
    od_get "rawdate" m = Some (VStr raw)
    /\ parse_mailq_date raw now = Ok (arrival_time p)
    /\ od_get "recipients" m = Some v
    /\ as_recipients v = Ok groups
    /\ Forall (fun g => r_reason g <> None) groups
    /\ p3_recipients p = flattened groups
    /\ List.length (p3_recipients p)
       = list_sum (map (fun g => List.length (r_addresses g)) groups)
    /\ queue_id p = queue
    /\ queue_name p = od_get "status" m
    /\ message_size p = od_get "size" m
    /\ sender p = od_get "sender" m.
Proof.
  unfold convert_to_postfix31.
  destruct (od_get "rawdate" m) as [rv|] eqn:Eraw;
    [|intros H; discriminate H].
  destruct (date_of_value (Some rv) now) as [t|] eqn:Et;
    [|intros H; discriminate H].
  cbn [bind].
  destruct (od_get "recipients" m) as [v|] eqn:Ev; [|discriminate].
  cbn [of_option bind].
  destruct (as_recipients v) as [groups|] eqn:Eg; [|discriminate].
  cbn [bind].
  destruct (p3_groups groups []) as [rs|] eqn:Ep; [|discriminate].
  cbn [bind]. intros [= <-]. cbn.
  apply date_of_value_inv in Et as (raw & -> & Ht).
  apply p3_groups_spec in Ep as [-> HF]. simpl app.
  exists raw, v, groups. repeat split; auto.
  apply flattened_length.
Qed.

Lemma X11_transform_result_witness :
  exists raw v groups,
    od_get "rawdate" rec_deferred = Some (VStr raw)
    /\ parse_mailq_date raw (jan1 2026) = Ok 1736071201
    /\ od_get "recipients" rec_deferred = Some v
    /\ as_recipients v = Ok groups
    /\ Forall (fun g => r_reason g <> None) groups
    /\ [ {| delay_reason := "connection timed out";
            address := "r1@example.com" |};
         {| delay_reason := "connection timed out";
            address := "r2@example.com" |} ]
       = flattened groups
    /\ List.length
         [ {| delay_reason := "connection timed out";
              address := "r1@example.com" |};
           {| delay_reason := "connection timed out";
              address := "r2@example.com" |} ]
       = list_sum (map (fun g => List.length (r_addresses g)) groups)
    /\ "B2" = "B2"
    /\ Some (VStr "deferred") = od_get "status" rec_deferred
    /\ Some (VStr "2048") = od_get "size" rec_deferred
    /\ Some (VStr "s@example.com") = od_get "sender" rec_deferred.
Proof.
  apply (X11_transform_result "B2" rec_deferred (jan1 2026)
           {| queue_name := Some (VStr "deferred");
              queue_id := "B2";
              arrival_time := 1736071201;
              message_size := Some (VStr "2048");
              sender := Some (VStr "s@example.com");
              p3_recipients :=
                [ {| delay_reason := "connection timed out";
                     address := "r1@example.com" |};
                  {| delay_reason := "connection timed out";
                     address := "r2@example.com" |} ] |}).
  vm_compute. reflexivity.
Defined.

(** ** Filters on parsed collections, and how filters compose *)

Lemma select_items_total (test : msg -> res bool) (p : string * msg -> bool)
    (d : dict msg) :
  (forall kv, In kv d -> test (snd kv) = Ok (p kv)) ->
  select_items test d = Ok (filter p d).
Proof.
  induction d as [|[k m] d IH]; intros H; simpl; [reflexivity|].
  pose proof (H (k, m) (or_introl eq_refl)) as Hk. simpl in Hk.
  rewrite Hk. cbn [bind].
  rewrite IH by (intros kv Hin; apply H; now right). reflexivity.
Qed.

Lemma record_of_sender (b m : msg) :
  record_of b m -> exists s, od_get "sender" m = Some (VStr s).
Proof.
  intros [(size & raw & sender & st & ->) [-> | (gs & -> & _)]];
    now exists sender.
Qed.

Lemma record_of_no_date (b m : msg) : record_of b m -> od_get "date" m = None.
Proof.
  intros [(size & raw & sender & st & ->) [-> | (gs & -> & _)]]; reflexivity.
Qed.

Lemma parsed_record (lines : list string) (result : dict msg)
    (kv : string * msg) :
  parse_lines lines = Ok result -> In kv result ->
  exists b, record_of b (snd kv).
Proof.
  intros Hparse Hin. destruct kv as [k m].
  destruct (parse_lines_stored lines result Hparse k m) as (b & _ & Hb).
  - apply od_get_nodup; [now apply (parse_lines_nodup lines) | assumption].
  - now exists b.
Qed.


Section MoreFilterFacts.

Variable regex : Type.
Variable re_compile : string -> option regex.
Variable re_search : regex -> string -> bool.
Variable fromtimestamp : Z -> res Z.
Variable strftime_local : pyval -> res string.

(** X12.  On a collection that the parser returned, the sender filter never
    raises for a pattern that compiles: every record has a sender that is a
    string, and the result is the records whose sender the pattern finds,
    in their order. *)
Theorem X12_sender_filter_on_parsed (lines : list string) (d : dict msg)
    (pattern : string) :
  parse_lines lines = Ok d ->
  filter_on_msg_key regex re_compile re_search d pattern "sender"
  = match re_compile pattern with
    | Some pat => Ok (filter (sender_found re_search pat) d)
    | None => Raise ReError
    end.
Proof.
  intros Hparse. unfold filter_on_msg_key.
  destruct (re_compile pattern) as [pat|]; [|reflexivity].
  cbn [of_option bind].
  rewrite select_then_dict by now apply (parse_lines_nodup lines).
  apply select_items_total. intros kv Hin.
  destruct (parsed_record lines d kv Hparse Hin) as (b & Hb).
  destruct (record_of_sender b (snd kv) Hb) as (s & Hs).
  unfold key_matches, sender_found. now rewrite Hs.
Qed.


Lemma format_no_date (d : dict msg) :
  (forall kv, In kv d -> od_get "date" (snd kv) = None) ->
  format_msgs_for_output strftime_local d = Ok d.
Proof.
  induction d as [|[k m] d IH]; intros H; simpl; [reflexivity|].
  pose proof (H (k, m) (or_introl eq_refl)) as Hk. simpl in Hk.
  rewrite Hk. cbn [bind].
  rewrite IH by (intros kv Hin; apply H; now right). reflexivity.
Qed.

(** X14.  A run with no option but the output ones hands to the output the
    collection that the parser returns for the listing, as it is (the
    formatting changes nothing, no record having a date), whichever output
    options are set: with the count option the number of its records is
    printed; with the YAML option the collection, or nothing and exit status
    1 when the YAML module cannot be imported; with the legacy option the
    conversions of its records in order, up to the first conversion that
    raises; otherwise the collection as JSON.  When the parser raises,
    nothing is printed and the run ends in that exception. *)
Theorem X14_plain_run (mailq_data : option string)
    (json yaml count postfix3 : bool) (w : world) :
  main regex re_compile re_search fromtimestamp strftime_local
    (plain_args mailq_data json yaml count postfix3) w
  = match parse_mq (w_listing w) with
    | Raise e => ([], Raise e)
    | Ok d =>
        if count then ([PCount (List.length d)], Ok tt)
        else if yaml then
          if w_yaml w then ([PYaml d], Ok tt)
          else ([], Raise (SystemExit 1
                  "Error: Can't import yaml. Try installing PyYAML."))
        else if postfix3 then postfix3_loop (w_now w) d
        else ([PJson d], Ok tt)
    end.
Proof.
  assert (Hsel : select regex re_compile re_search fromtimestamp
                   (plain_args mailq_data json yaml count postfix3) w
                 = parse_mq (w_listing w)).
  { unfold select. simpl.
    destruct (parse_mq (w_listing w)) as [d|] eqn:Ep; [|reflexivity].
    cbn [bind]. unfold od_update.
    rewrite fold_od_set_nodup; [reflexivity|].
    simpl. now apply (parse_lines_nodup _ _ Ep). }
  unfold main.
  change (parse_args (plain_args mailq_data json yaml count postfix3))
    with (Ok (plain_args mailq_data json yaml count postfix3)).
  cbv iota. rewrite Hsel.
  destruct (parse_mq (w_listing w)) as [d|] eqn:Ep; [|reflexivity].
  unfold output_msgs. cbn [a_count a_yaml a_postfix3 plain_args].
  destruct count; [reflexivity|].
  rewrite format_no_date; [reflexivity|].
  intros kv Hin. destruct (parsed_record _ d kv Ep Hin) as (b & Hb).
  now apply (record_of_no_date b).
Qed.

End MoreFilterFacts.

Lemma X12_sender_filter_on_parsed_witness :
  filter_on_msg_key string lit_compile lit_search
    [("A1", rec_active); ("B2", rec_deferred)] "USER@" "sender"
  = match lit_compile "USER@" with
    | Some pat =>
        Ok (filter (sender_found lit_search pat)
              [("A1", rec_active); ("B2", rec_deferred)])
    | None => Raise ReError
    end.
Proof.
  apply (X12_sender_filter_on_parsed string lit_compile lit_search listing_two).
  vm_compute. reflexivity.
Defined.


(** The legacy output on the sample listing: the first record is Active,
    its group has no reason, and the run ends before anything is printed. *)
Example plain_run_legacy_output :
  main string lit_compile lit_search utc_local (fun _ => Ok EmptyString)
    (plain_args None false false false true)
    {| w_listing := listing_text; w_log := Ok []; w_now := jan1 2026;
       w_yaml := false |}
  = ([], Raise (KeyError "reason"))
  /\ main string lit_compile lit_search utc_local (fun _ => Ok EmptyString)
       (plain_args None false true false true)
       {| w_listing := listing_text; w_log := Ok []; w_now := jan1 2026;
          w_yaml := false |}
     = ([], Raise (SystemExit 1
                     "Error: Can't import yaml. Try installing PyYAML.")).
Proof. split; vm_compute; reflexivity. Qed.

(** X15.  On a collection with no key twice, the two status filters split
    it: each returns its records in their order, every record is in exactly
    one of the two results, and the two sizes add up to the size of the
    collection. *)
Theorem X15_active_split (d : dict msg) :
  NoDup (keys d) ->
  only_active d = Ok (filter (fun kv => status_is "active" (snd kv)) d)
  /\ exclude_active d
     = Ok (filter (fun kv => negb (status_is "active" (snd kv))) d)
  /\ (List.length (filter (fun kv => status_is "active" (snd kv)) d)
      + List.length (filter (fun kv => negb (status_is "active" (snd kv))) d)
      = List.length d)%nat
  /\ (forall kv,
        In kv d ->
        (In kv (filter (fun kv => status_is "active" (snd kv)) d)
         /\ ~ In kv (filter (fun kv => negb (status_is "active" (snd kv))) d))
        \/ (In kv (filter (fun kv => negb (status_is "active" (snd kv))) d)
            /\ ~ In kv (filter (fun kv => status_is "active" (snd kv)) d))).
Proof.
  intros Hnd. split; [|split; [|split]].
  - unfold only_active. rewrite select_then_dict by assumption.
    now apply select_items_total.
  - unfold exclude_active. rewrite select_then_dict by assumption.
    now apply select_items_total.
  - apply filter_length.
  - intros kv Hin. rewrite !filter_In.
    destruct (status_is "active" (snd kv)); simpl.
    + left. split; [auto | intros [_ H]; discriminate H].
    + right. split; [auto | intros [_ H]; discriminate H].
Qed.

Lemma X15_active_split_witness :
  only_active [("A1", rec_active); ("B2", rec_deferred)]
  = Ok (filter (fun kv => status_is "active" (snd kv))
          [("A1", rec_active); ("B2", rec_deferred)])
  /\ exclude_active [("A1", rec_active); ("B2", rec_deferred)]
     = Ok (filter (fun kv => negb (status_is "active" (snd kv)))
             [("A1", rec_active); ("B2", rec_deferred)])
  /\ (List.length (filter (fun kv => status_is "active" (snd kv))
                     [("A1", rec_active); ("B2", rec_deferred)])
      + List.length (filter (fun kv => negb (status_is "active" (snd kv)))
                       [("A1", rec_active); ("B2", rec_deferred)])
      = List.length [("A1", rec_active); ("B2", rec_deferred)])%nat
  /\ (forall kv,
        In kv [("A1", rec_active); ("B2", rec_deferred)] ->
        (In kv (filter (fun kv => status_is "active" (snd kv))
                  [("A1", rec_active); ("B2", rec_deferred)])
         /\ ~ In kv (filter (fun kv => negb (status_is "active" (snd kv)))
                       [("A1", rec_active); ("B2", rec_deferred)]))
        \/ (In kv (filter (fun kv => negb (status_is "active" (snd kv)))
                     [("A1", rec_active); ("B2", rec_deferred)])
            /\ ~ In kv (filter (fun kv => status_is "active" (snd kv))
                          [("A1", rec_active); ("B2", rec_deferred)]))).
Proof. exact (X15_active_split _ sample_keys_nodup). Defined.

(** ** The command line *)

Lemma last_append_unit (a : string) : Py.last (a ++ "s")%string = Some "s"%char.
Proof.
  induction a as [|c a IH]; [reflexivity|].
  simpl append. cbn [Py.last]. rewrite IH.
  destruct (a ++ "s")%string eqn:E; [|reflexivity].
  destruct a; discriminate E.
Qed.

Lemma check_age_unit (name : string) (age r : option string) (t : string) :
  check_age name age = Ok r -> r = Some t -> Py.truthy t = true ->
  exists c, Py.last t = Some c /\ Py.contains c "smhd" = true.
Proof.
  unfold check_age. destruct age as [a|]; [|intros [= <-]; discriminate].
  destruct (Py.truthy a) eqn:Et.
  - destruct (Py.last a) as [c|] eqn:El; [|discriminate].
    destruct (Py.isdigit c).
    + intros [= <-] [= <-] _. exists "s"%char.
      split; [apply last_append_unit | reflexivity].
    + destruct (Py.contains c "smhd") eqn:Ec; simpl; [|discriminate].
      intros [= <-] [= <-] _. now exists c.
  - intros [= <-] [= <-] Ht. congruence.
Qed.

Lemma age_seconds_bound (age : string) (c : ascii) :
  Py.last age = Some c -> Py.contains c "smhd" = true ->
  age_seconds age <> Ok None.
Proof.
  intros Hl Hc. unfold age_seconds. rewrite Hl. cbn [of_option bind].
  simpl in Hc.
  destruct (Ascii.eqb c "s"%char);
    [destruct (Py.int (Py.drop_last age)); discriminate|].
  destruct (Ascii.eqb c "m"%char);
    [destruct (Py.int (Py.drop_last age)); discriminate|].
  destruct (Ascii.eqb c "h"%char);
    [destruct (Py.int (Py.drop_last age)); discriminate|].
  destruct (Ascii.eqb c "d"%char);
    [destruct (Py.int (Py.drop_last age)); discriminate|].
  discriminate Hc.
Qed.

(** X16.  [parse_args] never ends in [sys.exit]: whenever it refuses the
    options (an age that ends in neither a digit nor a unit, or both status
    options) it ends in [TypeError].  When it accepts them, the two status
    options are not both set, and an age that is given ends in one of the
    units s, m, h, d, so that the age filter always binds its number of
    seconds or raises on the number. *)
Theorem X16_parse_args_outcomes (a : args) :
  match parse_args a with
  | Raise e => e = TypeError
  | Ok a' =>
      (a_exclude_active a' && a_only_active a')%bool = false
      /\ (forall age, a_minage a' = Some age -> Py.truthy age = true ->
                      age_seconds age <> Ok None)
      /\ (forall age, a_maxage a' = Some age -> Py.truthy age = true ->
                      age_seconds age <> Ok None)
  end.
Proof.
  unfold parse_args.
  destruct (check_age_cases "minage" (a_minage a)) as [[r1 H1]|H1];
    rewrite H1; [|reflexivity].
  cbn [bind].
  destruct (check_age_cases "maxage" (a_maxage a)) as [[r2 H2]|H2];
    rewrite H2; [|reflexivity].
  cbn [bind].
  destruct (a_exclude_active a && a_only_active a)%bool eqn:Eb; [reflexivity|].
  cbn [bind]. cbn. split; [assumption|]. split.
  - intros age -> Ht.
    destruct (check_age_unit _ _ _ age H1 eq_refl Ht) as (c & Hl & Hc).
    now apply (age_seconds_bound age c).
  - intros age -> Ht.
    destruct (check_age_unit _ _ _ age H2 eq_refl Ht) as (c & Hl & Hc).
    now apply (age_seconds_bound age c).
Qed.

(** ** Lines and reasons *)

Lemma contains_snoc (ch c : ascii) (tok : string) :
  Py.contains ch (Py.snoc tok c) = (Py.contains ch tok || Ascii.eqb ch c)%bool.
Proof.
  unfold Py.snoc. induction tok as [|x tok IH]; simpl.
  - now rewrite orb_false_r.
  - now rewrite IH, orb_assoc.
Qed.

Lemma linefeed_is_break (c : ascii) :
  Py.islinebreak c = false -> Ascii.eqb "010"%char c = false.
Proof.
  intros H. destruct (Ascii.eqb "010"%char c) eqn:E; [|reflexivity].
  apply Ascii.eqb_eq in E. subst c. discriminate H.
Qed.

Lemma splitlines_go_no_linefeed (n : nat) :
  forall s tok,
    (String.length s <= n)%nat ->
    Py.contains "010"%char tok = false ->
    Forall (fun line => Py.contains "010"%char line = false)
      (Py.splitlines_go tok s).
Proof.
  induction n as [|n IH]; intros s tok Hlen Htok.
  - destruct s; [|simpl in Hlen; lia]. simpl.
    destruct (Py.is_empty tok); constructor; auto.
  - destruct s as [|c r]; simpl.
    + destruct (Py.is_empty tok); constructor; auto.
    + simpl in Hlen. destruct (Ascii.eqb c "013"%char).
      * destruct r as [|c2 r'].
        -- constructor; [assumption|]. apply IH; [simpl; lia | reflexivity].
        -- assert (Hr : Forall (fun line => Py.contains "010"%char line = false)
                           (tok :: Py.splitlines_go EmptyString (String c2 r')))
             by (constructor; [assumption | apply IH; [lia | reflexivity]]).
           assert (Hr' : Forall (fun line => Py.contains "010"%char line = false)
                            (tok :: Py.splitlines_go EmptyString r'))
             by (constructor; [assumption
                              | apply IH; [simpl in Hlen; lia | reflexivity]]).
           destruct c2 as [[] [] [] [] [] [] [] []]; assumption.
      * destruct (Py.islinebreak c) eqn:Eb.
        -- constructor; [assumption|]. apply IH; [lia | reflexivity].
        -- apply IH; [lia|]. rewrite contains_snoc, Htok.
           now rewrite (linefeed_is_break c Eb).
Qed.

Lemma contains_lstrip (ch : ascii) (p : ascii -> bool) (s : string) :
  Py.contains ch s = false -> Py.contains ch (Py.lstrip_by p s) = false.
Proof.
  induction s as [|c s IH]; simpl; [auto|].
  intros H. apply orb_false_elim in H as [Hc Hs].
  destruct (p c); [auto|]. simpl. now rewrite Hc, Hs.
Qed.

Lemma contains_rstrip (ch : ascii) (p : ascii -> bool) (s : string) :
  Py.contains ch s = false -> Py.contains ch (Py.rstrip_by p s) = false.
Proof.
  induction s as [|c s IH]; simpl; [auto|].
  intros H. apply orb_false_elim in H as [Hc Hs].
  destruct (p c && Py.is_empty (Py.rstrip_by p s))%bool; [reflexivity|].
  simpl. now rewrite Hc, IH.
Qed.

Lemma contains_drop_last (ch : ascii) (s : string) :
  Py.contains ch s = false -> Py.contains ch (Py.drop_last s) = false.
Proof.
  induction s as [|c s IH]; simpl; [auto|].
  intros H. apply orb_false_elim in H as [Hc Hs].
  destruct (Py.is_empty s); [reflexivity|]. simpl. now rewrite Hc, IH.
Qed.

Lemma contains_inner (ch : ascii) (s : string) :
  Py.contains ch s = false -> Py.contains ch (Py.inner s) = false.
Proof.
  destruct s as [|c s]; simpl; [auto|].
  intros H. apply orb_false_elim in H as [_ Hs]. now apply contains_drop_last.
Qed.

Lemma replace_absent (a b : ascii) (s : string) :
  Py.contains a s = false -> Py.replace_char a b s = s.
Proof.
  induction s as [|c s IH]; simpl; [auto|].
  intros H. apply orb_false_elim in H as [Hc Hs].
  rewrite Ascii.eqb_sym in Hc. now rewrite Hc, IH.
Qed.

(** X17.  No line that [parse_mq] reads contains a line feed, so the
    replacement of line feeds in a reason never changes anything: the reason
    taken from a line is the stripped line without its first and its last
    character. *)
Theorem X17_reason_without_linefeed (text line : string) :
  In line (Py.splitlines (call_mailq text)) ->
  Py.contains "010"%char line = false
  /\ Py.replace_char "010"%char " "%char (Py.inner (Py.strip line))
     = Py.inner (Py.strip line).
Proof.
  intros Hin.
  assert (H : Py.contains "010"%char line = false).
  { pose proof (splitlines_go_no_linefeed
                  (String.length (call_mailq text)) (call_mailq text)
                  EmptyString (le_n _) eq_refl) as HF.
    revert line Hin. now apply Forall_forall. }
  split; [assumption|].
  apply replace_absent, contains_inner. unfold Py.strip.
  now apply contains_rstrip, contains_lstrip.
Qed.

Lemma X17_reason_without_linefeed_witness :
  Py.contains "010"%char "(timeout)" = false
  /\ Py.replace_char "010"%char " "%char (Py.inner (Py.strip "(timeout)"))
     = Py.inner (Py.strip "(timeout)").
Proof.
  apply (X17_reason_without_linefeed truncated_listing "(timeout)").
  vm_compute. right. left. reflexivity.
Defined.

(** ** The reason that a group gets *)

Lemma address_dispatch (l : locals) (line : string) :
  is_address_line line = true ->
  state l <> MQ_STATE_DONE ->
  step l line = step_address l line.
Proof.
  unfold is_address_line, skipped_line, is_sentinel, is_footer.
  intros H Hst.
  repeat (apply andb_prop in H as [H ?]).
  repeat match goal with
         | H : negb _ = true |- _ => apply negb_true_iff in H
         end.
  unfold step.
  replace (mq_state_eqb (state l) MQ_STATE_DONE) with false
    by (destruct (state l); try reflexivity; congruence).
  repeat match goal with
         | H : _ = false |- _ => rewrite H
         end.
  destruct (Py.first (Py.lstrip_spaces line)) as [c|]; [|discriminate].
  match goal with
  | H : negb (Ascii.eqb c _) = true |- _ => apply negb_true_iff in H; rewrite H
  end.
  match goal with
  | H : Py.contains _ line = true |- _ => rewrite H
  end.
  reflexivity.
Qed.

Lemma base_store_recipients (b : msg) (v : pyval) :
  is_base b -> od_set "recipients" v b = b ++ [("recipients", v)].
Proof. intros (size & raw & sender & st & ->). reflexivity. Qed.

(** X18.  The header branch does not reset the reason.  For an Active
    record whose address follows its header directly, the group that the
    next empty line closes carries the reason left by the last reason line
    read before the header, whichever record that line belonged to; the
    group is without a reason only if there was none or it was empty. *)
Theorem X18_reason_carried_over (l : locals) (hdr a q : string) (b : msg) :
  locals_ok l ->
  state l <> MQ_STATE_DONE ->
  header_entry hdr = Some (q, b) ->
  status_of b = ST_ACTIVE ->
  is_address_line a = true ->
  exists l3,
    run l [hdr; a; EmptyString] = Continue l3
    /\ od_get q (msgs l3)
       = Some (b ++ [ ("recipients",
                       VRecipients
                         [ {| r_addresses := [Py.strip a];
                              r_reason := stored_reason (reason l) |} ]) ]).
Proof.
  intros [_ Hbound] Hst He Hact Haddr.
  apply header_entry_inv in He as [Hhex Hf].
  pose proof (header_fields_base hdr q b Hf) as Hb.
  assert (Hlink : exists l1,
             (if mq_state_eqb (state l) MQ_STATE_RCPT then do_link l else Ok l)
             = Ok l1 /\ reason l1 = reason l).
  { destruct (mq_state_eqb (state l) MQ_STATE_RCPT) eqn:E; [|eauto].
    apply mq_state_eqb_eq in E.
    destruct Hbound as (k & a0 & rs & Hk & _ & Hr); [rewrite E; discriminate|].
    unfold do_link. rewrite Hr, Hk. eexists. split; reflexivity. }
  destruct Hlink as (l1 & Hlink & Hreason).
  cbn [run]. rewrite hex_dispatch by assumption.
  unfold step_header, lift. rewrite Hlink, Hf, Hact.
  change (String.eqb ST_ACTIVE ST_ACTIVE) with true. cbv iota.
  rewrite address_dispatch by (auto; discriminate).
  unfold step_address. cbn [state addresses mq_state_eqb negb].
  unfold step. cbn [state mq_state_eqb Py.is_empty orb].
  unfold lift, do_append. cbn [recipients addresses bind].
  unfold do_link. cbn [recipients cur_msg linked reason msgs].
  eexists. split; [reflexivity|].
  cbn [msgs set_state]. rewrite store_field_get, String.eqb_refl.
  rewrite od_get_set_same. cbn [option_map].
  rewrite (base_store_recipients b _ Hb), Hreason. reflexivity.
Qed.

Lemma X18_reason_carried_over_witness :
  exists l3,
    run {| msgs := [ ("B2", rec_deferred) ]; cur_msg := Some "B2";
           addresses := Some [ "r1@example.com"; "r2@example.com" ];
           reason := Some "connection timed out";
           recipients := Some [ {| r_addresses :=
                                     [ "r1@example.com"; "r2@example.com" ];
                                   r_reason := Some "connection timed out" |} ];
           linked := true; state := MQ_STATE_MSG_DATA |}
      [ "A1* 1024 Mon Jan 5 10:00:00 user@example.com"; " rcpt@example.com";
        EmptyString ]
    = Continue l3
    /\ od_get "A1" (msgs l3)
       = Some ([ ("size", VStr "1024"); ("rawdate", VStr "Mon Jan 5 10:00:00");
                 ("sender", VStr "user@example.com"); ("status", VStr "active") ]
               ++ [ ("recipients",
                     VRecipients
                       [ {| r_addresses := [Py.strip " rcpt@example.com"];
                            r_reason :=
                              stored_reason (Some "connection timed out") |} ]) ]).
Proof.
  apply (X18_reason_carried_over
           {| msgs := [ ("B2", rec_deferred) ]; cur_msg := Some "B2";
              addresses := Some [ "r1@example.com"; "r2@example.com" ];
              reason := Some "connection timed out";
              recipients := Some [ {| r_addresses :=
                                        [ "r1@example.com"; "r2@example.com" ];
                                      r_reason := Some "connection timed out" |} ];
              linked := true; state := MQ_STATE_MSG_DATA |}
           "A1* 1024 Mon Jan 5 10:00:00 user@example.com" " rcpt@example.com"
           "A1").
  - split; [discriminate|]. intros _.
    exists "B2", [ "r1@example.com"; "r2@example.com" ],
      [ {| r_addresses := [ "r1@example.com"; "r2@example.com" ];
           r_reason := Some "connection timed out" |} ].
    repeat split.
  - discriminate.
  - vm_compute. reflexivity.
  - reflexivity.
  - vm_compute. reflexivity.
Defined.

Example reason_carried_in_listing :
  parse_lines [ "B2 2048 Mon Jan 5 10:00:01 s@example.com";
                "(connection timed out)"; " r1@example.com"; EmptyString;
                "A1* 1024 Mon Jan 5 10:00:00 user@example.com";
                " rcpt@example.com"; EmptyString ]
  = Ok [ ("B2", [ ("size", VStr "2048"); ("rawdate", VStr "Mon Jan 5 10:00:01");
                  ("sender", VStr "s@example.com"); ("status", VStr "deferred");
                  ("recipients",
                   VRecipients [ {| r_addresses := ["r1@example.com"];
                                    r_reason := Some "connection timed out" |} ]) ]);
         ("A1", [ ("size", VStr "1024"); ("rawdate", VStr "Mon Jan 5 10:00:00");
                  ("sender", VStr "user@example.com"); ("status", VStr "active");
                  ("recipients",
                   VRecipients [ {| r_addresses := ["rcpt@example.com"];
                                    r_reason := Some "connection timed out" |} ]) ]) ].
Proof. vm_compute. reflexivity. Qed.

(** ** Addresses out of place, and ages after the date pass *)

(** X19.  An address line is taken only while recipients are collected: in
    any other state that a parse can be in before the footer (before the
    first header, after the header of a record that is not Active, after
    the empty line that closes a record) it ends the parse with
    [sys.exit(1)] and the message that names the stripped line. *)
Theorem X19_address_out_of_place (pre rest : list string) (a : string)
    (l : locals) :
  run init_locals pre = Continue l ->
  state l <> MQ_STATE_RCPT ->
  state l <> MQ_STATE_DONE ->
  is_address_line a = true ->
  parse_lines (pre ++ a :: rest)
  = Raise (SystemExit 1
             ("Expected recipient address, got " ++ quoted (Py.strip a))%string).
Proof.
  intros Hrun Hr Hd Ha. unfold parse_lines. rewrite run_app, Hrun. simpl.
  rewrite address_dispatch by assumption. unfold step_address.
  replace (mq_state_eqb (state l) MQ_STATE_RCPT) with false
    by (destruct (state l); try reflexivity; congruence).
  reflexivity.
Qed.

Lemma X19_address_out_of_place_witness :
  parse_lines ([ "B2 10 Mon Jan 5 10:00:01 s@x" ] ++ " r@y" :: [])
  = Raise (SystemExit 1
             ("Expected recipient address, got " ++ quoted (Py.strip " r@y"))%string).
Proof.
  apply (X19_address_out_of_place [ "B2 10 Mon Jan 5 10:00:01 s@x" ] [] " r@y"
           {| msgs := [ ("B2", [ ("size", VStr "10");
                                 ("rawdate", VStr "Mon Jan 5 10:00:01");
                                 ("sender", VStr "s@x");
                                 ("status", VStr "deferred") ]) ];
              cur_msg := Some "B2"; addresses := Some [];
              reason := None; recipients := Some []; linked := false;
              state := MQ_STATE_REASON |}).
  - vm_compute. reflexivity.
  - discriminate.
  - discriminate.
  - vm_compute. reflexivity.
Defined.


(** ** The float of an age *)




(** Beyond that range the float decides: one microsecond short of a limit
    of 253402300799 seconds, the float of the age is the limit itself, so
    the minimum-age comparison holds although the age is below the limit. *)
Example age_rounded_up :
  float_ge_int (total_seconds 253402300798999999) 253402300799 = true
  /\ (253402300799 * 1000000 <=? 253402300798999999) = false
  /\ float_ge_int (total_seconds 1500000) 2 = false
  /\ float_le_int (total_seconds (-1)) 0 = true.
Proof. repeat split; vm_compute; reflexivity. Qed.

Section AgeFacts.

Variable fromtimestamp : Z -> res Z.


End AgeFacts.



(** ** The recipient and reason filters where they return *)

Section PatternFilters.

Variable regex : Type.
Variable re_compile : string -> option regex.
Variable re_search : regex -> string -> bool.

(** X21.  On a collection in which every record has its list of recipient
    groups, the recipient filter returns for every pattern that compiles,
    whether the groups carry reasons or not: it keeps, in their order, the
    records with at least one address that the pattern finds. *)
Theorem X21_recipient_filter (d : dict msg) (pattern : string) :
  NoDup (keys d) ->
  (forall kv, In kv d ->
              exists gs, od_get "recipients" (snd kv) = Some (VRecipients gs)) ->
  filter_on_msg_recipient regex re_compile re_search d pattern
  = match re_compile pattern with
    | Some pat => Ok (filter (address_found re_search pat) d)
    | None => Raise ReError
    end.
Proof.
  intros Hnd Hrec. unfold filter_on_msg_recipient.
  destruct (re_compile pattern) as [pat|]; [|reflexivity].
  cbn [of_option bind]. rewrite recipient_loop_spec by assumption.
  rewrite (select_items_total _ (address_found re_search pat)); [reflexivity|].
  intros kv Hin. destruct (Hrec kv Hin) as (gs & Hgs).
  unfold recipient_test, address_found, groups_of. unfold msg in *.
  rewrite Hgs. reflexivity.
Qed.

Lemma any_reason_total (pat : regex) (gs : list recipient) :
  Forall (fun g => r_reason g <> None) gs ->
  any_reason regex re_search pat gs
  = Ok (existsb (fun g => match r_reason g with
                          | Some r => (Py.truthy r && re_search pat r)%bool
                          | None => false
                          end) gs).
Proof.
  induction 1 as [|g gs Hg _ IH]; simpl; [reflexivity|].
  destruct (r_reason g) as [r|]; [|congruence].
  cbn [of_option bind]. now rewrite IH.
Qed.

(** X22.  On a collection in which every record has a status and every
    record that is not Active has its list of groups, each with a reason,
    the reason filter returns for every pattern that compiles: it keeps, in
    their order, the records that are not Active and have a group whose
    reason the pattern finds. *)
Theorem X22_reason_filter (d : dict msg) (pattern : string) :
  NoDup (keys d) ->
  (forall kv, In kv d -> reasons_readable kv) ->
  filter_on_msg_reason regex re_compile re_search d pattern
  = match re_compile pattern with
    | Some pat => Ok (filter (reason_found re_search pat) d)
    | None => Raise ReError
    end.
Proof.
  intros Hnd Hrec. unfold filter_on_msg_reason.
  destruct (re_compile pattern) as [pat|]; [|reflexivity].
  cbn [of_option bind]. rewrite reason_loop_spec by assumption.
  rewrite (select_items_total _ (reason_found re_search pat)); [reflexivity|].
  intros kv Hin. destruct (Hrec kv Hin) as (st & Hst & Hgs).
  unfold reason_test, reason_found, status_is, groups_of. unfold msg in *.
  rewrite Hst. cbn [of_option bind].
  destruct (val_is ST_ACTIVE st) eqn:Ea; [reflexivity|].
  destruct (Hgs eq_refl) as (gs & Hget & Hall).
  rewrite Hget. cbn [of_option bind as_recipients negb andb].
  now apply any_reason_total.
Qed.

End PatternFilters.

Lemma sample_has_groups (kv : string * msg) :
  In kv [("A1", rec_active); ("B2", rec_deferred)] ->
  exists gs, od_get "recipients" (snd kv) = Some (VRecipients gs).
Proof.
  intros [<-|[<-|[]]]; eexists; reflexivity.
Defined.

Lemma X21_recipient_filter_witness :
  filter_on_msg_recipient string lit_compile lit_search
    [("A1", rec_active); ("B2", rec_deferred)] "RCPT@"
  = match lit_compile "RCPT@" with
    | Some pat =>
        Ok (filter (address_found lit_search pat)
              [("A1", rec_active); ("B2", rec_deferred)])
    | None => Raise ReError
    end.
Proof.
  apply (X21_recipient_filter string lit_compile lit_search).
  - exact sample_keys_nodup.
  - exact sample_has_groups.
Defined.

Lemma sample_readable (kv : string * msg) :
  In kv [("A1", rec_active); ("B2", rec_deferred)] -> reasons_readable kv.
Proof.
  intros [<-|[<-|[]]].
  - exists (VStr "active"). split; [reflexivity|]. intros H. discriminate H.
  - exists (VStr "deferred"). split; [reflexivity|].
    intros _. eexists. split; [reflexivity|].
    constructor; [discriminate | constructor].
Defined.

Lemma X22_reason_filter_witness :
  filter_on_msg_reason string lit_compile lit_search
    [("A1", rec_active); ("B2", rec_deferred)] "timed OUT"
  = match lit_compile "timed OUT" with
    | Some pat =>
        Ok (filter (reason_found lit_search pat)
              [("A1", rec_active); ("B2", rec_deferred)])
    | None => Raise ReError
    end.
Proof.
  apply (X22_reason_filter string lit_compile lit_search).
  - exact sample_keys_nodup.
  - exact sample_readable.
Defined.
